(** * The TIPS image encoder (pytorch/image_encoder.py): a shallow embedding

    The encoder is a Vision Transformer written on top of PyTorch.  The
    development follows the layers of the source file:

    - [Py]: the Python fragments the source relies on (exceptions, integer
      floor division, [int()] of a float, [range] with a step);
    - [Torch]: tensors as a shape together with the symbolic expression that
      computes their entries, and the shape rules of the PyTorch operators
      the encoder calls;
    - the modules of the source, in source order: [PatchEmbed],
      [SwiGLUFFNFused], [Attention], [MemEffAttention], [Block],
      stochastic depth, the attention-bias cache, [NestedTensorBlock] and
      [VisionTransformer] with its [vit_small] preset.

    Python floats are IEEE binary64 numbers: they are modelled by Rocq's
    primitive floats, which compute. *)

From Stdlib Require Import ZArith Floats Lia.
From stdpp Require Import base option list gmap strings.

Set Warnings "-inexact-float,-register-all".
Local Open Scope Z_scope.

(* ===================================================================== *)
(** ** Python                                                             *)
(* ===================================================================== *)

Module Py.

(** The exceptions raised by the source or by the operators it calls. *)
Inductive exn :=
| AssertionError | ValueError | ZeroDivisionError | IndexError | NameError
| NotImplementedError | RuntimeError | OverflowError | TypeError | KeyError.

(** A computation either returns a value or raises. *)
Inductive result (A : Type) :=
| Ok (a : A)
| Raise (e : exn).
Arguments Ok {A} a.
Arguments Raise {A} e.

#[global] Instance result_ret : MRet result := λ A a, Ok a.
#[global] Instance result_bind : MBind result :=
  λ A B f m, match m with Ok a => f a | Raise e => Raise e end.
#[global] Instance result_fmap : FMap result :=
  λ A B f m, match m with Ok a => Ok (f a) | Raise e => Raise e end.

(** [assert c]. *)
Definition assert (c : bool) : result unit :=
  if c then Ok tt else Raise AssertionError.

(** [a // b] and [a % b] on ints: floor division, the remainder has the sign
    of the divisor; a zero divisor raises. *)
Definition floordiv (a b : Z) : result Z :=
  if b =? 0 then Raise ZeroDivisionError else Ok (a / b).
Definition pymod (a b : Z) : result Z :=
  if b =? 0 then Raise ZeroDivisionError else Ok (a mod b).

(** [float(z)], for an int that a binary64 represents (|z| < 2^53 in every
    use below). *)
Definition float_of_int (z : Z) : float :=
  if z <? 0 then (- PrimFloat.of_uint63 (Uint63.of_Z (- z)))%float
  else PrimFloat.of_uint63 (Uint63.of_Z z).

(** [int(f)]: truncation toward zero; infinities and NaN raise. *)
Definition int_of_float (f : float) : result Z :=
  match Prim2SF f with
  | S754_zero _ => Ok 0
  | S754_finite s m e =>
      let v := if 0 <=? e then Z.pos m * 2 ^ e else Z.pos m / 2 ^ (- e) in
      Ok (if s then - v else v)
  | S754_infinity _ => Raise OverflowError
  | S754_nan => Raise ValueError
  end.

(** Truth value of a float ([if f:]): everything but zero is true. *)
Definition float_truthy (f : float) : bool := negb (PrimFloat.eqb f 0).

(** [x or d] where [x] is an optional int: [None] and [0] are falsy. *)
Definition int_or (x : option Z) (d : Z) : Z :=
  match x with
  | Some v => if v =? 0 then d else v
  | None => d
  end.

(** [range(start, stop, step)]: ascending for a positive step, descending
    for a negative one; a zero step raises [ValueError]. *)
Fixpoint range_up (fuel : nat) (start stop step : Z) : list Z :=
  match fuel with
  | O => []
  | S fuel' =>
      if start <? stop then start :: range_up fuel' (start + step) stop step
      else []
  end.

Fixpoint range_down (fuel : nat) (start stop step : Z) : list Z :=
  match fuel with
  | O => []
  | S fuel' =>
      if stop <? start then start :: range_down fuel' (start + step) stop step
      else []
  end.

Definition range3 (start stop step : Z) : result (list Z) :=
  if step =? 0 then Raise ValueError
  else if 0 <? step then Ok (range_up (Z.to_nat (stop - start)) start stop step)
  else Ok (range_down (Z.to_nat (start - stop)) start stop step).

(** [p i] for every [i] in [[i0, i0 + fuel)]. *)
Fixpoint all_from (fuel : nat) (i0 : Z) (p : Z → bool) : bool :=
  match fuel with
  | O => true
  | S fuel' => p i0 && all_from fuel' (i0 + 1) p
  end.

End Py.
Export Py.

(* ===================================================================== *)
(** ** SwiGLUFFNFused                                                     *)
(* ===================================================================== *)

Module SwiGLUFFNFused.

(** [SwiGLUFFNFused.__init__]: the hidden width handed to the parent class.
<<
    hidden_features = hidden_features or in_features
    hidden_features = (int(hidden_features * 2 / 3) + 7) // 8 * 8
>>
    [hidden_features * 2 / 3] is Python's true division: a binary64. *)
Definition hidden_features (in_features : Z) (hidden : option Z) : result Z :=
  let hidden_features := int_or hidden in_features in
  q ← int_of_float (float_of_int (hidden_features * 2) / 3);
  mret ((q + 7) / 8 * 8).

End SwiGLUFFNFused.

(* ===================================================================== *)
(** ** PyTorch tensors and operators                                      *)
(* ===================================================================== *)

Module Torch.

(** Attributes of an operator application that are not tensors. *)
Inductive attr :=
| AInt (z : Z)
| AFloat (f : float)
| ABool (b : bool).

(** The entries of a tensor, as the expression that computes them from the
    parameters and the inputs: tensor kernels stay uninterpreted. *)
Inductive expr :=
| Param (name : string)
| Op (f : string) (attrs : list attr) (args : list expr).

Record Tensor := mkTensor { shape : list Z; data : expr }.

Definition numel (s : list Z) : Z := foldr Z.mul 1 s.

(** [x.shape[i]] for [i >= 0]. *)
Definition size (s : list Z) (i : nat) : result Z :=
  match s !! i with Some d => Ok d | None => Raise IndexError end.

(** Shape of an operator that works entry by entry (activation, dropout,
    softmax, a cast): the shape is kept. *)
Definition pointwise (f : string) (attrs : list attr) (x : Tensor) : Tensor :=
  mkTensor (shape x) (Op f attrs [data x]).

(** [nn.Conv2d(in_chans, out_chans, kernel_size=k, stride=k)] on
    [B, C, H, W]: the channel count must match and the kernel must fit. *)
Definition conv2d (in_chans out_chans kh kw : Z) (x : Tensor) : result Tensor :=
  match shape x with
  | [b; c; h; w] =>
      if negb (c =? in_chans) || (kh <=? 0) || (kw <=? 0) || (h <? kh) || (w <? kw)
      then Raise RuntimeError
      else Ok (mkTensor [b; out_chans; (h - kh) / kh + 1; (w - kw) / kw + 1]
                        (Op "conv2d" [AInt kh; AInt kw] [data x]))
  | _ => Raise RuntimeError
  end.

(** [x.flatten(start)]. *)
Definition flatten (start : nat) (x : Tensor) : result Tensor :=
  if decide (start < length (shape x))%nat
  then Ok (mkTensor (take start (shape x) ++ [numel (drop start (shape x))])
                    (Op "flatten" [AInt (Z.of_nat start)] [data x]))
  else Raise IndexError.

(** [x.transpose(i, j)]. *)
Definition transpose (i j : nat) (x : Tensor) : result Tensor :=
  match shape x !! i, shape x !! j with
  | Some di, Some dj =>
      Ok (mkTensor (<[i := dj]> (<[j := di]> (shape x)))
                   (Op "transpose" [AInt (Z.of_nat i); AInt (Z.of_nat j)] [data x]))
  | _, _ => Raise IndexError
  end.

(** [x.permute(dims)]: [dims] must be a permutation of the axes. *)
Definition permute (dims : list nat) (x : Tensor) : result Tensor :=
  if decide (dims ≡ₚ seq 0 (length (shape x)))
  then Ok (mkTensor (omap (λ i, shape x !! i) dims)
                    (Op "permute" (AInt ∘ Z.of_nat <$> dims) [data x]))
  else Raise RuntimeError.

(** [x.reshape(target)] and [x.view(target)]: at most one entry of [target]
    is [-1] and is inferred from the number of elements. *)
Definition infer_shape (n : Z) (target : list Z) : result (list Z) :=
  let unknown := length (filter (λ d, d = -1) target) in
  if bool_decide (Exists (λ d, d < -1) target) then Raise RuntimeError
  else match unknown with
  | O => if numel target =? n then Ok target else Raise RuntimeError
  | S O =>
      let known := numel (filter (λ d, d ≠ -1) target) in
      if (known =? 0) || negb (n mod known =? 0) then Raise RuntimeError
      else Ok ((λ d, if d =? -1 then n / known else d) <$> target)
  | _ => Raise RuntimeError
  end.

Definition reshape (target : list Z) (x : Tensor) : result Tensor :=
  s ← infer_shape (numel (shape x)) target;
  mret (mkTensor s (Op "reshape" (AInt <$> target) [data x])).

(** [nn.Linear(in_features, out_features)]: acts on the last axis. *)
Definition linear (name : string) (in_features out_features : Z) (x : Tensor)
  : result Tensor :=
  match reverse (shape x) with
  | d :: rest =>
      if d =? in_features
      then Ok (mkTensor (reverse (out_features :: rest)) (Op "linear" [] [Param name; data x]))
      else Raise RuntimeError
  | [] => Raise RuntimeError
  end.

(** [nn.LayerNorm(dim)]: the last axis must have [dim] entries. *)
Definition layer_norm (name : string) (dim : Z) (x : Tensor) : result Tensor :=
  match reverse (shape x) with
  | d :: _ =>
      if d =? dim then Ok (mkTensor (shape x) (Op "layer_norm" [] [Param name; data x]))
      else Raise RuntimeError
  | [] => Raise RuntimeError
  end.

(** Broadcasting of two shapes, aligned on the last axis. *)
Fixpoint broadcast_rev (s1 s2 : list Z) : result (list Z) :=
  match s1, s2 with
  | [], s | s, [] => Ok s
  | d1 :: r1, d2 :: r2 =>
      r ← broadcast_rev r1 r2;
      if d1 =? d2 then Ok (d1 :: r)
      else if d1 =? 1 then Ok (d2 :: r)
      else if d2 =? 1 then Ok (d1 :: r)
      else Raise RuntimeError
  end.

Definition broadcast (s1 s2 : list Z) : result (list Z) :=
  reverse <$> broadcast_rev (reverse s1) (reverse s2).

(** A binary entrywise operator ([x + y], [x * y]). *)
Definition binop (f : string) (x y : Tensor) : result Tensor :=
  s ← broadcast (shape x) (shape y);
  mret (mkTensor s (Op f [] [data x; data y])).

Definition add := binop "add".
Definition mul := binop "mul".

(** [torch.cat(xs, dim)]: a non-empty list of tensors that agree on every
    axis but [dim]. *)
Definition cat (dim : nat) (xs : list Tensor) : result Tensor :=
  match xs with
  | [] => Raise RuntimeError
  | x0 :: _ =>
      match shape x0 !! dim with
      | None => Raise IndexError
      | Some _ =>
          if forallb (λ x, bool_decide (<[dim := 0]> (shape x) = <[dim := 0]> (shape x0))) xs
          then Ok (mkTensor (<[dim := foldr Z.add 0 ((λ x, default 0 (shape x !! dim)) <$> xs)]>
                               (shape x0))
                            (Op "cat" [AInt (Z.of_nat dim)] (data <$> xs)))
          else Raise RuntimeError
      end
  end.

(** [p.expand(b, -1, -1)] on a parameter of shape [1, n, d]. *)
Definition expand0 (b : Z) (x : Tensor) : result Tensor :=
  match shape x with
  | d0 :: rest =>
      if (d0 =? 1) || (d0 =? b)
      then Ok (mkTensor (b :: rest) (Op "expand" [AInt b] [data x]))
      else Raise RuntimeError
  | [] => Raise RuntimeError
  end.

(** Python's slice bounds on an axis of [n] entries: negative bounds count
    from the end, and both are clamped to the axis. *)
Definition clamp_index (n i : Z) : Z :=
  let i := if i <? 0 then i + n else i in Z.max 0 (Z.min n i).

(** [x[:, lo:hi]]; [hi = None] stands for an omitted upper bound. *)
Definition slice1 (lo : Z) (hi : option Z) (x : Tensor) : result Tensor :=
  match shape x with
  | d0 :: n :: rest =>
      let l := clamp_index n lo in
      let h := clamp_index n (default n hi) in
      Ok (mkTensor (d0 :: Z.max 0 (h - l) :: rest)
                   (Op "slice" [AInt 1; AInt l; AInt h] [data x]))
  | _ => Raise IndexError
  end.

(** [x[:, i]]: the axis is dropped. *)
Definition select1 (i : Z) (x : Tensor) : result Tensor :=
  match shape x with
  | d0 :: n :: rest =>
      if (- n <=? i) && (i <? n)
      then Ok (mkTensor (d0 :: rest) (Op "select" [AInt 1; AInt i] [data x]))
      else Raise IndexError
  | _ => Raise IndexError
  end.

(** [x[i]] on the first axis. *)
Definition select0 (i : Z) (x : Tensor) : result Tensor :=
  match shape x with
  | n :: rest =>
      if (- n <=? i) && (i <? n)
      then Ok (mkTensor rest (Op "select" [AInt 0; AInt i] [data x]))
      else Raise IndexError
  | _ => Raise IndexError
  end.

(** [x.unsqueeze(k)] for [k >= 0], and [x.unsqueeze(-1)]. *)
Definition unsqueeze (k : nat) (x : Tensor) : result Tensor :=
  if decide (k ≤ length (shape x))%nat
  then Ok (mkTensor (take k (shape x) ++ 1 :: drop k (shape x))
                    (Op "unsqueeze" [AInt (Z.of_nat k)] [data x]))
  else Raise IndexError.

Definition unsqueeze_last (x : Tensor) : Tensor :=
  mkTensor (shape x ++ [1]) (Op "unsqueeze" [AInt (-1)] [data x]).

(** [x @ y] on tensors of the same rank >= 2 with equal leading axes, as
    the attention layers call it. *)
Definition matmul (x y : Tensor) : result Tensor :=
  match reverse (shape x), reverse (shape y) with
  | k :: n :: bx, m :: k' :: by_ =>
      if (k =? k') && bool_decide (bx = by_)
      then Ok (mkTensor (reverse (m :: n :: bx)) (Op "matmul" [] [data x; data y]))
      else Raise RuntimeError
  | _, _ => Raise RuntimeError
  end.

(** How [nn.functional.interpolate] is told the output grid. *)
Inductive interp_arg :=
| ScaleFactor (sx sy : float)
| Size (w0 h0 : Z).

(** [nn.functional.interpolate(x, mode="bilinear", antialias=aa, ...)] on
    [N, C, H, W].  With a scale factor the output side is the truncated
    binary64 product of the input side and the factor.  Empty inputs and
    outputs are refused. *)
Definition interpolate (arg : interp_arg) (antialias : bool) (x : Tensor)
  : result Tensor :=
  match shape x with
  | [n; c; h; w] =>
      '(oh, ow) ← match arg with
                  | ScaleFactor sx sy =>
                      oh ← int_of_float (float_of_int h * sx);
                      ow ← int_of_float (float_of_int w * sy);
                      mret (oh, ow)
                  | Size w0 h0 => mret (w0, h0)
                  end;
      if (h <=? 0) || (w <=? 0) || (oh <=? 0) || (ow <=? 0) then Raise RuntimeError
      else Ok (mkTensor [n; c; oh; ow]
                 (Op "interpolate_bilinear"
                     (ABool antialias ::
                      match arg with
                      | ScaleFactor sx sy => [AFloat sx; AFloat sy]
                      | Size w0 h0 => [AInt w0; AInt h0]
                      end) [data x]))
  | _ => Raise RuntimeError
  end.

End Torch.
Export Torch.

(* ===================================================================== *)
(** ** Random draws and the monad of a forward pass                       *)
(* ===================================================================== *)

(** PyTorch's random generator: a state [G] from which [torch.randperm(b)]
    draws an arrangement of [0 .. b-1] and [bernoulli_(p)] draws [n] coins.
    The generator is a collaborator of the encoder: its state and its two
    draws are the interface, the distribution is its own business. *)
Class Generator (G : Type) := {
  randperm : Z → G → list nat * G;
  bernoulli : float → nat → G → list bool * G;
}.

(** A generator is lawful when [randperm b] returns a permutation of the
    indices below [b] and [bernoulli p n] returns [n] coins. *)
Class GeneratorLaws (G : Type) `{Generator G} := {
  randperm_perm : ∀ b g, (randperm b g).1 ≡ₚ seq 0 (Z.to_nat b);
  bernoulli_length : ∀ p n g, length (bernoulli p n g).1 = n;
}.

(** A forward pass reads and advances the generator and may raise. *)
Definition M (G A : Type) : Type := G → result (A * G).

#[global] Instance M_ret {G} : MRet (M G) := λ A a g, Ok (a, g).
#[global] Instance M_bind {G} : MBind (M G) :=
  λ A B f m g, match m g with Ok (a, g') => f a g' | Raise e => Raise e end.

(** A computation that does not touch the generator. *)
Definition lift {G A} (r : result A) : M G A :=
  λ g, match r with Ok a => Ok (a, g) | Raise e => Raise e end.

Definition draw {G A} (f : G → A * G) : M G A := λ g, Ok (f g).

(* ===================================================================== *)
(** ** Batches                                                            *)
(* ===================================================================== *)

(** What the transformer block needs of a batch [x] of samples: the
    operations [Block.forward], [drop_path_impl] and
    [drop_add_residual_stochastic_depth] call on the batch axis. *)
Class Batch (T : Type) := {
  (** [b, _, _ = x.shape] *)
  batch_size : T → result Z;
  (** [x + y] *)
  tadd : T → T → result T;
  (** [x[brange]] *)
  index_select : list nat → T → result T;
  (** [torch.index_add(x.flatten(1), 0, brange, residual.flatten(1),
      alpha=alpha).view_as(x)] *)
  index_add : T → list nat → T → float → result T;
  (** [x * random_tensor] where [random_tensor] has one entry per sample *)
  scale_samples : list float → T → result T;
  (** [x.shape[0]] *)
  shape0 : T → result Z;
}.

(** *** Batches of rows

    A batch as the list of its samples.  A sample (a row of the flattened
    batch) is added to another and multiplied by a scalar; the arithmetic of
    the entries stays abstract. *)
Class RowOps (Row : Type) := {
  radd : Row → Row → Row;
  rscale : float → Row → Row;
}.

(** [x + y] on batches of rows, with broadcasting of a single sample. *)
Definition rows_add `{RowOps Row} (x y : list Row) : result (list Row) :=
  if decide (length x = length y) then Ok (zip_with radd x y)
  else match x, y with
       | _, [y0] => Ok ((λ xi, radd xi y0) <$> x)
       | [x0], _ => Ok (radd x0 <$> y)
       | _, _ => Raise RuntimeError
       end.

(** [x[brange]]: an index out of range raises. *)
Definition rows_select {Row} (brange : list nat) (x : list Row) : result (list Row) :=
  match mapM (λ i, x !! i) brange with
  | Some rows => Ok rows
  | None => Raise IndexError
  end.

(** [index_add]: [x[brange[k]] += alpha * residual[k]] for every [k], one
    after the other. *)
Fixpoint rows_index_add_loop `{RowOps Row} (x : list Row) (brange : list nat)
    (residual : list Row) (alpha : float) : list Row :=
  match brange, residual with
  | i :: brange', r :: residual' =>
      rows_index_add_loop (alter (λ xi, radd xi (rscale alpha r)) i x) brange' residual' alpha
  | _, _ => x
  end.

Definition rows_index_add `{RowOps Row} (x : list Row) (brange : list nat)
    (residual : list Row) (alpha : float) : result (list Row) :=
  if decide (length brange = length residual) then
    if forallb (λ i, bool_decide (i < length x)%nat) brange
    then Ok (rows_index_add_loop x brange residual alpha)
    else Raise IndexError
  else Raise RuntimeError.

Definition rows_scale `{RowOps Row} (factors : list float) (x : list Row)
  : result (list Row) :=
  if decide (length factors = length x) then Ok (zip_with rscale factors x)
  else Raise RuntimeError.

#[global] Instance rows_batch `{RowOps Row} : Batch (list Row) := {
  batch_size x := Ok (Z.of_nat (length x));
  tadd := rows_add;
  index_select := rows_select;
  index_add := rows_index_add;
  scale_samples := rows_scale;
  shape0 x := Ok (Z.of_nat (length x));
}.

(** *** Tensors as batches *)

(** [b, _, _ = x.shape] *)
Definition unpack3 (x : Tensor) : result (Z * Z * Z) :=
  match shape x with
  | [b; n; c] => Ok (b, n, c)
  | _ => Raise ValueError
  end.

(** [x[brange]] *)
Definition tensor_index_select (brange : list nat) (x : Tensor) : result Tensor :=
  match shape x with
  | d0 :: rest =>
      if forallb (λ i, Z.of_nat i <? d0) brange
      then Ok (mkTensor (Z.of_nat (length brange) :: rest)
                        (Op "index" (AInt ∘ Z.of_nat <$> brange) [data x]))
      else Raise IndexError
  | [] => Raise IndexError
  end.

(** [torch.index_add(x.flatten(1), 0, brange, residual.flatten(1),
    alpha=alpha).view_as(x)] *)
Definition tensor_index_add (x : Tensor) (brange : list nat) (residual : Tensor)
    (alpha : float) : result Tensor :=
  x_flat ← flatten 1 x;
  residual ← flatten 1 residual;
  match shape x_flat, shape residual with
  | [b; inner], [k; inner'] =>
      if (inner =? inner') && (k =? Z.of_nat (length brange))
      then if forallb (λ i, Z.of_nat i <? b) brange
           then Ok (mkTensor (shape x)
                      (Op "index_add" (AFloat alpha :: (AInt ∘ Z.of_nat <$> brange))
                          [data x; data residual]))
           else Raise IndexError
      else Raise RuntimeError
  | _, _ => Raise RuntimeError
  end.

(** [x * random_tensor], [random_tensor] of shape [(x.shape[0], 1, ..., 1)] *)
Definition tensor_scale_samples (factors : list float) (x : Tensor) : result Tensor :=
  match shape x with
  | d0 :: _ =>
      if d0 =? Z.of_nat (length factors)
      then Ok (mkTensor (shape x) (Op "mul_samples" (AFloat <$> factors) [data x]))
      else Raise RuntimeError
  | [] => Raise RuntimeError
  end.

#[global] Instance tensor_batch : Batch Tensor := {
  batch_size x := '(b, _, _) ← unpack3 x; mret b;
  tadd := add;
  index_select := tensor_index_select;
  index_add := tensor_index_add;
  scale_samples := tensor_scale_samples;
  shape0 x := size (shape x) 0;
}.

(* ===================================================================== *)
(** ** Stochastic depth                                                   *)
(* ===================================================================== *)

Section StochasticDepth.
Context {T G : Type} `{Batch T} `{Generator G}.

(** [drop_path_impl(x, drop_prob, training)].  [bernoulli_] refuses a
    probability outside [[0, 1]]. *)
Definition drop_path_impl (x : T) (drop_prob : float) (training : bool) : M G T :=
  if (drop_prob =? 0)%float || negb training then mret x
  else
    let keep_prob := (1 - drop_prob)%float in
    n ← lift (shape0 x);
    _ ← lift (if (0 <=? keep_prob)%float && (keep_prob <=? 1)%float
              then Ok tt else Raise RuntimeError);
    coins ← draw (bernoulli keep_prob (Z.to_nat n));
    let random_tensor := (λ c : bool, if c then 1%float else 0%float) <$> coins in
    let random_tensor :=
      if (0 <? keep_prob)%float then (λ v, v / keep_prob)%float <$> random_tensor
      else random_tensor in
    lift (scale_samples random_tensor x).

(** [DropPath(drop_prob).forward], and the [nn.Identity()] that stands in
    for it when [drop_path <= 0]. *)
Inductive DropPath :=
| DropPathIdentity
| DropPathModule (drop_prob : float).

Definition DropPath_init (drop_path : float) : DropPath :=
  if (0 <? drop_path)%float then DropPathModule drop_path else DropPathIdentity.

Definition DropPath_forward (self : DropPath) (training : bool) (x : T) : M G T :=
  match self with
  | DropPathIdentity => mret x
  | DropPathModule drop_prob => drop_path_impl x drop_prob training
  end.

(** [max(int(b * (1 - sample_drop_ratio)), 1)] *)
Definition sample_subset_size (b : Z) (sample_drop_ratio : float) : result Z :=
  q ← int_of_float (float_of_int b * (1 - sample_drop_ratio));
  mret (Z.max q 1).

(** [drop_add_residual_stochastic_depth(x, residual_func, sample_drop_ratio)] *)
Definition drop_add_residual_stochastic_depth
    (x : T) (residual_func : T → M G T) (sample_drop_ratio : float) : M G T :=
  (* 1) extract subset using permutation *)
  b ← lift (batch_size x);
  sample_subset_size ← lift (sample_subset_size b sample_drop_ratio);
  perm ← draw (randperm b);
  let brange := take (Z.to_nat sample_subset_size) perm in
  x_subset ← lift (index_select brange x);
  (* 2) apply residual_func to get residual *)
  residual ← residual_func x_subset;
  let residual_scale_factor := (float_of_int b / float_of_int sample_subset_size)%float in
  (* 3) add the residual *)
  lift (index_add x brange residual residual_scale_factor).

(** [Block.forward], given the two residual branches
    [attn_residual_func = ls1 . attn . norm1] and
    [ffn_residual_func = ls2 . mlp . norm2] of the block. *)
Definition Block_forward_with (training : bool) (sample_drop_ratio : float)
    (attn_residual_func ffn_residual_func : T → M G T) (x : T) : M G T :=
  let drop_path1 := DropPath_init sample_drop_ratio in
  if training && (0.1 <? sample_drop_ratio)%float then
    (* the overhead is compensated only for a drop path rate larger than 0.1 *)
    x ← drop_add_residual_stochastic_depth x attn_residual_func sample_drop_ratio;
    drop_add_residual_stochastic_depth x ffn_residual_func sample_drop_ratio
  else if training && (0 <? sample_drop_ratio)%float then
    r ← attn_residual_func x;
    r ← DropPath_forward drop_path1 training r;
    x ← lift (tadd x r);
    r ← ffn_residual_func x;
    r ← DropPath_forward drop_path1 training r;
    lift (tadd x r)
  else
    r ← attn_residual_func x;
    x ← lift (tadd x r);
    r ← ffn_residual_func x;
    lift (tadd x r).

End StochasticDepth.

(** *** What a sample receives

    [residual_on_subset x y brange residual alpha]: the batch [y] is [x]
    where the sample [brange[j]] received [alpha * residual[j]], for every
    [j], and every other sample is unchanged. *)
Definition residual_on_subset `{RowOps Row}
    (x y : list Row) (brange : list nat) (residual : list Row) (alpha : float) : Prop :=
  length y = length x ∧
  ∀ i xi, x !! i = Some xi →
    (∀ j, brange !! j = Some i →
       ∃ rj, residual !! j = Some rj ∧ y !! i = Some (radd xi (rscale alpha rj))) ∧
    (i ∉ brange → y !! i = Some xi).

(** [residual_per_sample x y residual factors]: every sample of [y] is the
    sample of [x] plus its own residual row times its own factor. *)
Definition residual_per_sample `{RowOps Row}
    (x y residual : list Row) (factors : list float) : Prop :=
  length y = length x ∧
  ∀ i xi, x !! i = Some xi →
    ∃ ri fi, residual !! i = Some ri ∧ factors !! i = Some fi ∧
             y !! i = Some (radd xi (rscale fi ri)).

(** The factor a coin of [drop_path_impl] turns into: [1 / keep_prob] for a
    kept sample, [0 / keep_prob] for a dropped one. *)
Definition coin_factor (keep_prob : float) (coin : bool) : float :=
  ((if coin then 1 else 0) / keep_prob)%float.

(** A residual branch returns as many samples as it is given. *)
Definition keeps_batch {Row G} (f : list Row → M G (list Row)) : Prop :=
  ∀ x g y g', f x g = Ok (y, g') → length y = length x.

(** *** The three ways a residual branch is added, in the words of the
    specification

    Each relation reads: from the batch [x] and the generator state [g], the
    branch [f] leads to the batch [y] and the generator state [g']. *)
Section ResidualSteps.
Context {Row G : Type} `{RowOps Row} `{Generator G}.

(** Batch-subset stochastic depth: the first
    [max(int(b * (1 - r)), 1)] entries of a random arrangement of the batch
    are selected, the branch runs on those samples only, and each selected
    sample receives its residual scaled by [b / subset_size]. *)
Definition subset_residual_step (f : list Row → M G (list Row)) (r : float)
    (x : list Row) (g : G) (y : list Row) (g' : G) : Prop :=
  let b := Z.of_nat (length x) in
  ∃ k x_subset residual,
    sample_subset_size b r = Ok k ∧
    let brange := take (Z.to_nat k) (randperm b g).1 in
    NoDup brange ∧
    length brange = (Z.to_nat k `min` length x)%nat ∧
    rows_select brange x = Ok x_subset ∧
    f x_subset (randperm b g).2 = Ok (residual, g') ∧
    length residual = length brange ∧
    residual_on_subset x y brange residual (float_of_int b / float_of_int k)%float.

(** Per-sample drop: the branch runs on the whole batch, one coin is drawn
    per sample with probability [1 - r] of keeping, and a kept residual is
    scaled by [1 / (1 - r)]. *)
Definition bernoulli_residual_step (f : list Row → M G (list Row)) (r : float)
    (x : list Row) (g : G) (y : list Row) (g' : G) : Prop :=
  let keep_prob := (1 - r)%float in
  ∃ residual g1,
    f x g = Ok (residual, g1) ∧
    let coins := (bernoulli keep_prob (length x) g1).1 in
    g' = (bernoulli keep_prob (length x) g1).2 ∧
    length coins = length x ∧
    residual_per_sample x y residual (coin_factor keep_prob <$> coins).

(** No drop: every sample receives its residual as it is. *)
Definition full_residual_step (f : list Row → M G (list Row))
    (x : list Row) (g : G) (y : list Row) (g' : G) : Prop :=
  ∃ residual,
    f x g = Ok (residual, g') ∧
    length y = length x ∧
    ∀ i xi, x !! i = Some xi →
      ∃ ri, residual !! i = Some ri ∧ y !! i = Some (radd xi ri).

End ResidualSteps.

(* ===================================================================== *)
(** ** PatchEmbed                                                         *)
(* ===================================================================== *)

(** An [int] or a tuple of ints, as [img_size] and [patch_size] are given. *)
Inductive int_or_tuple :=
| IInt (z : Z)
| ITuple (l : list Z).

(** [make_2tuple] *)
Definition make_2tuple (x : int_or_tuple) : result (Z * Z) :=
  match x with
  | ITuple [a; b] => Ok (a, b)
  | ITuple _ => Raise AssertionError
  | IInt z => Ok (z, z)
  end.

Module PatchEmbed.

Record t := mk {
  img_size : Z * Z;
  patch_size : Z * Z;
  patches_resolution : Z * Z;
  num_patches : Z;
  in_chans : Z;
  embed_dim : Z;
  flatten_embedding : bool;
  (** [norm_layer(embed_dim)] when a norm layer is given, [nn.Identity()]
      otherwise *)
  norm : bool;
}.

(** [PatchEmbed.__init__] *)
Definition init (img_size patch_size : int_or_tuple) (in_chans embed_dim : Z)
    (norm_layer : bool) (flatten_embedding : bool) : result t :=
  image_hw ← make_2tuple img_size;
  patch_hw ← make_2tuple patch_size;
  g0 ← floordiv image_hw.1 patch_hw.1;
  g1 ← floordiv image_hw.2 patch_hw.2;
  mret (mk image_hw patch_hw (g0, g1) (g0 * g1) in_chans embed_dim
           flatten_embedding norm_layer).

(** [PatchEmbed.forward] *)
Definition forward (self : t) (x : Tensor) : result Tensor :=
  '(h, w) ← match shape x with
            | [_; _; h; w] => Ok (h, w)
            | _ => Raise ValueError
            end;
  let '(patch_h, patch_w) := patch_size self in
  hm ← pymod h patch_h;
  _ ← assert (hm =? 0);
  wm ← pymod w patch_w;
  _ ← assert (wm =? 0);
  x ← conv2d (in_chans self) (embed_dim self) patch_h patch_w x;  (* B C H W *)
  h ← size (shape x) 2;
  w ← size (shape x) 3;
  x ← flatten 2 x;
  x ← transpose 1 2 x;  (* B HW C *)
  x ← (if norm self then layer_norm "patch_embed.norm" (embed_dim self) x else Ok x);
  if negb (flatten_embedding self)
  then reshape [-1; h; w; embed_dim self] x  (* B H W C *)
  else Ok x.

End PatchEmbed.

(* ===================================================================== *)
(** ** Feed-forward layers                                                *)
(* ===================================================================== *)

(** [nn.Dropout(p)], entry by entry. *)
Definition dropout (p : float) (training : bool) (x : Tensor) : Tensor :=
  pointwise "dropout" [AFloat p; ABool training] x.

Module Mlp.

Record t := mk {
  in_features : Z;
  hidden_features : Z;
  out_features : Z;
  drop : float;
}.

(** [Mlp.__init__] *)
Definition init (in_features : Z) (hidden_features out_features : option Z)
    (drop : float) : t :=
  let out_features := int_or out_features in_features in
  let hidden_features := int_or hidden_features in_features in
  mk in_features hidden_features out_features drop.

(** [Mlp.forward] *)
Definition forward (self : t) (training : bool) (x : Tensor) : result Tensor :=
  x ← linear "fc1" (in_features self) (hidden_features self) x;
  let x := pointwise "gelu" [] x in
  let x := dropout (drop self) training x in
  x ← linear "fc2" (hidden_features self) (out_features self) x;
  mret (dropout (drop self) training x).

End Mlp.

Module SwiGLUFFN.

Record t := mk {
  in_features : Z;
  hidden_features : Z;
  out_features : Z;
}.

(** [SwiGLUFFN.__init__] *)
Definition init (in_features : Z) (hidden_features out_features : option Z) : t :=
  let out_features := int_or out_features in_features in
  let hidden_features := int_or hidden_features in_features in
  mk in_features hidden_features out_features.

(** [x12.chunk(2, dim=-1)]: the two halves of the last axis. *)
Definition chunk2 (x : Tensor) : result (Tensor * Tensor) :=
  match reverse (shape x) with
  | d :: rest =>
      let half := (d + 1) / 2 in
      if d <? 2 then Raise ValueError (* fewer than two chunks to unpack *) else
      Ok (mkTensor (reverse (half :: rest)) (Op "chunk" [AInt 0] [data x]),
          mkTensor (reverse (d - half :: rest)) (Op "chunk" [AInt 1] [data x]))
  | [] => Raise IndexError
  end.

(** [SwiGLUFFN.forward]; the fused [xformers.ops.SwiGLU] that replaces it
    when xFormers is there has the same shapes. *)
Definition forward (self : t) (x : Tensor) : result Tensor :=
  x12 ← linear "w12" (in_features self) (2 * hidden_features self) x;
  '(x1, x2) ← chunk2 x12;
  hidden ← mul (pointwise "silu" [] x1) x2;
  linear "w3" (hidden_features self) (out_features self) hidden.

(** [SwiGLUFFNFused.__init__] *)
Definition init_fused (in_features : Z) (hidden_features out_features : option Z)
  : result t :=
  let out_features := int_or out_features in_features in
  hidden_features ← SwiGLUFFNFused.hidden_features in_features hidden_features;
  mret (init in_features (Some hidden_features) (Some out_features)).

End SwiGLUFFN.

(* ===================================================================== *)
(** ** Attention                                                          *)
(* ===================================================================== *)

(** [fmha.BlockDiagonalMask]: the lengths of the blocks, the
    [_batch_sizes] attribute the encoder sets on it, and the identity of the
    object. *)
Record BlockDiagonalMask := mkMask {
  mask_id : nat;
  seqlens : list Z;
  _batch_sizes : list Z;
}.

Module Attention.

Record t := mk {
  dim : Z;
  num_heads : Z;
  head_dim : Z;
  attn_drop : float;
  proj_drop : float;
}.

(** [Attention.__init__]: [head_dim = dim // num_heads] and
    [scale = head_dim ** -0.5] raise on a zero divisor, [nn.Linear] on a
    negative width. *)
Definition init (dim num_heads : Z) (attn_drop proj_drop : float) : result t :=
  head_dim ← floordiv dim num_heads;
  _ ← (if head_dim =? 0 then Raise ZeroDivisionError else Ok tt);
  _ ← (if dim <? 0 then Raise RuntimeError else Ok tt);
  mret (mk dim num_heads head_dim attn_drop proj_drop).

(** [Attention.forward] *)
Definition forward (self : t) (training : bool) (x : Tensor) : result Tensor :=
  '(b_dim, n_dim, c_dim) ← unpack3 x;
  qkv ← linear "qkv" (dim self) (dim self * 3) x;
  hd ← floordiv c_dim (num_heads self);
  qkv ← reshape [b_dim; n_dim; 3; num_heads self; hd] qkv;
  qkv ← permute [2; 0; 3; 1; 4]%nat qkv;
  q ← select0 0 qkv;
  k ← select0 1 qkv;
  v ← select0 2 qkv;
  let q := pointwise "mul_pow" [AInt (head_dim self); AFloat (-0.5)] q in
  kt ← transpose 2 3 k;  (* k.transpose(-2, -1), k of rank 4 *)
  attn ← matmul q kt;
  let attn := pointwise "softmax" [AInt (-1)] attn in
  let attn := dropout (attn_drop self) training attn in
  x ← matmul attn v;
  x ← transpose 1 2 x;
  x ← reshape [b_dim; n_dim; c_dim] x;
  x ← linear "proj" (dim self) (dim self) x;
  mret (dropout (proj_drop self) training x).

End Attention.

Module MemEffAttention.

(** [unbind(qkv, 2)] unpacked into [q, k, v]. *)
Definition unbind2 (qkv : Tensor) : result (Tensor * Tensor * Tensor) :=
  match shape qkv with
  | d0 :: d1 :: 3 :: rest =>
      let part i := mkTensor (d0 :: d1 :: rest) (Op "unbind" [AInt 2; AInt i] [data qkv]) in
      Ok (part 0, part 1, part 2)
  | _ => Raise ValueError
  end.

(** [memory_efficient_attention(q, k, v, attn_bias=attn_bias)] of xFormers
    on [B, N, H, K] tensors: the output has the shape of [q]; a
    block-diagonal mask asks for a single packed sequence whose length is
    the sum of the block lengths. *)
Definition memory_efficient_attention (q k v : Tensor)
    (attn_bias : option BlockDiagonalMask) : result Tensor :=
  match shape q with
  | [b; n; h; d] =>
      if negb (bool_decide (shape k = shape q) && bool_decide (shape v = shape q))
      then Raise ValueError
      else
        let out bias_attrs :=
          mkTensor (shape q) (Op "memory_efficient_attention" bias_attrs
                                 [data q; data k; data v]) in
        match attn_bias with
        | None => Ok (out [])
        | Some bias =>
            if (b =? 1) && (n =? foldr Z.add 0 (seqlens bias))
            then Ok (out (AInt <$> seqlens bias))
            else Raise ValueError
        end
  | _ => Raise ValueError
  end.

(** [MemEffAttention.forward] *)
Definition forward (XFORMERS_AVAILABLE : bool) (self : Attention.t) (training : bool)
    (x : Tensor) (attn_bias : option BlockDiagonalMask) : result Tensor :=
  if negb XFORMERS_AVAILABLE then
    match attn_bias with
    | Some _ => Raise AssertionError
    | None => Attention.forward self training x
    end
  else
    '(b_dim, n_dim, c_dim) ← unpack3 x;
    qkv ← linear "qkv" (Attention.dim self) (Attention.dim self * 3) x;
    hd ← floordiv c_dim (Attention.num_heads self);
    qkv ← reshape [b_dim; n_dim; 3; Attention.num_heads self; hd] qkv;
    '(q, k, v) ← unbind2 qkv;
    x ← memory_efficient_attention q k v attn_bias;
    x ← reshape [b_dim; n_dim; c_dim] x;
    x ← linear "proj" (Attention.dim self) (Attention.dim self) x;
    mret (dropout (Attention.proj_drop self) training x).

End MemEffAttention.

(* ===================================================================== *)
(** ** Block                                                              *)
(* ===================================================================== *)

(** The classes a block is assembled from. *)
Inductive attn_class := AttentionClass | MemEffAttentionClass.
Inductive ffn_class := MlpClass | SwiGLUFFNFusedClass.
Inductive ffn := FfnMlp (m : Mlp.t) | FfnSwiGLU (m : SwiGLUFFN.t).

Module Block.

Record t := mk {
  dim : Z;
  attn : Attention.t;
  attn_cls : attn_class;
  (** [ls1] and [ls2]: a [LayerScale] when [init_values] is true-ish, the
      identity otherwise *)
  layer_scale : bool;
  mlp : ffn;
  sample_drop_ratio : float;
}.

(** [Block.__init__] *)
Definition init (dim num_heads : Z) (mlp_ratio : float) (drop attn_drop : float)
    (init_values : option float) (drop_path : float)
    (attn_cls : attn_class) (ffn_layer : ffn_class) : result t :=
  attn ← Attention.init dim num_heads attn_drop drop;
  mlp_hidden_dim ← int_of_float (float_of_int dim * mlp_ratio);
  mlp ← match ffn_layer with
        | MlpClass => Ok (FfnMlp (Mlp.init dim (Some mlp_hidden_dim) None drop))
        | SwiGLUFFNFusedClass =>
            FfnSwiGLU <$> SwiGLUFFN.init_fused dim (Some mlp_hidden_dim) None
        end;
  let layer_scale := match init_values with
                     | Some v => float_truthy v
                     | None => false
                     end in
  mret (mk dim attn attn_cls layer_scale mlp drop_path).

(** [LayerScale.forward]: [x * self.gamma]. *)
Definition LayerScale_forward (name : string) (dim : Z) (x : Tensor) : result Tensor :=
  mul x (mkTensor [dim] (Param name)).

Definition ls (self : t) (name : string) (x : Tensor) : result Tensor :=
  if layer_scale self then LayerScale_forward name (dim self) x else Ok x.

Definition attn_forward (XFORMERS_AVAILABLE : bool) (self : t) (training : bool)
    (x : Tensor) : result Tensor :=
  match attn_cls self with
  | AttentionClass => Attention.forward (attn self) training x
  | MemEffAttentionClass =>
      MemEffAttention.forward XFORMERS_AVAILABLE (attn self) training x None
  end.

Definition mlp_forward (self : t) (training : bool) (x : Tensor) : result Tensor :=
  match mlp self with
  | FfnMlp m => Mlp.forward m training x
  | FfnSwiGLU m => SwiGLUFFN.forward m x
  end.

(** [attn_residual_func]: [self.ls1(self.attn(self.norm1(x)))] *)
Definition attn_residual_func (XFORMERS_AVAILABLE : bool) (self : t) (training : bool)
    (x : Tensor) : result Tensor :=
  x ← layer_norm "norm1" (dim self) x;
  x ← attn_forward XFORMERS_AVAILABLE self training x;
  ls self "ls1.gamma" x.

(** [ffn_residual_func]: [self.ls2(self.mlp(self.norm2(x)))] *)
Definition ffn_residual_func (self : t) (training : bool) (x : Tensor) : result Tensor :=
  x ← layer_norm "norm2" (dim self) x;
  x ← mlp_forward self training x;
  ls self "ls2.gamma" x.

(** [Block.forward] *)
Definition forward `{Generator G} (XFORMERS_AVAILABLE : bool) (self : t)
    (training : bool) (x : Tensor) : M G Tensor :=
  Block_forward_with training (sample_drop_ratio self)
    (λ x, lift (attn_residual_func XFORMERS_AVAILABLE self training x))
    (λ x, lift (ffn_residual_func self training x))
    x.

End Block.

(* ===================================================================== *)
(** ** The block stack and its chunks                                     *)
(* ===================================================================== *)

(** The blocks of a [VisionTransformer], over any kind of tensor [T] and any
    kind of block [B] with its forward pass [run]. *)
Section BlockStack.
Context {T B G : Type} (run : B → T → M G T).

(** A member of a [BlockChunk]: a block or an [nn.Identity()] placeholder. *)
Inductive module :=
| Identity
| Blk (b : B).

Definition module_forward (m : module) (x : T) : M G T :=
  match m with
  | Identity => mret x
  | Blk b => run b x
  end.

(** [BlockChunk.forward] *)
Fixpoint BlockChunk_forward (self : list module) (x : T) : M G T :=
  match self with
  | [] => mret x
  | b :: rest => x ← module_forward b x; BlockChunk_forward rest x
  end.

(** [self.blocks]: a list of [BlockChunk]s when [self.chunked_blocks], the
    list of blocks otherwise. *)
Inductive blocks :=
| ChunkedBlocks (chunks : list (list module))
| FlatBlocks (blocks_list : list B).

(** The chunk that starts at block [i]:
    [[nn.Identity()] * i + blocks_list[i : i + chunksize]] *)
Definition make_chunk (blocks_list : list B) (chunksize i : Z) : list module :=
  replicate (Z.to_nat i) Identity
  ++ (Blk <$> take (Z.to_nat chunksize) (drop (Z.to_nat i) blocks_list)).

(** The end of [VisionTransformer.__init__], from [if block_chunks > 0]. *)
Definition chunk_blocks (depth : nat) (block_chunks : Z) (blocks_list : list B)
  : result blocks :=
  if 0 <? block_chunks then
    chunksize ← floordiv (Z.of_nat depth) block_chunks;
    starts ← range3 0 (Z.of_nat depth) chunksize;
    (* this is to keep the block index consistent if we chunk the block list *)
    mret (ChunkedBlocks (make_chunk blocks_list chunksize <$> starts))
  else
    Ok (FlatBlocks blocks_list).

(** [for blk in self.blocks: x = blk(x)] *)
Fixpoint forward_flat (bs : list B) (x : T) : M G T :=
  match bs with
  | [] => mret x
  | blk :: rest => x ← run blk x; forward_flat rest x
  end.

Fixpoint forward_chunks (chunks : list (list module)) (x : T) : M G T :=
  match chunks with
  | [] => mret x
  | chunk :: rest => x ← BlockChunk_forward chunk x; forward_chunks rest x
  end.

Definition forward_blocks (self : blocks) (x : T) : M G T :=
  match self with
  | ChunkedBlocks chunks => forward_chunks chunks x
  | FlatBlocks bs => forward_flat bs x
  end.

(** The layers to take: the [n] last ones, or a sequence of indices. *)
Inductive layers :=
| LastN (n : Z)
| Layers (l : list Z).

(** [blocks_to_take]: its membership test and its length.
<<
    blocks_to_take = (
        range(total_block_len - n, total_block_len) if isinstance(n, int) else n
    )
>> *)
Definition blocks_to_take (total_block_len : Z) (n : layers) : (Z → bool) * Z :=
  match n with
  | LastN n =>
      (λ i, (total_block_len - n <=? i) && (i <? total_block_len), Z.max 0 n)
  | Layers l => (λ i, bool_decide (i ∈ l), Z.of_nat (length l))
  end.

(** [for i, blk in enumerate(self.blocks)] *)
Fixpoint enumerate_loop (take_ : Z → bool) (bs : list B) (i : Z) (x : T)
    (output : list T) : M G (T * list T) :=
  match bs with
  | [] => mret (x, output)
  | blk :: rest =>
      x ← run blk x;
      let output := if take_ i then output ++ [x] else output in
      enumerate_loop take_ rest (i + 1) x output
  end.

(** [_get_intermediate_layers_not_chunked], after
    [x = self.prepare_tokens_with_masks(x)] *)
Definition _get_intermediate_layers_not_chunked (bs : list B) (x : T) (n : layers)
  : M G (list T) :=
  let total_block_len := Z.of_nat (length bs) in
  let '(take_, len) := blocks_to_take total_block_len n in
  '(_, output) ← enumerate_loop take_ bs 0 x [];
  _ ← lift (assert (Z.of_nat (length output) =? len));
  mret output.

(** [for blk in block_chunk[i:]], with the counter [i] *)
Fixpoint chunk_loop (take_ : Z → bool) (ms : list module) (i : Z) (x : T)
    (output : list T) : M G (T * list T * Z) :=
  match ms with
  | [] => mret (x, output, i)
  | blk :: rest =>
      x ← module_forward blk x;
      let output := if take_ i then output ++ [x] else output in
      chunk_loop take_ rest (i + 1) x output
  end.

(** [for block_chunk in self.blocks] *)
Fixpoint chunks_loop (take_ : Z → bool) (chunks : list (list module)) (i : Z) (x : T)
    (output : list T) : M G (T * list T) :=
  match chunks with
  | [] => mret (x, output)
  | block_chunk :: rest =>
      (* Passing the nn.Identity() *)
      '(x, output, i) ← chunk_loop take_ (drop (Z.to_nat i) block_chunk) i x output;
      chunks_loop take_ rest i x output
  end.

(** [_get_intermediate_layers_chunked], after
    [x = self.prepare_tokens_with_masks(x)] *)
Definition _get_intermediate_layers_chunked (chunks : list (list module)) (x : T)
    (n : layers) : M G (list T) :=
  total_block_len ← lift (match last chunks with
                          | Some c => Ok (Z.of_nat (length c))
                          | None => Raise IndexError
                          end);
  let '(take_, len) := blocks_to_take total_block_len n in
  '(_, output) ← chunks_loop take_ chunks 0 x [];
  _ ← lift (assert (Z.of_nat (length output) =? len));
  mret output.

End BlockStack.

Arguments module : clear implicits.
Arguments blocks : clear implicits.
Arguments Identity {B}.
Arguments Blk {B} b.
Arguments ChunkedBlocks {B} chunks.
Arguments FlatBlocks {B} blocks_list.

(* ===================================================================== *)
(** ** VisionTransformer                                                  *)
(* ===================================================================== *)

(** [torch.where(cond, a, b)]: the three shapes are broadcast. *)
Definition where_ (cond a b : Tensor) : result Tensor :=
  s ← broadcast (shape cond) (shape a);
  s ← broadcast s (shape b);
  mret (mkTensor s (Op "where" [] [data cond; data a; data b])).

(** [int(math.sqrt(n))] for an int [n]: the integer square root (the
    binary64 square root of an int below [2^52] truncates to it); a negative
    [n] raises. *)
Definition int_sqrt (n : Z) : result Z :=
  if n <? 0 then Raise ValueError else Ok (Z.sqrt n).

(** [torch.linspace(start, end, steps)], entry by entry.  PyTorch computes
    the entries in single precision; the binary64 values below are the same
    when [start = end], the only case the presets use. *)
Definition linspace (start end_ : float) (steps : nat) : list float :=
  let step := ((end_ - start) / float_of_int (Z.of_nat steps - 1))%float in
  (λ i : nat,
     if (start =? end_)%float then start
     else if (2 * i <? steps)%nat then (start + float_of_int (Z.of_nat i) * step)%float
     else (end_ - float_of_int (Z.of_nat (steps - 1 - i)) * step)%float)
  <$> seq 0 steps.

Module VisionTransformer.

(** The keyword arguments of [VisionTransformer.__init__]; [attn_cls] is the
    attention class bound into [block_fn]. *)
Record args := mkArgs {
  img_size : int_or_tuple;
  patch_size : int_or_tuple;
  in_chans : Z;
  embed_dim : Z;
  depth : nat;
  num_heads : Z;
  mlp_ratio : float;
  drop_path_rate : float;
  drop_path_uniform : bool;
  init_values : option float;
  attn_cls : attn_class;
  ffn_layer : string;
  block_chunks : Z;
  num_register_tokens : Z;
  interpolate_antialias : bool;
  interpolate_offset : float;
}.

(** The defaults of the signature. *)
Definition defaults : args := {|
  img_size := IInt 224;
  patch_size := IInt 16;
  in_chans := 3;
  embed_dim := 768;
  depth := 12;
  num_heads := 12;
  mlp_ratio := 4;
  drop_path_rate := 0;
  drop_path_uniform := false;
  init_values := None;
  attn_cls := AttentionClass;
  ffn_layer := "mlp";
  block_chunks := 1;
  num_register_tokens := 0;
  interpolate_antialias := false;
  interpolate_offset := 0.1;
|}.

Record t := mk {
  self_embed_dim : Z;
  n_blocks : nat;
  self_patch_size : int_or_tuple;
  self_num_register_tokens : Z;
  self_interpolate_antialias : bool;
  self_interpolate_offset : float;
  patch_embed : PatchEmbed.t;
  cls_token : Tensor;
  pos_embed : Tensor;
  register_tokens : option Tensor;
  mask_token : Tensor;
  chunked_blocks : bool;
  self_blocks : blocks Block.t;
}.

(** [nn.Parameter(torch.zeros(shape))]: a negative size is refused. *)
Definition parameter (name : string) (shape : list Z) : result Tensor :=
  if forallb (λ d, 0 <=? d) shape then Ok (mkTensor shape (Param name))
  else Raise RuntimeError.

(** [VisionTransformer.__init__] *)
Definition init (a : args) : result t :=
  patch_embed ← PatchEmbed.init (img_size a) (patch_size a) (in_chans a) (embed_dim a)
                                false true;
  let num_patches := PatchEmbed.num_patches patch_embed in
  cls_token ← parameter "cls_token" [1; 1; embed_dim a];
  pos_embed ← parameter "pos_embed" [1; num_patches + 1; embed_dim a];
  _ ← assert (0 <=? num_register_tokens a);
  register_tokens ←
    (if num_register_tokens a =? 0 then Ok None
     else Some <$> parameter "register_tokens" [1; num_register_tokens a; embed_dim a]);
  let dpr :=
    if drop_path_uniform a then replicate (depth a) (drop_path_rate a)
    else linspace 0 (drop_path_rate a) (depth a) (* stochastic depth decay rule *) in
  ffn_layer ←
    (if String.eqb (ffn_layer a) "mlp" then Ok MlpClass
     else if String.eqb (ffn_layer a) "swiglufused" || String.eqb (ffn_layer a) "swiglu"
     then Ok SwiGLUFFNFusedClass
     else Raise NotImplementedError);
  blocks_list ←
    mapM (M := result)
         (λ drop_path, Block.init (embed_dim a) (num_heads a) (mlp_ratio a) 0 0
                                  (init_values a) drop_path (attn_cls a) ffn_layer)
         dpr;
  blocks ← chunk_blocks (depth a) (block_chunks a) blocks_list;
  mask_token ← parameter "mask_token" [1; embed_dim a];
  mret (mk (embed_dim a) (depth a) (patch_size a) (num_register_tokens a)
           (interpolate_antialias a) (interpolate_offset a)
           patch_embed cls_token pos_embed register_tokens mask_token
           (bool_decide (0 < block_chunks a)) blocks).

(** [w // self.patch_size]: [self.patch_size] is the argument as it was
    given, and a tuple does not divide. *)
Definition div_patch_size (self : t) (w : Z) : result Z :=
  match self_patch_size self with
  | IInt p => floordiv w p
  | ITuple _ => Raise TypeError
  end.

(** [VisionTransformer.interpolate_pos_encoding] *)
Definition interpolate_pos_encoding (self : t) (x : Tensor) (w h : Z) : result Tensor :=
  s1 ← size (shape x) 1;
  let npatch := s1 - 1 in
  p1 ← size (shape (pos_embed self)) 1;
  let num_patches := p1 - 1 in
  if (npatch =? num_patches) && (w =? h) then Ok (pos_embed self)
  else
    let pos_embed := pointwise "float" [] (pos_embed self) in
    class_pos_embed ← select1 0 pos_embed;
    patch_pos_embed ← slice1 1 None pos_embed;
    dim ← match last (shape x) with Some d => Ok d | None => Raise IndexError end;
    w0 ← div_patch_size self w;
    h0 ← div_patch_size self h;
    (* Recover the number of patches in each dimension *)
    num_patches_dim ← int_sqrt num_patches;
    _ ← assert (num_patches =? num_patches_dim * num_patches_dim);
    kwargs ←
      (if float_truthy (self_interpolate_offset self) then
         if num_patches_dim =? 0 then Raise ZeroDivisionError
         else
           let sx := ((float_of_int w0 + self_interpolate_offset self)
                      / float_of_int num_patches_dim)%float in
           let sy := ((float_of_int h0 + self_interpolate_offset self)
                      / float_of_int num_patches_dim)%float in
           Ok (ScaleFactor sx sy)
       else
         (* Simply specify an output size instead of a scale factor *)
         Ok (Size w0 h0));
    patch_pos_embed ← reshape [1; num_patches_dim; num_patches_dim; dim] patch_pos_embed;
    patch_pos_embed ← permute [0; 3; 1; 2]%nat patch_pos_embed;
    patch_pos_embed ← interpolate kwargs (self_interpolate_antialias self) patch_pos_embed;
    _ ← assert (bool_decide (drop 2 (shape patch_pos_embed) = [w0; h0]));
    patch_pos_embed ← permute [0; 2; 3; 1]%nat patch_pos_embed;
    patch_pos_embed ← reshape [1; -1; dim] patch_pos_embed;
    let class_pos_embed := unsqueeze 0 class_pos_embed in
    class_pos_embed ← class_pos_embed;
    r ← cat 1 [class_pos_embed; patch_pos_embed];
    mret (pointwise "to" [] r).

(** [VisionTransformer.prepare_tokens_with_masks] *)
Definition prepare_tokens_with_masks (self : t) (x : Tensor) (masks : option Tensor)
  : result Tensor :=
  '(w, h) ← match shape x with
            | [_; _; w; h] => Ok (w, h)
            | _ => Raise ValueError
            end;
  x ← PatchEmbed.forward (patch_embed self) x;
  x ← match masks with
      | Some masks =>
          mask_token ← unsqueeze 0 (pointwise "to" [] (mask_token self));
          where_ (unsqueeze_last masks) mask_token x
      | None => Ok x
      end;
  b ← size (shape x) 0;
  cls ← expand0 b (cls_token self);
  x ← cat 1 [cls; x];
  pos ← interpolate_pos_encoding self x w h;
  x ← add x pos;
  match register_tokens self with
  | Some register_tokens =>
      b ← size (shape x) 0;
      first ← slice1 0 (Some 1) x;
      registers ← expand0 b register_tokens;
      rest ← slice1 1 None x;
      cat 1 [first; registers; rest]
  | None => Ok x
  end.

(** The record [forward_features] returns. *)
Record features := mkFeatures {
  x_norm_1st_clstoken : Tensor;
  x_norm_2nd_clstoken : Tensor;
  x_norm_patchtokens : Tensor;
  x_prenorm : Tensor;
  masks : option Tensor;
}.

(** [VisionTransformer.forward_features] on a tensor. *)
Definition forward_features `{Generator G} (XFORMERS_AVAILABLE : bool) (self : t)
    (training : bool) (x : Tensor) (masks : option Tensor) : M G features :=
  x ← lift (prepare_tokens_with_masks self x masks);
  x ← forward_blocks (λ blk, Block.forward XFORMERS_AVAILABLE blk training)
                     (self_blocks self) x;
  lift (
    x_norm ← layer_norm "norm" (self_embed_dim self) x;
    c1 ← slice1 0 (Some 1) x_norm;
    c2 ← slice1 1 (Some (self_num_register_tokens self + 1)) x_norm;
    pt ← slice1 (self_num_register_tokens self + 1) None x_norm;
    mret (mkFeatures c1 c2 pt x masks)).

(** What [forward] returns: the record in training, a 3-tuple otherwise. *)
Inductive output :=
| Ret (ret : features)
| Tuple3 (cls_token second_token patch_tokens : Tensor).

(** [VisionTransformer.forward]; [self.head] is [nn.Identity()]. *)
Definition forward `{Generator G} (XFORMERS_AVAILABLE : bool) (self : t)
    (training : bool) (x : Tensor) (masks : option Tensor) (is_training : bool)
  : M G output :=
  ret ← forward_features XFORMERS_AVAILABLE self training x masks;
  if is_training then mret (Ret ret)
  else mret (Tuple3 (x_norm_1st_clstoken ret) (x_norm_2nd_clstoken ret)
                    (x_norm_patchtokens ret)).

(** [get_intermediate_layers], up to the choice of loop:
    [self._get_intermediate_layers_chunked] when [self.chunked_blocks]. *)
Definition intermediate_layers `{Generator G} (XFORMERS_AVAILABLE : bool) (self : t)
    (training : bool) (x : Tensor) (n : layers) : M G (list Tensor) :=
  x ← lift (prepare_tokens_with_masks self x None);
  let run blk := Block.forward XFORMERS_AVAILABLE blk training in
  match self_blocks self with
  | ChunkedBlocks chunks => _get_intermediate_layers_chunked run chunks x n
  | FlatBlocks bs => _get_intermediate_layers_not_chunked run bs x n
  end.

End VisionTransformer.

(** [vit_small(patch_size=14, **kwargs)]: [kwargs] carries the arguments
    the preset leaves open. *)
Definition vit_small (patch_size : int_or_tuple) (kwargs : VisionTransformer.args)
  : result VisionTransformer.t :=
  VisionTransformer.init
    (VisionTransformer.mkArgs
       (VisionTransformer.img_size kwargs) patch_size
       (VisionTransformer.in_chans kwargs) 384 12 6 4
       (VisionTransformer.drop_path_rate kwargs)
       (VisionTransformer.drop_path_uniform kwargs)
       (VisionTransformer.init_values kwargs)
       MemEffAttentionClass
       (VisionTransformer.ffn_layer kwargs)
       (VisionTransformer.block_chunks kwargs)
       1
       (VisionTransformer.interpolate_antialias kwargs)
       (VisionTransformer.interpolate_offset kwargs)).

(* ===================================================================== *)
(** ** A generator to run examples with                                   *)
(* ===================================================================== *)

(** The generator without state that arranges a batch in its own order and
    keeps every sample: a lawful generator. *)
Definition ordered_generator : Generator unit := {|
  randperm b g := (seq 0 (Z.to_nat b), g);
  bernoulli p n g := (replicate n true, g);
|}.

(* ===================================================================== *)
(** ** Shapes of results                                                  *)
(* ===================================================================== *)

(** [returns r s]: the computation [r] returns a tensor of shape [s]. *)
Definition returns (r : result Tensor) (s : list Z) : Prop :=
  ∃ y, r = Ok y ∧ shape y = s.

(** [returns_in m g s]: from the generator state [g], the forward pass [m]
    returns a tensor of shape [s] and leaves the generator as it was. *)
Definition returns_in {G} (m : M G Tensor) (g : G) (s : list Z) : Prop :=
  ∃ y, m g = Ok (y, g) ∧ shape y = s.

(** The blocks of the presets: a plain MLP that maps the width back to
    itself, heads that divide the width, and any layer scale. *)
Definition plain_block (blk : Block.t) (hd : Z) : Prop :=
  0 ≤ hd ∧ 0 < Attention.num_heads (Block.attn blk) ∧
  Attention.dim (Block.attn blk) = Block.dim blk ∧
  Block.dim blk = Attention.num_heads (Block.attn blk) * hd ∧
  ∃ m, Block.mlp blk = FfnMlp m ∧
       Mlp.in_features m = Block.dim blk ∧ Mlp.out_features m = Block.dim blk.

(** What [vit_small()] builds with the defaults of the signature: twelve
    copies of one block in a single chunk. *)
Definition vit_small_block : Block.t := {|
  Block.dim := 384;
  Block.attn := Attention.mk 384 6 64 0 0;
  Block.attn_cls := MemEffAttentionClass;
  Block.layer_scale := false;
  Block.mlp := FfnMlp (Mlp.mk 384 1536 384 0);
  Block.sample_drop_ratio := 0;
|}.

Definition vit_small_model : VisionTransformer.t := {|
  VisionTransformer.self_embed_dim := 384;
  VisionTransformer.n_blocks := 12;
  VisionTransformer.self_patch_size := IInt 14;
  VisionTransformer.self_num_register_tokens := 1;
  VisionTransformer.self_interpolate_antialias := false;
  VisionTransformer.self_interpolate_offset := 0.1;
  VisionTransformer.patch_embed :=
    PatchEmbed.mk (224, 224) (14, 14) (16, 16) 256 3 384 true false;
  VisionTransformer.cls_token := mkTensor [1; 1; 384] (Param "cls_token");
  VisionTransformer.pos_embed := mkTensor [1; 257; 384] (Param "pos_embed");
  VisionTransformer.register_tokens :=
    Some (mkTensor [1; 1; 384] (Param "register_tokens"));
  VisionTransformer.mask_token := mkTensor [1; 384] (Param "mask_token");
  VisionTransformer.chunked_blocks := true;
  VisionTransformer.self_blocks := ChunkedBlocks [replicate 12 (Blk vit_small_block)];
|}.

(* ===================================================================== *)
(** ** The attention-bias cache and nested tensors                        *)
(* ===================================================================== *)

(** What [get_attn_bias_and_cat] and [NestedTensorBlock] need of the tensors
    of a nested batch. *)
Class Nestable (T : Type) := {
  (** [x.shape[0]] and [x.shape[1]] *)
  nshape0 : T → result Z;
  nshape1 : T → result Z;
  (** [torch.cat(tuple(x.reshape([1, -1, *x.shape[2:]]) for x in x_list), dim=1)] *)
  cat_packed : list T → result T;
  (** [index_select_cat([x.flatten(1) for x in x_list],
      branges).view(1, -1, x_list[0].shape[-1])] *)
  index_select_cat : list T → list (list nat) → result T;
  (** [attn_bias.split(x)], which splits at the borders of [_batch_sizes] *)
  split : BlockDiagonalMask → T → result (list T);
  (** [scaled_index_add(x, brange, residual, scaling=scaling_vector,
      alpha=alpha)]; the scaling vector is the parameter named [gamma] *)
  scaled_index_add : T → list nat → T → string → float → result T;
}.

(** The key of the cache: a tuple of (batch size, sequence length) pairs. *)
Abbreviation shape_signature := (list (Z * Z)).

(** The module-level dictionary [attn_bias_cache], and the count of the
    masks constructed so far, which names the next one. *)
Record cache_state := mkCache {
  attn_bias_cache : gmap shape_signature BlockDiagonalMask;
  masks_built : nat;
}.

Definition empty_cache : cache_state := mkCache ∅ 0.

Section AttnBiasCache.
Context {T : Type} `{Nestable T}.

(** [batch_sizes] of [get_attn_bias_and_cat] *)
Definition batch_sizes_of (x_list : list T) (branges : option (list (list nat)))
  : result (list Z) :=
  match branges with
  | Some branges => Ok ((λ b : list nat, Z.of_nat (length b)) <$> branges)
  | None => mapM (M := result) nshape0 x_list
  end.

(** [all_shapes = tuple((b, x.shape[1]) for b, x in zip(batch_sizes, x_list))] *)
Definition all_shapes_of (x_list : list T) (branges : option (list (list nat)))
  : result (list Z * shape_signature) :=
  batch_sizes ← batch_sizes_of x_list branges;
  all_shapes ← mapM (M := result) (λ '(b, x), n ← nshape1 x; mret (b, n))
                    (zip batch_sizes x_list);
  mret (batch_sizes, all_shapes).

(** The sequence lengths handed to [BlockDiagonalMask.from_seqlens]:
<<
    for b, x in zip(batch_sizes, x_list):
      for _ in range(b):
        seqlens.append(x.shape[1])
>> *)
Definition seqlens_of (all_shapes : shape_signature) : list Z :=
  '(b, n) ← all_shapes; replicate (Z.to_nat b) n.

(** [get_attn_bias_and_cat(x_list, branges)], from the state of the cache to
    the state of the cache and the outcome.  Without xFormers the name
    [fmha] is unbound. *)
Definition get_attn_bias_and_cat (XFORMERS_AVAILABLE : bool) (st : cache_state)
    (x_list : list T) (branges : option (list (list nat)))
  : cache_state * result (BlockDiagonalMask * T) :=
  match all_shapes_of x_list branges with
  | Raise e => (st, Raise e)
  | Ok (batch_sizes, all_shapes) =>
      let filled :=
        match attn_bias_cache st !! all_shapes with
        | Some _ => Ok st
        | None =>
            if XFORMERS_AVAILABLE then
              let attn_bias := mkMask (masks_built st) (seqlens_of all_shapes) batch_sizes in
              Ok (mkCache (<[all_shapes := attn_bias]> (attn_bias_cache st))
                          (S (masks_built st)))
            else Raise NameError
        end in
      match filled with
      | Raise e => (st, Raise e)
      | Ok st' =>
          let cat_tensors :=
            match branges with
            | Some branges =>
                if XFORMERS_AVAILABLE then index_select_cat x_list branges
                else Raise NameError
            | None => cat_packed x_list
            end in
          (st',
           cat_tensors ← cat_tensors;
           match attn_bias_cache st' !! all_shapes with
           | Some attn_bias => Ok (attn_bias, cat_tensors)
           | None => Raise KeyError
           end)
      end
  end.

(** A run of calls, one after the other on the same cache. *)
Fixpoint get_attn_bias_and_cat_calls (XFORMERS_AVAILABLE : bool) (st : cache_state)
    (calls : list (list T * option (list (list nat)))) : cache_state :=
  match calls with
  | [] => st
  | (x_list, branges) :: calls =>
      get_attn_bias_and_cat_calls XFORMERS_AVAILABLE
        (get_attn_bias_and_cat XFORMERS_AVAILABLE st x_list branges).1 calls
  end.

End AttnBiasCache.

(* ===================================================================== *)
(** ** Concrete models and inputs                                         *)
(* ===================================================================== *)

(** Rows of binary64 numbers. *)
Definition float_rows : RowOps float := {|
  radd := PrimFloat.add;
  rscale := PrimFloat.mul;
|}.

(** A residual branch that returns the batch it is given. *)
Definition echo_branch {G : Type} (x : list float) : M G (list float) := mret x.

(** Small encoders: a reference resolution of 28 x 28, of 28 x 56 (a grid of
    2 x 4 patches) and of 28 x 112 (a grid of 2 x 8 patches), all with
    patches of 14 x 14, a width of 8 and two blocks. *)
Definition tiny_args (img_size : int_or_tuple) : VisionTransformer.args :=
  VisionTransformer.mkArgs img_size (IInt 14) 3 8 2 2 4 0 false None
                           AttentionClass "mlp" 1 0 false 0.1.

Definition tiny_model (h w : Z) : VisionTransformer.t := {|
  VisionTransformer.self_embed_dim := 8;
  VisionTransformer.n_blocks := 2;
  VisionTransformer.self_patch_size := IInt 14;
  VisionTransformer.self_num_register_tokens := 0;
  VisionTransformer.self_interpolate_antialias := false;
  VisionTransformer.self_interpolate_offset := 0.1;
  VisionTransformer.patch_embed :=
    PatchEmbed.mk (h, w) (14, 14) (h / 14, w / 14) (h / 14 * (w / 14)) 3 8 true false;
  VisionTransformer.cls_token := mkTensor [1; 1; 8] (Param "cls_token");
  VisionTransformer.pos_embed :=
    mkTensor [1; h / 14 * (w / 14) + 1; 8] (Param "pos_embed");
  VisionTransformer.register_tokens := None;
  VisionTransformer.mask_token := mkTensor [1; 8] (Param "mask_token");
  VisionTransformer.chunked_blocks := true;
  VisionTransformer.self_blocks :=
    ChunkedBlocks
      [replicate 2 (Blk (Block.mk 8 (Attention.mk 8 2 4 0 0) AttentionClass false
                                  (FfnMlp (Mlp.mk 8 32 8 0)) 0))];
|}.

(** A batch of [b] images of [h] x [w] pixels and 3 channels, and a batch of
    [b] sequences of [n] tokens of width [d]. *)
Definition images (b h w : Z) : Tensor := mkTensor [b; 3; h; w] (Param "images").
Definition tokens (b n d : Z) : Tensor := mkTensor [b; n; d] (Param "tokens").

(** A block stack on integers: the block [k] adds [k]. *)
Definition add_block (k x : Z) : M unit Z := mret (x + k).

(* ===================================================================== *)
(** ** NestedTensorBlock                                                  *)
(* ===================================================================== *)

Section NestedTensorBlock.
Context {T G : Type} `{Batch T} `{Nestable T} `{Generator G}.

(** The sublayers of a block, over any kind of tensor: the two norms, the
    attention with its optional bias, the feed-forward layer, and the two
    layer scales ([None] for [nn.Identity()]). *)
Record NestedTensorBlock := mkNestedTensorBlock {
  nt_norm1 : T → result T;
  nt_attn : T → option BlockDiagonalMask → result T;
  nt_ls1 : option (T → result T);
  nt_norm2 : T → result T;
  nt_mlp : T → result T;
  nt_ls2 : option (T → result T);
  (** [isinstance(self.attn, MemEffAttention)] *)
  nt_attn_is_mem_eff : bool;
  nt_sample_drop_ratio : float;
}.

Definition nt_ls (ls : option (T → result T)) (x : T) : result T :=
  match ls with
  | Some f => f x
  | None => Ok x
  end.

(** [get_branges_scales] *)
Definition get_branges_scales (x : T) (sample_drop_ratio : float)
  : M G (list nat * float) :=
  b ← lift (batch_size x);
  sample_subset_size ← lift (sample_subset_size b sample_drop_ratio);
  perm ← draw (randperm b);
  let brange := take (Z.to_nat sample_subset_size) perm in
  let residual_scale_factor := (float_of_int b / float_of_int sample_subset_size)%float in
  mret (brange, residual_scale_factor).

(** [add_residual(...).view_as(x)] *)
Definition add_residual (x : T) (brange : list nat) (residual : T)
    (residual_scale_factor : float) (scaling_vector : option string) : result T :=
  match scaling_vector with
  | None => index_add x brange residual residual_scale_factor
  | Some gamma => scaled_index_add x brange residual gamma residual_scale_factor
  end.

(** [drop_add_residual_stochastic_depth_list] *)
Definition drop_add_residual_stochastic_depth_list (XFORMERS_AVAILABLE : bool)
    (st : cache_state) (x_list : list T)
    (residual_func : T → option BlockDiagonalMask → result T)
    (sample_drop_ratio : float) (scaling_vector : option string) (g : G)
  : cache_state * result (list T * G) :=
  (* 1) generate random set of indices for dropping samples in the batch. *)
  match mapM (M := M G) (λ x, get_branges_scales x sample_drop_ratio) x_list g with
  | Raise e => (st, Raise e)
  | Ok (branges_scales, g) =>
      let branges := fst <$> branges_scales in
      let residual_scale_factors := snd <$> branges_scales in
      (* 2) get attention bias and index+concat the tensors. *)
      let '(st, r) := get_attn_bias_and_cat XFORMERS_AVAILABLE st x_list (Some branges) in
      (st,
       '(attn_bias, x_cat) ← r;
       (* 3) apply residual_func to get residual, and split the result. *)
       residual ← residual_func x_cat (Some attn_bias);
       residual_list ← split attn_bias residual;
       outputs ← mapM (M := result)
                      (λ '(x, (brange, (residual, residual_scale_factor))),
                         add_residual x brange residual residual_scale_factor
                                      scaling_vector)
                      (zip x_list (zip branges (zip residual_list residual_scale_factors)));
       mret (outputs, g))
  end.

(** [NestedTensorBlock.forward_nested] *)
Definition forward_nested (XFORMERS_AVAILABLE : bool) (self : NestedTensorBlock)
    (training : bool) (st : cache_state) (x_list : list T) (g : G)
  : cache_state * result (list T * G) :=
  if negb (nt_attn_is_mem_eff self) then (st, Raise AssertionError)
  else if training && (0 <? nt_sample_drop_ratio self)%float then
    let attn_residual_func x attn_bias :=
      x ← nt_norm1 self x; nt_attn self x attn_bias in
    let ffn_residual_func x (attn_bias : option BlockDiagonalMask) :=
      x ← nt_norm2 self x; nt_mlp self x in
    let gamma (name : string) :=
      match nt_ls1 self with Some _ => Some name | None => None end in
    match drop_add_residual_stochastic_depth_list XFORMERS_AVAILABLE st x_list
            attn_residual_func (nt_sample_drop_ratio self) (gamma "ls1.gamma") g with
    | (st, Raise e) => (st, Raise e)
    | (st, Ok (x_list, g)) =>
        drop_add_residual_stochastic_depth_list XFORMERS_AVAILABLE st x_list
          ffn_residual_func (nt_sample_drop_ratio self) (gamma "ls2.gamma") g
    end
  else
    let attn_residual_func x attn_bias :=
      x ← nt_norm1 self x; x ← nt_attn self x attn_bias; nt_ls (nt_ls1 self) x in
    let ffn_residual_func x :=
      x ← nt_norm2 self x; x ← nt_mlp self x; nt_ls (nt_ls2 self) x in
    let '(st, r) := get_attn_bias_and_cat XFORMERS_AVAILABLE st x_list None in
    (st,
     '(attn_bias, x) ← r;
     a ← attn_residual_func x (Some attn_bias);
     x ← tadd x a;
     f ← ffn_residual_func x;
     x ← tadd x f;
     ys ← split attn_bias x;
     mret (ys, g)).

(** [Block.forward] of the parent class, on the sublayers of this block. *)
Definition NestedTensorBlock_forward_tensor (self : NestedTensorBlock)
    (training : bool) (x : T) : M G T :=
  Block_forward_with training (nt_sample_drop_ratio self)
    (λ x, lift (x ← nt_norm1 self x; x ← nt_attn self x None; nt_ls (nt_ls1 self) x))
    (λ x, lift (x ← nt_norm2 self x; x ← nt_mlp self x; nt_ls (nt_ls2 self) x))
    x.

(** The argument of [NestedTensorBlock.forward]: a tensor, a list of
    tensors, or something else. *)
Inductive nested_arg :=
| ATensor (x : T)
| AList (x_list : list T)
| AOther.

Inductive nested_ret :=
| RTensor (x : T)
| RList (x_list : list T).

(** [NestedTensorBlock.forward] *)
Definition NestedTensorBlock_forward (XFORMERS_AVAILABLE : bool)
    (self : NestedTensorBlock) (training : bool) (st : cache_state)
    (x : nested_arg) (g : G) : cache_state * result (nested_ret * G) :=
  match x with
  | ATensor x =>
      (st, '(y, g) ← NestedTensorBlock_forward_tensor self training x g;
           mret (RTensor y, g))
  | AList x_list =>
      if negb XFORMERS_AVAILABLE then (st, Raise AssertionError)
      else
        let '(st, r) := forward_nested XFORMERS_AVAILABLE self training st x_list g in
        (st, '(ys, g) ← r; mret (RList ys, g))
  | AOther => (st, Raise AssertionError)
  end.

End NestedTensorBlock.

Arguments NestedTensorBlock : clear implicits.
Arguments nested_arg : clear implicits.
Arguments nested_ret : clear implicits.

(* ===================================================================== *)
(** ** Nested tensors of tokens                                           *)
(* ===================================================================== *)

(** A tensor [b, n, d] as [b] samples of [n] tokens; a token (its [d]
    entries) is added to another, multiplied by a scalar and scaled entry by
    entry by a named parameter vector; the arithmetic stays abstract. *)
Class TokOps (Tok : Type) := {
  tok_add : Tok → Tok → Tok;
  tok_scale : float → Tok → Tok;
  tok_gamma : string → Tok → Tok;
}.

Record TokTensor (Tok : Type) := mkTok {
  seq_len : nat;
  samples : list (list Tok);
}.
Arguments mkTok {Tok} seq_len samples.
Arguments seq_len {Tok} t.
Arguments samples {Tok} t.

Section TokenTensors.
Context {Tok : Type} `{TokOps Tok}.

(** Every sample has [seq_len] tokens. *)
Definition tok_wf (x : TokTensor Tok) : Prop :=
  Forall (λ s, length s = seq_len x) (samples x).

#[global] Instance token_rows : RowOps (list Tok) := {|
  radd := zip_with tok_add;
  rscale f := fmap (tok_scale f);
|}.

(** The batch operations act on the samples; the token axes of the two
    operands of [x + y] and of [index_add] must agree (a block never
    broadcasts along the token axis). *)
Definition tok_same_len (x y : TokTensor Tok) : result unit :=
  if decide (seq_len x = seq_len y) then Ok tt else Raise RuntimeError.

#[global] Instance token_batch : Batch (TokTensor Tok) := {
  batch_size x := Ok (Z.of_nat (length (samples x)));
  tadd x y :=
    _ ← tok_same_len x y;
    s ← rows_add (samples x) (samples y); mret (mkTok (seq_len x) s);
  index_select brange x :=
    s ← rows_select brange (samples x); mret (mkTok (seq_len x) s);
  index_add x brange residual alpha :=
    _ ← tok_same_len x residual;
    s ← rows_index_add (samples x) brange (samples residual) alpha;
    mret (mkTok (seq_len x) s);
  scale_samples factors x :=
    s ← rows_scale factors (samples x); mret (mkTok (seq_len x) s);
  shape0 x := Ok (Z.of_nat (length (samples x)));
}.

(** A single sequence that holds the given tokens: a tensor [1, n, d]. *)
Definition packed (toks : list Tok) : TokTensor Tok := mkTok (length toks) [toks].

(** The sizes of the chunks [attn_bias.split] cuts, one per batch size: the
    chunk of a batch size [bs] spans the next [bs] blocks of the mask. *)
Fixpoint split_chunks (seqlens : list Z) (batch_sizes : list Z) : result (list nat) :=
  match batch_sizes with
  | [] => Ok []
  | bs :: batch_sizes =>
      if decide (Z.to_nat bs ≤ length seqlens)%nat then
        rest ← split_chunks (drop (Z.to_nat bs) seqlens) batch_sizes;
        mret (Z.to_nat (foldr Z.add 0 (take (Z.to_nat bs) seqlens)) :: rest)
      else Raise IndexError
  end.

(** [chunk.reshape([bs, -1, d])] *)
Definition reshape_chunk (bs : Z) (chunk : list Tok) : result (TokTensor Tok) :=
  if (bs <=? 0) || negb (Z.of_nat (length chunk) mod bs =? 0) then Raise RuntimeError
  else
    let n := (length chunk / Z.to_nat bs)%nat in
    Ok (mkTok n (list.reshape (replicate (Z.to_nat bs) n) chunk)).

(** Modelled from the spec: [BlockDiagonalMask.split] of xFormers, which is
    not part of the sources, 'splits the result back into per-sample outputs
    using the same boundaries': it takes a packed tensor [1, total, d] whose
    length is the sum of the block lengths, cuts it at the borders of
    [_batch_sizes] and gives each chunk back its batch axis. *)
Definition tok_split (attn_bias : BlockDiagonalMask) (x : TokTensor Tok)
  : result (list (TokTensor Tok)) :=
  match samples x with
  | [toks] =>
      if decide (foldr Z.add 0 (seqlens attn_bias) = Z.of_nat (length toks)) then
        chunks ← split_chunks (seqlens attn_bias) (_batch_sizes attn_bias);
        if decide (sum_list chunks = length toks) then
          mapM (M := result) (λ '(bs, chunk), reshape_chunk bs chunk)
               (zip (_batch_sizes attn_bias) (list.reshape chunks toks))
        else Raise RuntimeError
      else Raise ValueError
  | _ => Raise ValueError
  end.

(** The nested-tensor operations on tensors of tokens.  Packing puts the
    samples of all the tensors one after the other; [index_select_cat] and
    [scaled_index_add] of xFormers select the samples of each tensor and add
    the residuals scaled by [gamma]. *)
#[global] Instance token_nestable : Nestable (TokTensor Tok) := {
  nshape0 x := Ok (Z.of_nat (length (samples x)));
  nshape1 x := Ok (Z.of_nat (seq_len x));
  cat_packed x_list :=
    match x_list with
    | [] => Raise RuntimeError
    | _ => Ok (packed (mjoin (x ← x_list; samples x)))
    end;
  index_select_cat x_list branges :=
    if decide (length x_list = length branges) then
      rows ← mapM (M := result) (λ '(x, brange), rows_select brange (samples x))
                  (zip x_list branges);
      mret (packed (mjoin (mjoin rows)))
    else Raise ValueError;
  split := tok_split;
  scaled_index_add x brange residual gamma alpha :=
    index_add x brange
              (mkTok (seq_len residual) ((λ s : list Tok, tok_gamma gamma <$> s) <$> samples residual))
              alpha;
}.

(** The sublayers of a block on tokens: the norms, the feed-forward layer
    and the layer scales act on each token; [tb_attend s q] is the output of
    self-attention for the token [q] of the sequence [s]. *)
Record token_block := mkTokenBlock {
  tb_norm1 : Tok → Tok;
  tb_attend : list Tok → Tok → Tok;
  tb_ls1 : option (Tok → Tok);
  tb_norm2 : Tok → Tok;
  tb_mlp : Tok → Tok;
  tb_ls2 : option (Tok → Tok);
  tb_sample_drop_ratio : float;
}.

Definition tok_map (f : Tok → Tok) (x : TokTensor Tok) : TokTensor Tok :=
  mkTok (seq_len x) ((λ s : list Tok, f <$> s) <$> samples x).

(** Self-attention of one sequence. *)
Definition attend_sequence (attend : list Tok → Tok → Tok) (s : list Tok) : list Tok :=
  attend s <$> s.

(** Attention without a bias: every sample attends within itself. *)
Definition attention_plain (attend : list Tok → Tok → Tok) (x : TokTensor Tok)
  : TokTensor Tok :=
  mkTok (seq_len x) (attend_sequence attend <$> samples x).

(** Modelled from the spec: [memory_efficient_attention] of xFormers under a
    [BlockDiagonalMask], which is not part of the sources, is given 'a
    block-diagonal attention bias so that tokens only attend within their
    own original sample': it takes a packed tensor [1, total, d] whose
    length is the sum of the block lengths, and every block attends within
    itself, as a sequence on its own does without a bias. *)
Definition attention_block_diagonal (attend : list Tok → Tok → Tok)
    (attn_bias : BlockDiagonalMask) (x : TokTensor Tok) : result (TokTensor Tok) :=
  match samples x with
  | [toks] =>
      if decide (foldr Z.add 0 (seqlens attn_bias) = Z.of_nat (length toks)) then
        Ok (mkTok (seq_len x)
              [mjoin (attend_sequence attend
                        <$> list.reshape (Z.to_nat <$> seqlens attn_bias) toks)])
      else Raise ValueError
  | _ => Raise ValueError
  end.

(** The block of the given sublayers, with [MemEffAttention]. *)
Definition token_nested_block (tb : token_block) : NestedTensorBlock (TokTensor Tok) := {|
  nt_norm1 x := Ok (tok_map (tb_norm1 tb) x);
  nt_attn x attn_bias :=
    match attn_bias with
    | None => Ok (attention_plain (tb_attend tb) x)
    | Some attn_bias => attention_block_diagonal (tb_attend tb) attn_bias x
    end;
  nt_ls1 := (λ f x, Ok (tok_map f x)) <$> tb_ls1 tb;
  nt_norm2 x := Ok (tok_map (tb_norm2 tb) x);
  nt_mlp x := Ok (tok_map (tb_mlp tb) x);
  nt_ls2 := (λ f x, Ok (tok_map f x)) <$> tb_ls2 tb;
  nt_attn_is_mem_eff := true;
  nt_sample_drop_ratio := tb_sample_drop_ratio tb;
|}.

(** A layer scale, or the identity in its place, on one token. *)
Definition ls_token (ls : option (Tok → Tok)) (t : Tok) : Tok :=
  match ls with Some f => f t | None => t end.

(** The attention branch and the feed-forward branch on one sequence. *)
Definition attn_branch (tb : token_block) (s : list Tok) : list Tok :=
  ls_token (tb_ls1 tb) <$> attend_sequence (tb_attend tb) (tb_norm1 tb <$> s).
Definition ffn_branch (tb : token_block) (s : list Tok) : list Tok :=
  (λ t, ls_token (tb_ls2 tb) (tb_mlp tb (tb_norm2 tb t))) <$> s.

(** What the block does to one sequence in eval mode, in the words of the
    specification: attention within the sequence and its residual, then the
    feed-forward layer and its residual. *)
Definition sample_forward (tb : token_block) (s : list Tok) : list Tok :=
  let s1 := zip_with tok_add s (attn_branch tb s) in
  zip_with tok_add s1 (ffn_branch tb s1).

(** The same on a tensor: every sample on its own. *)
Definition token_forward (tb : token_block) (x : TokTensor Tok) : TokTensor Tok :=
  mkTok (seq_len x) (sample_forward tb <$> samples x).

(** The entries of the cache are the masks of their signatures. *)
Definition cache_ok (st : cache_state) : Prop :=
  ∀ key m, attn_bias_cache st !! key = Some m →
    seqlens m = seqlens_of key ∧ _batch_sizes m = key.*1.

End TokenTensors.

(** The shape signature of a list of tensors of tokens, and the samples of
    the list, in order. *)
Definition token_signature {Tok} (x_list : list (TokTensor Tok)) : list (Z * Z) :=
  (λ x, (Z.of_nat (length (samples x)), Z.of_nat (seq_len x))) <$> x_list.

Definition all_samples {Tok} (x_list : list (TokTensor Tok)) : list (list Tok) :=
  x ← x_list; samples x.

(** Tokens of width one over binary64 numbers, a block on them whose
    attention gives every token the sum of its sequence, and a list of two
    tensors: two sequences of two tokens, and one of three. *)
Definition float_tokens : TokOps float := {|
  tok_add := PrimFloat.add;
  tok_scale := PrimFloat.mul;
  tok_gamma _ t := (0.5 * t)%float;
|}.

Definition sum_block : token_block (Tok := float) := {|
  tb_norm1 t := t;
  tb_attend s _ := foldr PrimFloat.add 0%float s;
  tb_ls1 := Some (PrimFloat.mul 0.5);
  tb_norm2 t := t;
  tb_mlp t := (2 * t)%float;
  tb_ls2 := None;
  tb_sample_drop_ratio := 0;
|}.

Definition two_tensors : list (TokTensor float) :=
  [mkTok 2 [[1; 2]; [3; 4]]; mkTok 3 [[5; 6; 7]]]%float.

(* ===================================================================== *)
(** ** The outputs of the blocks                                          *)
(* ===================================================================== *)

Section BlockOutputs.
Context {T B G : Type} (run : B → T → M G T).

(** The outputs of the blocks, one after the other: entry [i] is what
    block [i] returns. *)
Fixpoint activations (bs : list B) (x : T) : M G (list T) :=
  match bs with
  | [] => mret []
  | blk :: rest => x ← run blk x; ys ← activations rest x; mret (x :: ys)
  end.

(** The entries of [acts] whose index, counted from [i], is to be taken,
    in the order of the list. *)
Fixpoint taken (take_ : Z → bool) (i : Z) (acts : list T) : list T :=
  match acts with
  | [] => []
  | a :: rest => (if take_ i then [a] else []) ++ taken take_ (i + 1) rest
  end.
End BlockOutputs.

(* ===================================================================== *)
(** ** named_apply                                                        *)
(* ===================================================================== *)

(** A module with the modules registered in it, as [named_children()]
    lists them: in order, each under its name.  [kind] is what the module
    is (its class and parameters). *)
Inductive nn_module (A : Type) :=
| NNModule (kind : A) (named_children : list (string * nn_module A)).
Arguments NNModule {A} kind named_children.

Definition named_children {A} (m : nn_module A) : list (string * nn_module A) :=
  match m with NNModule _ children => children end.

(** [".".join((name, child_name)) if name else child_name] *)
Definition child_path (name child_name : string) : string :=
  match name with
  | EmptyString => child_name
  | _ => name +:+ "." +:+ child_name
  end.

(** [named_apply(fn, module, name, depth_first, include_root)]: [fn] acts on
    a state [S] (the weights it initialises, a log). *)
Fixpoint named_apply {A S} (fn : nn_module A → string → S → S)
    (module : nn_module A) (name : string) (depth_first include_root : bool)
    (st : S) : S :=
  match module with
  | NNModule _ children =>
      let st := if negb depth_first && include_root then fn module name st else st in
      let st :=
        (fix loop (children : list (string * nn_module A)) (st : S) : S :=
           match children with
           | [] => st
           | (child_name, child_module) :: rest =>
               let child_name := child_path name child_name in
               loop rest (named_apply fn child_module child_name depth_first true st)
           end) children st in
      if depth_first && include_root then fn module name st else st
  end.

(** The calls of [fn] that [named_apply] makes, in order. *)
Definition named_apply_calls {A} (module : nn_module A) (name : string)
    (depth_first include_root : bool) : list (string * nn_module A) :=
  named_apply (λ m n log, log ++ [(n, m)]) module name depth_first include_root [].

(** The number of modules of a tree. *)
Fixpoint module_count {A} (m : nn_module A) : nat :=
  match m with
  | NNModule _ children =>
      S ((fix sum (children : list (string * nn_module A)) : nat :=
            match children with
            | [] => 0%nat
            | (_, c) :: rest => (module_count c + sum rest)%nat
            end) children)
  end.

(** The modules [named_apply] goes through, in the order of its calls:
    the root first when it goes breadth first, last when depth first. *)
Fixpoint traverse {A} (m : nn_module A) (name : string)
    (depth_first include_root : bool) : list (string * nn_module A) :=
  match m with
  | NNModule _ children =>
      (if negb depth_first && include_root then [(name, m)] else [])
      ++ (fix loop (children : list (string * nn_module A)) :=
            match children with
            | [] => []
            | (child_name, c) :: rest =>
                traverse c (child_path name child_name) depth_first true ++ loop rest
            end) children
      ++ (if depth_first && include_root then [(name, m)] else [])
  end.

(* ===================================================================== *)
(** ** The offset of the interpolation, checked by evaluation             *)
(* ===================================================================== *)

(** The grids on which the truncated binary64 product [M * ((w0 + 0.1) / M)]
    is checked by evaluation: reference grids of up to 64 patches a side and
    target grids of up to 511. *)
Definition grid_bound : Z := 64.
Definition target_bound : Z := 512.

Definition offset_restores (offset : float) (M w0 : Z) : bool :=
  match int_of_float (float_of_int M * ((float_of_int w0 + offset) / float_of_int M)) with
  | Ok v => v =? w0
  | Raise _ => false
  end.

(** A small encoder whose patch size is given as a tuple. *)
Definition tuple_patch_args : VisionTransformer.args :=
  VisionTransformer.mkArgs (IInt 28) (ITuple [14; 14]) 3 8 2 2 4 0 false None
                           AttentionClass "mlp" 1 0 false 0.1.

(* ===================================================================== *)
(** ** The blocks and the presets of the encoder                          *)
(* ===================================================================== *)

(** The blocks [Block.__init__] builds for a [VisionTransformer]: heads
    that divide the width, and a feed-forward layer that maps the width back
    to itself, a plain MLP or a SwiGLU layer with a hidden width of at
    least one. *)
Definition built_block (blk : Block.t) (hd : Z) : Prop :=
  0 ≤ hd ∧ 0 < Attention.num_heads (Block.attn blk) ∧
  Attention.dim (Block.attn blk) = Block.dim blk ∧
  Block.dim blk = Attention.num_heads (Block.attn blk) * hd ∧
  match Block.mlp blk with
  | FfnMlp m => Mlp.in_features m = Block.dim blk ∧ Mlp.out_features m = Block.dim blk
  | FfnSwiGLU m =>
      SwiGLUFFN.in_features m = Block.dim blk ∧ SwiGLUFFN.out_features m = Block.dim blk ∧
      0 < SwiGLUFFN.hidden_features m
  end.

(** The other presets, as [vit_small] above. *)
Definition vit_base (patch_size : int_or_tuple) (kwargs : VisionTransformer.args)
  : result VisionTransformer.t :=
  VisionTransformer.init
    (VisionTransformer.mkArgs
       (VisionTransformer.img_size kwargs) patch_size
       (VisionTransformer.in_chans kwargs) 768 12 12 4
       (VisionTransformer.drop_path_rate kwargs)
       (VisionTransformer.drop_path_uniform kwargs)
       (VisionTransformer.init_values kwargs)
       MemEffAttentionClass
       (VisionTransformer.ffn_layer kwargs)
       (VisionTransformer.block_chunks kwargs)
       1
       (VisionTransformer.interpolate_antialias kwargs)
       (VisionTransformer.interpolate_offset kwargs)).

Definition vit_large (patch_size : int_or_tuple) (kwargs : VisionTransformer.args)
  : result VisionTransformer.t :=
  VisionTransformer.init
    (VisionTransformer.mkArgs
       (VisionTransformer.img_size kwargs) patch_size
       (VisionTransformer.in_chans kwargs) 1024 24 16 4
       (VisionTransformer.drop_path_rate kwargs)
       (VisionTransformer.drop_path_uniform kwargs)
       (VisionTransformer.init_values kwargs)
       MemEffAttentionClass
       (VisionTransformer.ffn_layer kwargs)
       (VisionTransformer.block_chunks kwargs)
       1
       (VisionTransformer.interpolate_antialias kwargs)
       (VisionTransformer.interpolate_offset kwargs)).

(** SoViT 400M; [mlp_ratio=4304 / 1152] is a binary64 quotient. *)
Definition vit_so400m (patch_size : int_or_tuple) (kwargs : VisionTransformer.args)
  : result VisionTransformer.t :=
  VisionTransformer.init
    (VisionTransformer.mkArgs
       (VisionTransformer.img_size kwargs) patch_size
       (VisionTransformer.in_chans kwargs) 1152 27 16 (4304 / 1152)
       (VisionTransformer.drop_path_rate kwargs)
       (VisionTransformer.drop_path_uniform kwargs)
       (VisionTransformer.init_values kwargs)
       MemEffAttentionClass
       (VisionTransformer.ffn_layer kwargs)
       (VisionTransformer.block_chunks kwargs)
       1
       (VisionTransformer.interpolate_antialias kwargs)
       (VisionTransformer.interpolate_offset kwargs)).

Definition vit_giant2 (patch_size : int_or_tuple) (kwargs : VisionTransformer.args)
  : result VisionTransformer.t :=
  VisionTransformer.init
    (VisionTransformer.mkArgs
       (VisionTransformer.img_size kwargs) patch_size
       (VisionTransformer.in_chans kwargs) 1536 40 24 4
       (VisionTransformer.drop_path_rate kwargs)
       (VisionTransformer.drop_path_uniform kwargs)
       (VisionTransformer.init_values kwargs)
       MemEffAttentionClass
       (VisionTransformer.ffn_layer kwargs)
       (VisionTransformer.block_chunks kwargs)
       1
       (VisionTransformer.interpolate_antialias kwargs)
       (VisionTransformer.interpolate_offset kwargs)).

(** The presets with the width of their tokens. *)
Definition presets
  : list ((int_or_tuple → VisionTransformer.args → result VisionTransformer.t) * Z) :=
  [(vit_small, 384); (vit_base, 768); (vit_large, 1024); (vit_so400m, 1152);
   (vit_giant2, 1536)].

(** An encoder asked for the feed-forward layer that the docstring of
    [VisionTransformer.__init__] names last. *)
Definition identity_ffn_args : VisionTransformer.args :=
  VisionTransformer.mkArgs (IInt 224) (IInt 16) 3 768 12 12 4 0 false None
                           AttentionClass "identity" 1 0 false 0.1.

(* ===================================================================== *)
(** ** Training mode, nested lists and intermediate layers               *)
(* ===================================================================== *)

(** [y] has the batch size and the sequence length of [x], as a tensor
    [z.view_as(x)] has. *)
Definition same_nested_shape {T} `{Batch T} `{Nestable T} (x y : T) : Prop :=
  batch_size y = batch_size x ∧ nshape1 y = nshape1 x.

(** A block like [sum_block] with both layer scales, whose [gamma] is one
    half as [tok_gamma] has it, and a sample drop ratio of one half. *)
Definition dropping_block : token_block (Tok := float) := {|
  tb_norm1 t := t;
  tb_attend s _ := foldr PrimFloat.add 0%float s;
  tb_ls1 := Some (PrimFloat.mul 0.5);
  tb_norm2 t := t;
  tb_mlp t := (2 * t)%float;
  tb_ls2 := Some (PrimFloat.mul 0.5);
  tb_sample_drop_ratio := 0.5;
|}.

(** [returns_from m g g' s]: from the generator state [g], the forward pass
    [m] returns a tensor of shape [s] and leaves the generator in the state
    [g']. *)
Definition returns_from {G} (m : M G Tensor) (g g' : G) (s : list Z) : Prop :=
  ∃ y, m g = Ok (y, g') ∧ shape y = s.

(** The generator after the two residual branches of a block of drop rate
    [r] on a batch of [b] samples in training mode: two arrangements of the
    batch above 0.1, two rows of [b] coins up to 0.1, nothing at 0. *)
Definition after_block `{Generator G} (r : float) (b : Z) (g : G) : G :=
  if (0.1 <? r)%float then (randperm b (randperm b g).2).2
  else if (0 <? r)%float
       then (bernoulli (1 - r) (Z.to_nat b) (bernoulli (1 - r) (Z.to_nat b) g).2).2
       else g.

(** The rates [Block.forward] can work with on a batch of [b] samples: the
    size of the subset is an int, and the keep probability lies between 0
    and 1. *)
Definition usable_rate (r : float) (b : Z) : Prop :=
  if (0.1 <? r)%float then ∃ k, sample_subset_size b r = Ok k
  else if (0 <? r)%float then (0 <=? 1 - r)%float = true ∧ (1 - r <=? 1)%float = true
  else True.

(** A block with a plain MLP and a drop rate of one half, of width 8. *)
Definition half_dropping_block : Block.t :=
  Block.mk 8 (Attention.mk 8 2 4 0 0) AttentionClass false (FfnMlp (Mlp.mk 8 32 8 0)) 0.5.

(** The generator after the blocks of a model of uniform drop rate [r]. *)
Definition after_blocks `{Generator G} (r : float) (b : Z) (depth : nat) (g : G) : G :=
  Nat.iter depth (after_block r b) g.

(** [tiny_args] with a uniform drop rate of one half. *)
Definition dropping_args : VisionTransformer.args :=
  VisionTransformer.mkArgs (IInt 28) (IInt 14) 3 8 2 2 4 0.5 true None
                           AttentionClass "mlp" 1 0 false 0.1.

(** The model of [dropping_args]. *)
Definition dropping_model : VisionTransformer.t := {|
  VisionTransformer.self_embed_dim := 8;
  VisionTransformer.n_blocks := 2;
  VisionTransformer.self_patch_size := IInt 14;
  VisionTransformer.self_num_register_tokens := 0;
  VisionTransformer.self_interpolate_antialias := false;
  VisionTransformer.self_interpolate_offset := 0.1;
  VisionTransformer.patch_embed := PatchEmbed.mk (28, 28) (14, 14) (2, 2) 4 3 8 true false;
  VisionTransformer.cls_token := mkTensor [1; 1; 8] (Param "cls_token");
  VisionTransformer.pos_embed := mkTensor [1; 5; 8] (Param "pos_embed");
  VisionTransformer.register_tokens := None;
  VisionTransformer.mask_token := mkTensor [1; 8] (Param "mask_token");
  VisionTransformer.chunked_blocks := true;
  VisionTransformer.self_blocks := ChunkedBlocks [replicate 2 (Blk half_dropping_block)];
|}.

(** What [get_intermediate_layers] returns: the outputs, or the outputs each
    with its class token. *)
Inductive intermediate_outputs :=
| Outputs (outputs : list Tensor)
| OutputsWithClassTokens (pairs : list (Tensor * Tensor)).

(** [VisionTransformer.get_intermediate_layers] *)
Definition get_intermediate_layers `{Generator G} (XFORMERS_AVAILABLE : bool)
    (self : VisionTransformer.t) (training : bool) (x : Tensor) (n : layers)
    (reshape_ return_class_token norm : bool) : M G intermediate_outputs :=
  outputs ← VisionTransformer.intermediate_layers XFORMERS_AVAILABLE self training x n;
  lift (
    outputs ← (if norm
               then mapM (M := result)
                         (layer_norm "norm" (VisionTransformer.self_embed_dim self)) outputs
               else Ok outputs);
    class_tokens ← mapM (M := result) (select1 0) outputs;
    outputs ← mapM (M := result)
                   (slice1 (1 + VisionTransformer.self_num_register_tokens self) None)
                   outputs;
    outputs ←
      (if reshape_ then
         '(batch_size, w, h) ← match shape x with
                               | [batch_size; _; w; h] => Ok (batch_size, w, h)
                               | _ => Raise ValueError
                               end;
         mapM (M := result)
              (λ out,
                 w0 ← VisionTransformer.div_patch_size self w;
                 h0 ← VisionTransformer.div_patch_size self h;
                 out ← reshape [batch_size; w0; h0; -1] out;
                 out ← permute [0; 3; 1; 2]%nat out;
                 mret (pointwise "contiguous" [] out))
              outputs
       else Ok outputs);
    mret (if return_class_token then OutputsWithClassTokens (zip outputs class_tokens)
          else Outputs outputs)).

(* ===================================================================== *)
(** * Properties                                                          *)
(* ===================================================================== *)

(** ** Python helpers *)

Lemma all_from_spec fuel i0 p :
  all_from fuel i0 p = true →
  ∀ i, i0 ≤ i < i0 + Z.of_nat fuel → p i = true.
Proof.
  revert i0. induction fuel as [|fuel IH]; intros i0 Hall i Hi; [lia|].
  simpl in Hall. apply andb_prop in Hall as [Hp Hrest].
  destruct (decide (i = i0)) as [->|Hne]; [done|].
  apply (IH (i0 + 1) Hrest). lia.
Qed.


(** ** Binary64 comparisons *)

Lemma float_pos_nonzero (r : float) :
  (0 <? r)%float = true → (r =? 0)%float = false.
Proof.
  rewrite FloatAxioms.ltb_spec, FloatAxioms.eqb_spec.
  change (Prim2SF 0) with (S754_zero false).
  unfold SFltb, SFeqb.
  destruct (Prim2SF r) as [s|s| |s m e]; simpl; try done.
  all: by destruct s.
Qed.

Lemma float_ltb_leb (a b : float) :
  (a <? b)%float = true → (a <=? b)%float = true.
Proof.
  rewrite FloatAxioms.ltb_spec, FloatAxioms.leb_spec. unfold SFltb, SFleb.
  by destruct (SFcompare _ _) as [[]|].
Qed.

Lemma float_above_tenth_pos (r : float) :
  (0.1 <? r)%float = true → (0 <? r)%float = true.
Proof.
  rewrite !FloatAxioms.ltb_spec.
  change (Prim2SF 0) with (S754_zero false).
  assert (∃ m e, Prim2SF 0.1 = S754_finite false m e) as (m & e & ->).
  { vm_compute. eauto. }
  unfold SFltb.
  destruct (Prim2SF r) as [s|s| |s m' e']; simpl; try done.
  all: by destruct s.
Qed.

(** ** The monad of a forward pass *)

Lemma M_bind_Ok {G A B} (m : M G A) (f : A → M G B) g b g' :
  (m ≫= f) g = Ok (b, g') ↔ ∃ a g1, m g = Ok (a, g1) ∧ f a g1 = Ok (b, g').
Proof.
  unfold mbind, M_bind. destruct (m g) as [[a g1]|e].
  - split; [by eauto|]. by intros (? & ? & [= <- <-] & ?).
  - split; [done|]. by intros (? & ? & ? & _).
Qed.

Lemma M_bind_assoc {G A B C} (m : M G A) (f : A → M G B) (k : B → M G C) g :
  (m ≫= (λ a, f a ≫= k)) g = ((m ≫= f) ≫= k) g.
Proof. unfold mbind, M_bind. by destruct (m g) as [[a g1]|e]. Qed.

(** ** Stochastic depth on batches of rows *)

Section StochasticDepthFacts.
Context {Row G : Type} `{RowOps Row} `{GeneratorLaws G}.
Implicit Types (x y residual : list Row) (brange : list nat) (g : G).

Lemma rows_index_add_loop_spec x brange residual alpha :
  length brange = length residual →
  NoDup brange →
  Forall (λ i, i < length x)%nat brange →
  residual_on_subset x (rows_index_add_loop x brange residual alpha)
                     brange residual alpha.
Proof.
  revert x residual.
  induction brange as [|i brange IH]; intros x residual Hlen Hnd Hin.
  { split; [done|]. intros i xi Hi. split; [by intros j ?|done]. }
  destruct residual as [|r residual]; [done|]. simpl.
  apply NoDup_cons in Hnd as [Hi Hnd]. apply Forall_cons in Hin as [Hix Hin].
  set (x' := alter (λ xi, radd xi (rscale alpha r)) i x).
  destruct (IH x' residual) as [Hl Hspec].
  { by simplify_eq/=. } { done. }
  { unfold x'. by rewrite length_alter. }
  split. { rewrite Hl. unfold x'. by rewrite length_alter. }
  intros i0 xi Hxi. destruct (decide (i0 = i)) as [->|Hne].
  - assert (x' !! i = Some (radd xi (rscale alpha r))) as Hx'.
    { unfold x'. by rewrite list_lookup_alter_eq, Hxi. }
    destruct (Hspec _ _ Hx') as [_ Hout]. split.
    + intros [|j] Hj; simpl in Hj.
      * exists r. split; [done|]. by apply Hout.
      * exfalso. apply Hi. by eapply list_elem_of_lookup_2.
    + intros Hni. exfalso. apply Hni. left.
  - assert (x' !! i0 = Some xi) as Hx'.
    { unfold x'. by rewrite list_lookup_alter_ne. }
    destruct (Hspec _ _ Hx') as [Hin' Hout]. split.
    + intros [|j] Hj; simpl in Hj; [congruence|]. by apply Hin'.
    + intros Hni. apply Hout. intros ?. apply Hni. by right.
Qed.

Lemma brange_facts b k g :
  let brange := take k (randperm (Z.of_nat b) g).1 in
  NoDup brange ∧ length brange = (k `min` b)%nat ∧
  Forall (λ i, i < b)%nat brange.
Proof.
  pose proof (randperm_perm (Z.of_nat b) g) as Hperm.
  rewrite Nat2Z.id in Hperm. simpl. split_and!.
  - eapply sublist_NoDup; [|apply sublist_take]. rewrite Hperm. apply NoDup_seq.
  - rewrite length_take, Hperm, length_seq. done.
  - apply Forall_take. rewrite Hperm. apply Forall_seq. lia.
Qed.

Lemma rows_select_ok x brange :
  Forall (λ i, i < length x)%nat brange →
  ∃ x_subset, rows_select brange x = Ok x_subset ∧ length x_subset = length brange.
Proof.
  intros Hin. unfold rows_select.
  destruct (mapM (λ i, x !! i) brange) as [rows|] eqn:Hm.
  - exists rows. split; [done|]. symmetry. by eapply length_mapM.
  - exfalso. apply mapM_None in Hm. apply Exists_exists in Hm as (i & Hi & Hnone).
    rewrite Forall_forall in Hin. apply Hin in Hi.
    apply lookup_ge_None in Hnone. lia.
Qed.

Lemma residual_on_subset_unique x y y' brange residual alpha :
  residual_on_subset x y brange residual alpha →
  residual_on_subset x y' brange residual alpha →
  y = y'.
Proof.
  intros [Hl Hy] [Hl' Hy']. apply list_eq. intros i.
  destruct (x !! i) as [xi|] eqn:Hxi.
  - destruct (Hy _ _ Hxi) as [Hin Hout], (Hy' _ _ Hxi) as [Hin' Hout'].
    destruct (decide (i ∈ brange)) as [Hi|Hi].
    + apply list_elem_of_lookup in Hi as [j Hj].
      destruct (Hin _ Hj) as (rj & Hrj & ->), (Hin' _ Hj) as (rj' & Hrj' & ->).
      congruence.
    + by rewrite Hout, Hout'.
  - apply lookup_ge_None in Hxi.
    rewrite (proj2 (lookup_ge_None y i)), (proj2 (lookup_ge_None y' i)); [done|lia..].
Qed.

(** The run of [drop_add_residual_stochastic_depth] on a batch of rows, once
    the subset size, the selected samples and their residual are known. *)
Lemma drop_add_rows_run x (f : list Row → M G (list Row)) r g k x_subset residual g' :
  let b := Z.of_nat (length x) in
  let brange := take (Z.to_nat k) (randperm b g).1 in
  sample_subset_size b r = Ok k →
  rows_select brange x = Ok x_subset →
  f x_subset (randperm b g).2 = Ok (residual, g') →
  length residual = length brange →
  drop_add_residual_stochastic_depth x f r g
  = Ok (rows_index_add_loop x brange residual (float_of_int b / float_of_int k), g').
Proof.
  cbv zeta. intros Hk Hsel Hres Hrl.
  destruct (brange_facts (length x) (Z.to_nat k) g) as (Hnd & Hlen & Hin).
  unfold drop_add_residual_stochastic_depth, mbind, M_bind, lift, draw. simpl.
  rewrite Hk. destruct (randperm (Z.of_nat (length x)) g) as [perm g1] eqn:Hrp.
  simpl in *. rewrite Hsel, Hres.
  unfold rows_index_add. rewrite decide_True by done.
  assert (forallb (λ i, bool_decide (i < length x)%nat) (take (Z.to_nat k) perm) = true) as ->.
  { apply forallb_forall. intros i Hi. apply bool_decide_eq_true.
    rewrite Forall_forall in Hin. apply Hin. by apply list_elem_of_In. }
  done.
Qed.

(** [drop_add_residual_stochastic_depth] is the batch-subset step. *)
Lemma drop_add_rows_iff x (f : list Row → M G (list Row)) r g y g' :
  drop_add_residual_stochastic_depth x f r g = Ok (y, g')
  ↔ subset_residual_step f r x g y g'.
Proof.
  destruct (sample_subset_size (Z.of_nat (length x)) r) as [k|e] eqn:Hk; cycle 1.
  { split.
    - unfold drop_add_residual_stochastic_depth, mbind, M_bind, lift, draw. simpl.
      by rewrite Hk.
    - intros (k' & ? & ? & Hk' & _). congruence. }
  destruct (brange_facts (length x) (Z.to_nat k) g) as (Hnd & Hlen & Hin).
  destruct (rows_select_ok x _ Hin) as (x_subset & Hsel & Hsl).
  split.
  - intros Hrun.
    destruct (f x_subset (randperm (Z.of_nat (length x)) g).2) as [[residual g2]|e] eqn:Hres;
      cycle 1.
    { revert Hrun.
      unfold drop_add_residual_stochastic_depth, mbind, M_bind, lift, draw. simpl.
      rewrite Hk. destruct (randperm (Z.of_nat (length x)) g) as [perm g1].
      simpl in *. by rewrite Hsel, Hres. }
    destruct (decide (length residual = length (take (Z.to_nat k) (randperm (Z.of_nat (length x)) g).1)))
      as [Hrl|Hrl]; cycle 1.
    { revert Hrun.
      unfold drop_add_residual_stochastic_depth, mbind, M_bind, lift, draw. simpl.
      rewrite Hk. destruct (randperm (Z.of_nat (length x)) g) as [perm g1].
      simpl in *. rewrite Hsel, Hres. unfold rows_index_add.
      by rewrite decide_False by done. }
    rewrite (drop_add_rows_run _ _ _ _ _ _ _ _ Hk Hsel Hres Hrl) in Hrun.
    injection Hrun as <- <-.
    exists k, x_subset, residual. do 6 (split; [done|]).
    by apply rows_index_add_loop_spec.
  - intros (k' & x_subset' & residual & Hk' & Hnd' & Hlen' & Hsel' & Hres & Hrl & Hspec).
    assert (k' = k) as -> by congruence.
    rewrite (drop_add_rows_run _ _ _ _ _ _ _ _ Hk Hsel' Hres Hrl).
    do 2 f_equal. eapply residual_on_subset_unique; [|done].
    by apply rows_index_add_loop_spec.
Qed.

Lemma residual_per_sample_zip x residual factors :
  length residual = length x →
  length factors = length x →
  residual_per_sample x (zip_with radd x (zip_with rscale factors residual))
                      residual factors.
Proof.
  intros Hr Hf. split.
  { rewrite !length_zip_with. lia. }
  intros i xi Hxi.
  destruct (lookup_lt_is_Some_2 residual i) as [ri Hri].
  { rewrite Hr. by eapply lookup_lt_Some. }
  destruct (lookup_lt_is_Some_2 factors i) as [fi Hfi].
  { rewrite Hf. by eapply lookup_lt_Some. }
  exists ri, fi. split_and!; [done..|].
  apply lookup_zip_with_Some. exists xi, (rscale fi ri). split_and!; [done..|].
  apply lookup_zip_with_Some. by exists fi, ri.
Qed.

Lemma residual_per_sample_unique x y y' residual factors :
  residual_per_sample x y residual factors →
  residual_per_sample x y' residual factors →
  y = y'.
Proof.
  intros [Hl Hy] [Hl' Hy']. apply list_eq. intros i.
  destruct (x !! i) as [xi|] eqn:Hxi.
  - destruct (Hy _ _ Hxi) as (ri & fi & ? & ? & ->).
    destruct (Hy' _ _ Hxi) as (ri' & fi' & ? & ? & ->). congruence.
  - apply lookup_ge_None in Hxi.
    rewrite (proj2 (lookup_ge_None y i)), (proj2 (lookup_ge_None y' i)); [done|lia..].
Qed.

(** [drop_path_impl] in training mode, for a drop probability [r] with
    [0 < r] and [0 < 1 - r <= 1]: one coin per sample. *)
Lemma drop_path_rows x r g :
  (0 <? r)%float = true →
  (0 <? 1 - r)%float = true →
  (1 - r <=? 1)%float = true →
  drop_path_impl x r true g
  = Ok (zip_with rscale (coin_factor (1 - r) <$> (bernoulli (1 - r) (length x) g).1) x,
        (bernoulli (1 - r) (length x) g).2).
Proof.
  intros Hr Hk0 Hk1. unfold drop_path_impl.
  rewrite (float_pos_nonzero _ Hr). simpl.
  unfold mbind, M_bind, lift, draw. simpl.
  rewrite (float_ltb_leb _ _ Hk0), Hk1, Hk0. simpl.
  rewrite Nat2Z.id.
  pose proof (bernoulli_length (1 - r)%float (length x) g) as Hlen.
  destruct (bernoulli (1 - r) (length x) g) as [coins g1]. simpl in *.
  unfold rows_scale. rewrite decide_True by by rewrite !length_fmap.
  by rewrite <- list_fmap_compose.
Qed.

(** One residual branch of the per-sample-drop path of [Block.forward]:
    [x + drop_path1(residual_func(x))]. *)
Lemma drop_path_step_iff (f : list Row → M G (list Row)) r x g y g' :
  keeps_batch f →
  (0 <? r)%float = true →
  (0 <? 1 - r)%float = true →
  (1 - r <=? 1)%float = true →
  (res ← f x; d ← DropPath_forward (DropPath_init r) true res; lift (tadd x d)) g
  = Ok (y, g')
  ↔ bernoulli_residual_step f r x g y g'.
Proof.
  intros Hf Hr Hk0 Hk1.
  unfold DropPath_init. rewrite Hr. simpl.
  unfold mbind at 1, M_bind at 1.
  destruct (f x g) as [[residual g1]|e] eqn:Hres; cycle 1.
  { split; [done|]. intros (? & ? & ? & _). congruence. }
  pose proof (Hf _ _ _ _ Hres) as Hrl.
  unfold mbind, M_bind. rewrite (drop_path_rows _ _ _ Hr Hk0 Hk1).
  rewrite Hrl.
  pose proof (bernoulli_length (1 - r)%float (length x) g1) as Hlen.
  destruct (bernoulli (1 - r) (length x) g1) as [coins g2] eqn:Hb. simpl in *.
  unfold rows_add. rewrite decide_True; cycle 1.
  { rewrite length_zip_with, length_fmap. lia. }
  pose proof (residual_per_sample_zip x residual (coin_factor (1 - r) <$> coins)) as Hzip.
  rewrite length_fmap in Hzip. specialize (Hzip Hrl Hlen).
  split.
  - intros [= <- <-]. exists residual, g1. rewrite Hb. simpl. by split_and!.
  - intros (residual' & g1' & Hres' & Hg & Hcl & Hps).
    assert (residual' = residual ∧ g1' = g1) as [-> ->] by (split; congruence).
    rewrite Hb in Hg, Hps. simpl in *. subst g'. do 2 f_equal.
    by eapply residual_per_sample_unique.
Qed.

(** One residual branch of the plain path: [x + residual_func(x)]. *)
Lemma full_step_iff (f : list Row → M G (list Row)) x g y g' :
  keeps_batch f →
  (res ← f x; lift (tadd x res)) g = Ok (y, g')
  ↔ full_residual_step f x g y g'.
Proof.
  intros Hf. unfold mbind, M_bind.
  destruct (f x g) as [[residual g1]|e] eqn:Hres; cycle 1.
  { split; [done|]. intros (? & ? & _). congruence. }
  pose proof (Hf _ _ _ _ Hres) as Hrl. simpl.
  unfold rows_add. rewrite decide_True by done. simpl.
  split.
  - intros [= <- <-]. exists residual. split_and!; [done| |].
    { rewrite length_zip_with. lia. }
    intros i xi Hxi.
    destruct (lookup_lt_is_Some_2 residual i) as [ri Hri].
    { rewrite Hrl. by eapply lookup_lt_Some. }
    exists ri. split; [done|]. apply lookup_zip_with_Some. by exists xi, ri.
  - intros (residual' & Hres' & Hl & Hy).
    assert (residual' = residual ∧ g' = g1) as [-> ->] by (split; congruence).
    do 2 f_equal. apply list_eq. intros i.
    destruct (x !! i) as [xi|] eqn:Hxi.
    + destruct (Hy _ _ Hxi) as (ri & Hri & ->).
      apply lookup_zip_with_Some. by exists xi, ri.
    + apply lookup_ge_None in Hxi.
      rewrite (proj2 (lookup_ge_None y i)) by lia.
      apply lookup_ge_None. rewrite length_zip_with. lia.
Qed.


End StochasticDepthFacts.

(** ** Chunked and flat block stacks *)

Section BlockStackFacts.
Context {T B G : Type} (run : B → T → M G T).
Implicit Types (bs : list B) (x : T) (output : list T) (g : G).

(** The loop over the blocks of a chunk is the loop over the blocks. *)
Lemma chunk_loop_blocks take_ bs i x output g :
  chunk_loop run take_ (Blk <$> bs) i x output g
  = match enumerate_loop run take_ bs i x output g with
    | Ok (x', output', g') => Ok (x', output', i + Z.of_nat (length bs), g')
    | Raise e => Raise e
    end.
Proof.
  revert i x output g. induction bs as [|b bs IH]; intros i x output g; simpl.
  { unfold mret, M_ret. do 3 f_equal. lia. }
  unfold mbind, M_bind. destruct (run b x g) as [[x1 g1]|e]; [|done].
  rewrite IH. destruct (enumerate_loop _ _ _ _ _ _ _) as [[[x' output'] g']|e]; [|done].
  do 3 f_equal. lia.
Qed.

Lemma enumerate_loop_app take_ bs1 bs2 i x output g :
  enumerate_loop run take_ (bs1 ++ bs2) i x output g
  = match enumerate_loop run take_ bs1 i x output g with
    | Ok (x', output', g') =>
        enumerate_loop run take_ bs2 (i + Z.of_nat (length bs1)) x' output' g'
    | Raise e => Raise e
    end.
Proof.
  revert i x output g. induction bs1 as [|b bs1 IH]; intros i x output g; simpl.
  { unfold mret, M_ret. f_equal. lia. }
  unfold mbind, M_bind. destruct (run b x g) as [[x1 g1]|e]; [|done].
  rewrite IH. destruct (enumerate_loop _ _ bs1 _ _ _ _) as [[[x' output'] g']|e]; [|done].
  f_equal. lia.
Qed.

(** A chunk read from its own start is the slice of the block list. *)
Lemma drop_make_chunk bs chunksize i :
  0 ≤ i →
  drop (Z.to_nat i) (make_chunk bs chunksize i)
  = Blk <$> take (Z.to_nat chunksize) (drop (Z.to_nat i) bs).
Proof.
  intros Hi. unfold make_chunk.
  rewrite drop_app_length'; [done|]. by rewrite length_replicate.
Qed.

(** The chunks from block [s] on visit the blocks from [s] on, in order and
    with their indices in the block list. *)
Lemma chunks_loop_from take_ bs chunksize fuel s x output g :
  0 < chunksize → 0 ≤ s →
  (Z.of_nat (length bs) - s ≤ Z.of_nat fuel) →
  chunks_loop run take_
    (make_chunk bs chunksize <$> range_up fuel s (Z.of_nat (length bs)) chunksize)
    s x output g
  = enumerate_loop run take_ (drop (Z.to_nat s) bs) s x output g.
Proof.
  intros Hcs. revert s x output g.
  induction fuel as [|fuel IH]; intros s x output g Hs Hfuel; simpl.
  { rewrite drop_ge by lia. done. }
  destruct (s <? Z.of_nat (length bs)) eqn:Hlt; simpl; cycle 1.
  { apply Z.ltb_ge in Hlt. rewrite drop_ge by lia. done. }
  apply Z.ltb_lt in Hlt.
  unfold mbind at 1, M_bind at 1.
  rewrite drop_make_chunk by done. rewrite chunk_loop_blocks.
  rewrite <- (take_drop (Z.to_nat chunksize) (drop (Z.to_nat s) bs)) at 2.
  rewrite enumerate_loop_app.
  destruct (enumerate_loop _ _ (take _ _) _ _ _ _) as [[[x' output'] g']|e]; [|done].
  rewrite drop_drop.
  set (len := length (take (Z.to_nat chunksize) (drop (Z.to_nat s) bs))).
  assert (len = (Z.to_nat chunksize `min` (length bs - Z.to_nat s))%nat) as Hlen.
  { unfold len. by rewrite length_take, length_drop. }
  destruct (decide (s + chunksize ≤ Z.of_nat (length bs))) as [Hfull|Hpart].
  - assert (s + Z.of_nat len = s + chunksize) as -> by lia.
    rewrite IH by lia. do 2 f_equal. lia.
  - (* the last chunk: the range stops and no block is left *)
    destruct fuel as [|fuel']; simpl.
    + rewrite drop_ge by lia. done.
    + assert ((s + chunksize <? Z.of_nat (length bs)) = false) as ->
        by (apply Z.ltb_ge; lia).
      simpl. rewrite drop_ge by lia. done.
Qed.

(** The last chunk is as long as the block list. *)
Lemma last_chunk_length bs chunksize fuel s :
  0 < chunksize → 0 ≤ s < Z.of_nat (length bs) →
  (Z.of_nat (length bs) - s ≤ Z.of_nat fuel) →
  length <$> last (make_chunk bs chunksize <$> range_up fuel s (Z.of_nat (length bs)) chunksize)
  = Some (length bs).
Proof.
  intros Hcs. revert s. induction fuel as [|fuel IH]; intros s Hs Hfuel; [lia|].
  simpl. assert ((s <? Z.of_nat (length bs)) = true) as -> by (apply Z.ltb_lt; lia).
  rewrite fmap_cons.
  destruct (decide (s + chunksize < Z.of_nat (length bs))) as [Hmore|Hlast].
  - specialize (IH (s + chunksize) ltac:(lia) ltac:(lia)).
    destruct (make_chunk bs chunksize <$> range_up fuel (s + chunksize) _ _) as [|c cs] eqn:Hcs'.
    { done. }
    by rewrite last_cons_cons.
  - assert (range_up fuel (s + chunksize) (Z.of_nat (length bs)) chunksize = []) as ->.
    { destruct fuel; simpl; [done|].
      by assert ((s + chunksize <? Z.of_nat (length bs)) = false) as -> by (apply Z.ltb_ge; lia). }
    simpl. f_equal. unfold make_chunk.
    rewrite length_app, length_replicate, length_fmap, length_take, length_drop. lia.
Qed.

Lemma range_up_lookup fuel s stop step k v :
  range_up fuel s stop step !! k = Some v → v = s + Z.of_nat k * step ∧ v < stop.
Proof.
  revert s k. induction fuel as [|fuel IH]; intros s k; simpl; [done|].
  destruct (s <? stop) eqn:Hlt; [|done]. apply Z.ltb_lt in Hlt.
  destruct k as [|k]; simpl.
  - intros [= <-]. lia.
  - intros Hk. apply IH in Hk. lia.
Qed.

Lemma range_up_lookup_Some fuel s stop step k :
  0 < step → s + Z.of_nat k * step < stop → stop - s ≤ Z.of_nat fuel →
  range_up fuel s stop step !! k = Some (s + Z.of_nat k * step).
Proof.
  intros Hstep. revert s k. induction fuel as [|fuel IH]; intros s k Hk Hfuel.
  { destruct k; nia. }
  simpl. assert ((s <? stop) = true) as -> by (apply Z.ltb_lt; nia).
  destruct k as [|k]; simpl.
  - f_equal. lia.
  - rewrite IH by nia. f_equal. lia.
Qed.

(** The blocks of a chunk sit at their index in the block list, behind
    placeholders only. *)
Lemma make_chunk_lookup bs chunksize (i : Z) (j : nat) :
  0 ≤ i →
  make_chunk bs chunksize i !! j
  = if decide (j < Z.to_nat i)%nat then Some Identity
    else if decide (j < Z.to_nat i + Z.to_nat chunksize)%nat then Blk <$> bs !! j
    else None.
Proof.
  intros Hi. unfold make_chunk.
  destruct (decide (j < Z.to_nat i)%nat) as [Hlt|Hge].
  { rewrite lookup_app_l by by rewrite length_replicate.
    by apply lookup_replicate_2. }
  rewrite lookup_app_r by (rewrite length_replicate; lia).
  rewrite length_replicate, list_lookup_fmap.
  destruct (decide (j < Z.to_nat i + Z.to_nat chunksize)%nat) as [Hin|Hout].
  - rewrite lookup_take_lt by lia. rewrite lookup_drop. do 2 f_equal. lia.
  - by rewrite lookup_take_ge by lia.
Qed.

(** C6.  A model built with [block_chunks > 0] and a model built without
    chunks from the same blocks return the same intermediate layers, for
    every input, every choice of layers and every generator state: the
    chunked loop meets the blocks in the same order and under the same
    index.  Every chunk starts with the placeholders that stand for the
    blocks of the chunks before it, so that a block sits in its chunk at its
    index [j] in the block list, and every block sits in some chunk. *)
Theorem chunked_intermediate_layers_eq (depth : nat) (block_chunks : Z) bs chunks :
  length bs = depth →
  chunk_blocks depth block_chunks bs = Ok (ChunkedBlocks chunks) →
  chunk_blocks depth 0 bs = Ok (FlatBlocks bs) ∧
  (∀ x n g,
     _get_intermediate_layers_chunked run chunks x n g
     = _get_intermediate_layers_not_chunked run bs x n g) ∧
  (∀ (k : nat) chunk, chunks !! k = Some chunk →
     take (k * Z.to_nat (Z.of_nat depth / block_chunks)) chunk
     = replicate (k * Z.to_nat (Z.of_nat depth / block_chunks)) Identity) ∧
  (∀ chunk (j : nat) b, chunk ∈ chunks → chunk !! j = Some (Blk b) → bs !! j = Some b) ∧
  (∀ (j : nat) b, bs !! j = Some b → ∃ chunk, chunk ∈ chunks ∧ chunk !! j = Some (Blk b)).
Proof.
  intros Hdepth Hinit. split; [done|].
  unfold chunk_blocks in Hinit.
  destruct (0 <? block_chunks) eqn:Hbc; [|done]. apply Z.ltb_lt in Hbc.
  unfold floordiv in Hinit.
  assert ((block_chunks =? 0) = false) as Hne by (apply Z.eqb_neq; lia).
  rewrite Hne in Hinit. simpl in Hinit.
  set (chunksize := Z.of_nat depth / block_chunks) in *.
  unfold range3 in Hinit.
  destruct (chunksize =? 0) eqn:Hcs0; [done|]. apply Z.eqb_neq in Hcs0.
  assert (0 < chunksize) as Hcs.
  { pose proof (Z.div_pos (Z.of_nat depth) block_chunks). lia. }
  assert ((0 <? chunksize) = true) as Hpos by by apply Z.ltb_lt.
  rewrite Hpos in Hinit. simpl in Hinit. injection Hinit as <-.
  assert (0 < depth)%nat as Hd.
  { destruct depth; [|lia]. unfold chunksize in Hcs0. by rewrite Z.div_0_l in Hcs0 by lia. }
  rewrite Z.sub_0_r, Nat2Z.id, <- Hdepth.
  split_and!.
  - intros x n g. unfold _get_intermediate_layers_chunked, _get_intermediate_layers_not_chunked.
    pose proof (last_chunk_length bs chunksize (length bs) 0 Hcs
                  ltac:(lia) ltac:(lia)) as Hlast.
    destruct (last _) as [c|]; simpl in Hlast; [|done].
    injection Hlast as Hc.
    unfold mbind at 1, M_bind at 1. simpl. rewrite Hc.
    destruct (blocks_to_take (Z.of_nat (length bs)) n) as [take_ len].
    unfold mbind, M_bind.
    by rewrite (chunks_loop_from take_ bs chunksize (length bs) 0) by lia.
  - intros k chunk Hk. rewrite list_lookup_fmap in Hk.
    destruct (range_up _ _ _ _ !! k) as [v|] eqn:Hv; [|done].
    injection Hk as <-. apply range_up_lookup in Hv as [-> _].
    unfold make_chunk.
    assert (Z.to_nat (0 + Z.of_nat k * chunksize) = (k * Z.to_nat chunksize)%nat) as -> by nia.
    rewrite take_app_length'; [done|]. by rewrite length_replicate.
  - intros chunk j b Hchunk Hj.
    apply list_elem_of_fmap in Hchunk as (v & -> & Hv).
    apply list_elem_of_lookup in Hv as [k Hv]. apply range_up_lookup in Hv as [-> _].
    rewrite make_chunk_lookup in Hj by nia.
    repeat case_decide; simplify_eq/=.
    by destruct (bs !! j); simplify_eq/=.
  - intros j b Hj.
    pose proof (lookup_lt_Some _ _ _ Hj) as Hjlt.
    set (k := (j / Z.to_nat chunksize)%nat).
    assert (k * Z.to_nat chunksize ≤ j < k * Z.to_nat chunksize + Z.to_nat chunksize)%nat as Hkj.
    { unfold k. pose proof (Nat.div_mod_eq j (Z.to_nat chunksize)).
      pose proof (Nat.mod_upper_bound j (Z.to_nat chunksize)). lia. }
    exists (make_chunk bs chunksize (0 + Z.of_nat k * chunksize)). split.
    + apply list_elem_of_fmap. eexists. split; [done|].
      eapply list_elem_of_lookup_2. apply range_up_lookup_Some; nia.
    + rewrite make_chunk_lookup by nia.
      rewrite decide_False by nia. rewrite decide_True by nia. by rewrite Hj.
Qed.

End BlockStackFacts.

(** ** Binary64: the conversion of an int and the quotient by 3

    [float(n)] and [float(n) / 3] are followed through the specification of
    the binary64 operations: an int below [2^53] converts exactly, and the
    quotient, rounded to nearest, never reaches the next integer. *)

Lemma digits2_pos_bounds (p : positive) :
  2 ^ (Z.pos (digits2_pos p) - 1) ≤ Z.pos p < 2 ^ Z.pos (digits2_pos p).
Proof.
  induction p as [p IH|p IH|]; simpl digits2_pos; [| |simpl; lia].
  all: rewrite Pos2Z.inj_succ;
    replace (Z.succ (Z.pos (digits2_pos p)) - 1) with (Z.succ (Z.pos (digits2_pos p) - 1)) by lia;
    rewrite !Z.pow_succ_r by lia; lia.
Qed.

Lemma Zdigits2_eq (z d : Z) :
  0 < d → 2 ^ (d - 1) ≤ z < 2 ^ d → Zdigits2 z = d.
Proof.
  intros Hd Hz.
  assert (0 < z) as Hpos by (pose proof (Z.pow_pos_nonneg 2 (d - 1)); lia).
  destruct z as [|p|p]; try lia. simpl.
  pose proof (digits2_pos_bounds p) as Hp.
  destruct (Z.lt_trichotomy (Z.pos (digits2_pos p)) d) as [Hlt|[Heq|Hgt]]; [|done|].
  - pose proof (Z.pow_le_mono_r 2 (Z.pos (digits2_pos p)) (d - 1)). lia.
  - pose proof (Z.pow_le_mono_r 2 d (Z.pos (digits2_pos p) - 1)). lia.
Qed.

Lemma digits2_pos_iter_xO (p k : positive) :
  digits2_pos (Pos.iter xO p k) = (digits2_pos p + k)%positive.
Proof.
  induction k as [|k IH] using Pos.peano_ind.
  - simpl. lia.
  - rewrite Pos.iter_succ. simpl. rewrite IH. lia.
Qed.

Lemma pos_iter_xO (p k : positive) :
  Z.pos (Pos.iter xO p k) = Z.pos p * 2 ^ Z.pos k.
Proof.
  induction k as [|k IH] using Pos.peano_ind.
  - simpl. lia.
  - rewrite Pos.iter_succ, Pos2Z.inj_xO, IH, Pos2Z.inj_succ, Z.pow_succ_r by lia. lia.
Qed.

(** A mantissa of 53 digits with an exponent in range is already rounded. *)
Lemma binary_round_aux_canonical (s : bool) (m : positive) (e : Z) :
  digits2_pos m = 53%positive → -1074 ≤ e ≤ 971 →
  binary_round_aux prec emax s (Z.pos m) e loc_Exact = S754_finite s m e.
Proof.
  intros Hd He. unfold binary_round_aux, shr_fexp. simpl Zdigits2. rewrite Hd.
  assert (fexp prec emax (53 + e) - e = 0) as Hshift.
  { unfold fexp, SpecFloat.emin, prec, emax. lia. }
  rewrite Hshift. simpl. rewrite Hd, Hshift. simpl.
  assert ((e <=? emax - prec) = true) as -> by (apply Z.leb_le; unfold emax, prec; lia).
  done.
Qed.

Lemma Prim2SF_float_of_int (n : Z) :
  0 < n < 2 ^ 53 →
  ∃ m e, Prim2SF (float_of_int n) = S754_finite false m e ∧
         digits2_pos m = 53%positive ∧ -52 ≤ e ≤ 0 ∧ Z.pos m = n * 2 ^ (- e).
Proof.
  intros Hn. unfold float_of_int.
  assert ((n <? 0) = false) as -> by (apply Z.ltb_ge; lia).
  rewrite FloatAxioms.of_uint63_spec, Uint63.of_Z_spec.
  assert (Uint63Axioms.wB = 2 ^ 63) as -> by reflexivity.
  rewrite Z.mod_small by lia.
  destruct n as [|p|p]; try lia. unfold binary_normalize, binary_round.
  pose proof (digits2_pos_bounds p) as Hp.
  assert (Z.pos (digits2_pos p) ≤ 53) as Hd.
  { destruct (Z.le_gt_cases (Z.pos (digits2_pos p)) 53) as [|Hgt]; [done|].
    pose proof (Z.pow_le_mono_r 2 53 (Z.pos (digits2_pos p) - 1)). lia. }
  assert (fexp prec emax (Z.pos (digits2_pos p) + 0) = Z.pos (digits2_pos p) - 53) as ->.
  { unfold fexp, SpecFloat.emin, prec, emax. lia. }
  unfold shl_align.
  destruct (Z.pos (digits2_pos p) - 53 - 0) as [|k|k] eqn:Hk; try lia.
  - exists p, 0. rewrite binary_round_aux_canonical by lia.
    split; [done|]. split; [lia|]. split; [lia|]. simpl. lia.
  - exists (Pos.iter xO p k), (Z.pos (digits2_pos p) - 53).
    rewrite binary_round_aux_canonical; [|rewrite digits2_pos_iter_xO; lia|lia].
    split; [done|]. split; [rewrite digits2_pos_iter_xO; lia|]. split; [lia|].
    rewrite pos_iter_xO. f_equal. f_equal. lia.
Qed.

Lemma quotient_floor (n t q : Z) :
  0 ≤ n → 4 ≤ t → q = n * t / 3 → q / t = n / 3 ∧ (q + 1) / t = n / 3.
Proof.
  intros Hn Ht ->.
  pose proof (Z.div_mod n 3 ltac:(lia)) as Hk.
  pose proof (Z.mod_pos_bound n 3 ltac:(lia)) as Hj.
  pose proof (Z.div_mod (n * t) 3 ltac:(lia)) as Hq.
  pose proof (Z.mod_pos_bound (n * t) 3 ltac:(lia)) as Hr.
  set (k := n / 3) in *. set (j := n mod 3) in *.
  set (q := n * t / 3) in *. set (r := (n * t) mod 3) in *.
  assert (k * t ≤ q) by nia.
  assert (q + 1 < (k + 1) * t) by nia.
  split; symmetry.
  - apply (Z.div_unique q t k (q - k * t)); [left; nia|lia].
  - apply (Z.div_unique (q + 1) t k (q + 1 - k * t)); [left; nia|lia].
Qed.

Lemma div_eucl_eq (a b : Z) : Z.div_eucl a b = (a / b, a mod b).
Proof. unfold Z.div, Z.modulo. by destruct (Z.div_eucl a b). Qed.

Lemma SFdiv_core_three (m1 : positive) (e1 : Z) :
  digits2_pos m1 = 53%positive → -52 ≤ e1 ≤ 0 →
  SFdiv_core_binary prec emax (Z.pos m1) e1 6755399441055744 (-51)
  = (4 * Z.pos m1 / 3, e1 - 2,
     match (4 * Z.pos m1) mod 3 with
     | 0 => loc_Exact
     | 1 => loc_Inexact Lt
     | _ => loc_Inexact Gt
     end).
Proof.
  intros Hd He. unfold SFdiv_core_binary.
  assert (Zdigits2 (Z.pos m1) = 53) as -> by (simpl; by rewrite Hd).
  assert (Zdigits2 6755399441055744 = 53) as -> by reflexivity.
  assert (Z.min (fexp prec emax (53 + e1 - (53 + -51))) (e1 - -51) = e1 - 2) as ->.
  { unfold fexp, SpecFloat.emin, prec, emax. lia. }
  replace (e1 - -51 - (e1 - 2)) with 53 by lia.
  rewrite Z.shiftl_mul_pow2 by lia.
  change IntDef.Z.div_eucl with Z.div_eucl. rewrite div_eucl_eq.
  assert (Z.pos m1 * 2 ^ 53 = (4 * Z.pos m1) * 2 ^ 51) as -> by lia.
  change 6755399441055744 with (3 * 2 ^ 51).
  rewrite Z.div_mul_cancel_r by lia.
  rewrite Z.mul_mod_distr_r by lia.
  f_equal.
  pose proof (Z.mod_pos_bound (4 * Z.pos m1) 3 ltac:(lia)) as Hr.
  assert ((4 * Z.pos m1) mod 3 = 0 ∨ (4 * Z.pos m1) mod 3 = 1 ∨ (4 * Z.pos m1) mod 3 = 2)
    as [->|[->| ->]] by lia; reflexivity.
Qed.

(** The last step of [binary_round_aux] on a mantissa of 53 digits, or on
    [2^53], the only mantissa of 54 digits a rounding up can reach. *)
Lemma shr_fexp_rounded (q e : Z) :
  2 ^ 52 ≤ q ≤ 2 ^ 53 → -1074 ≤ e ≤ 900 →
  (let '(mrs, e') := shr_fexp prec emax q e loc_Exact in
   match shr_m mrs with
   | 0 => S754_zero false
   | Z.pos m => if e' <=? emax - prec then S754_finite false m e' else S754_infinity false
   | Z.neg _ => S754_nan
   end)
  = if q =? 2 ^ 53 then S754_finite false (Z.to_pos (2 ^ 52)) (e + 1)
    else S754_finite false (Z.to_pos q) e.
Proof.
  intros Hq He. unfold shr_fexp.
  destruct (q =? 2 ^ 53) eqn:Hq53.
  - apply Z.eqb_eq in Hq53. subst q.
    assert (Zdigits2 (2 ^ 53) = 54) as -> by reflexivity.
    assert (fexp prec emax (54 + e) - e = 1) as ->.
    { unfold fexp, SpecFloat.emin, prec, emax. lia. }
    simpl.
    assert ((e + 1 <=? emax - prec) = true) as ->
      by (apply Z.leb_le; unfold emax, prec; lia).
    done.
  - apply Z.eqb_neq in Hq53.
    rewrite (Zdigits2_eq q 53) by lia.
    assert (fexp prec emax (53 + e) - e = 0) as ->.
    { unfold fexp, SpecFloat.emin, prec, emax. lia. }
    simpl. destruct q as [|p|p]; try lia.
    assert ((e <=? emax - prec) = true) as ->
      by (apply Z.leb_le; unfold emax, prec; lia).
    done.
Qed.

Lemma binary_round_aux_trunc (q e : Z) (l : location) :
  2 ^ 52 ≤ q < 2 ^ 54 - 2 → -60 ≤ e ≤ -2 →
  ∃ m3 e3,
    binary_round_aux prec emax false q e l = S754_finite false m3 e3 ∧ e3 < 0 ∧
    (Z.pos m3 / 2 ^ (- e3) = q / 2 ^ (- e) ∨
     Z.pos m3 / 2 ^ (- e3) = (q + 1) / 2 ^ (- e)).
Proof.
  intros Hq He. unfold binary_round_aux.
  destruct (Z.lt_ge_cases q (2 ^ 53)) as [Hlt|Hge].
  - (* 53 digits: no shift before rounding *)
    unfold shr_fexp at 1. rewrite (Zdigits2_eq q 53) by lia.
    assert (fexp prec emax (53 + e) - e = 0) as ->.
    { unfold fexp, SpecFloat.emin, prec, emax. lia. }
    unfold shr.
    assert (∀ q', (q' = q ∨ q' = q + 1) →
      ∃ m3 e3,
        (if q' =? 2 ^ 53 then S754_finite false (Z.to_pos (2 ^ 52)) (e + 1)
         else S754_finite false (Z.to_pos q') e) = S754_finite false m3 e3 ∧ e3 < 0 ∧
        (Z.pos m3 / 2 ^ (- e3) = q / 2 ^ (- e) ∨
         Z.pos m3 / 2 ^ (- e3) = (q + 1) / 2 ^ (- e))) as Hfin.
    { intros q' Hq'. destruct (q' =? 2 ^ 53) eqn:Hq53.
      - apply Z.eqb_eq in Hq53. do 2 eexists. split; [done|]. split; [lia|].
        right. assert (q + 1 = 2 ^ 53) as -> by lia.
        replace (- e) with (Z.succ (- (e + 1))) by lia.
        rewrite Z.pow_succ_r by lia.
        change (2 ^ 53) with (2 * 2 ^ 52).
        rewrite Z.div_mul_cancel_l; [|apply Z.pow_nonzero; lia|lia].
        done.
      - do 2 eexists. split; [done|]. split; [lia|].
        rewrite Z2Pos.id by lia. destruct Hq' as [-> | ->]; [by left|by right]. }
    assert (∀ q', (q' = q ∨ q' = q + 1) →
      ∃ m3 e3,
        (let '(mrs, e') := shr_fexp prec emax q' e loc_Exact in
         match shr_m mrs with
         | 0 => S754_zero false
         | Z.pos m => if e' <=? emax - prec then S754_finite false m e' else S754_infinity false
         | Z.neg _ => S754_nan
         end) = S754_finite false m3 e3 ∧ e3 < 0 ∧
        (Z.pos m3 / 2 ^ (- e3) = q / 2 ^ (- e) ∨
         Z.pos m3 / 2 ^ (- e3) = (q + 1) / 2 ^ (- e))) as Hround.
    { intros q' Hq'. rewrite shr_fexp_rounded by lia. by apply Hfin. }
    destruct l as [|[]]; simpl.
    + apply Hround. by left.
    + destruct (Z.even q); apply Hround; [by left|by right].
    + apply Hround. by left.
    + apply Hround. by right.
  - (* 54 digits: one bit is shifted out before rounding *)
    unfold shr_fexp at 1. rewrite (Zdigits2_eq q 54) by lia.
    assert (fexp prec emax (54 + e) - e = 1) as ->.
    { unfold fexp, SpecFloat.emin, prec, emax. lia. }
    unfold shr. simpl iter_pos.
    assert (2 ^ (- e) = 2 * 2 ^ (- (e + 1))) as Hpow.
    { replace (- e) with (Z.succ (- (e + 1))) by lia. by rewrite Z.pow_succ_r by lia. }
    assert (0 < 2 ^ (- (e + 1))) as Hpos by (apply Z.pow_pos_nonneg; lia).
    assert (∀ a : Z, (q = 2 * a ∨ q = 2 * a + 1 ∨ q + 1 = 2 * a) → 
      ∃ m3 e3,
        (let '(mrs, e') := shr_fexp prec emax a (e + 1) loc_Exact in
         match shr_m mrs with
         | 0 => S754_zero false
         | Z.pos m => if e' <=? emax - prec then S754_finite false m e' else S754_infinity false
         | Z.neg _ => S754_nan
         end) = S754_finite false m3 e3 ∧ e3 < 0 ∧
        (Z.pos m3 / 2 ^ (- e3) = q / 2 ^ (- e) ∨
         Z.pos m3 / 2 ^ (- e3) = (q + 1) / 2 ^ (- e))) as Hround.
    { intros a Ha. rewrite shr_fexp_rounded by lia.
      assert ((a =? 2 ^ 53) = false) as -> by (apply Z.eqb_neq; lia).
      do 2 eexists. split; [done|]. split; [lia|].
      rewrite Z2Pos.id by lia. rewrite Hpow.
      rewrite <- !Z.div_div by lia.
      destruct Ha as [Ha|[Ha|Ha]]; [left|left|right]; f_equal; rewrite Ha.
      - rewrite Z.mul_comm. by rewrite Z.div_mul by lia.
      - apply (Z.div_unique _ 2 a 1); lia.
      - rewrite Z.mul_comm. by rewrite Z.div_mul by lia. }
    destruct q as [|p|p]; try lia.
    destruct p as [p|p|]; try lia.
    + (* odd *)
      destruct l as [|[]]; simpl shr_1; simpl loc_of_shr_record; simpl shr_m;
        unfold round_nearest_even.
      * destruct (Z.even (Z.pos p)); apply Hround; lia.
      * apply Hround; lia.
      * apply Hround; lia.
      * apply Hround; lia.
    + (* even *)
      destruct l as [|[]]; simpl shr_1; simpl loc_of_shr_record; simpl shr_m;
        unfold round_nearest_even; apply Hround; lia.
Qed.

(** Truncating the binary64 quotient [float(n) / 3] of an int below [2^53]
    gives the integer quotient. *)
Lemma int_of_true_division (n : Z) :
  0 ≤ n < 2 ^ 53 → int_of_float (float_of_int n / 3) = Ok (n / 3).
Proof.
  intros Hn. destruct (decide (n = 0)) as [->|Hn0]; [by vm_compute|].
  destruct (Prim2SF_float_of_int n ltac:(lia)) as (m1 & e1 & Hx & Hd & He & Hm).
  unfold int_of_float. rewrite FloatAxioms.div_spec, Hx.
  assert (Prim2SF 3 = S754_finite false 6755399441055744 (-51)) as ->
    by (vm_compute; reflexivity).
  unfold FloatAxioms.SF64div, SFdiv. rewrite (SFdiv_core_three m1 e1 Hd He).
  pose proof (digits2_pos_bounds m1) as Hb. rewrite Hd in Hb.
  pose proof (Z.div_mod (4 * Z.pos m1) 3 ltac:(lia)) as Hq.
  pose proof (Z.mod_pos_bound (4 * Z.pos m1) 3 ltac:(lia)) as Hr.
  change (2 ^ (53 - 1)) with 4503599627370496 in Hb.
  change (2 ^ 53) with 9007199254740992 in Hb.
  destruct (binary_round_aux_trunc (4 * Z.pos m1 / 3) (e1 - 2)
              (match (4 * Z.pos m1) mod 3 with
               | 0 => loc_Exact | 1 => loc_Inexact Lt | _ => loc_Inexact Gt end))
    as (m3 & e3 & Hres & He3 & Hv).
  { change (2 ^ 52) with 4503599627370496. change (2 ^ 54) with 18014398509481984. lia. }
  { lia. }
  simpl xorb. rewrite Hres.
  assert ((0 <=? e3) = false) as -> by (apply Z.leb_gt; lia).
  f_equal.
  assert (2 ^ (- (e1 - 2)) = 4 * 2 ^ (- e1)) as Hpow.
  { replace (- (e1 - 2)) with (2 + - e1) by lia. by rewrite Z.pow_add_r by lia. }
  assert (0 < 2 ^ (- e1)) as Hpos by (apply Z.pow_pos_nonneg; lia).
  destruct (quotient_floor n (2 ^ (- (e1 - 2))) (4 * Z.pos m1 / 3)) as [Hlo Hhi];
    [lia|lia|f_equal; rewrite Hm, Hpow; lia|].
  destruct Hv as [-> | ->]; done.
Qed.

(** ** SwiGLUFFNFused: the hidden width *)


(** ** PatchEmbed *)

Lemma PatchEmbed_forward_returns (self : PatchEmbed.t) (x : Tensor) (b H W : Z) :
  0 < (PatchEmbed.patch_size self).1 →
  0 < (PatchEmbed.patch_size self).2 →
  PatchEmbed.flatten_embedding self = true →
  shape x = [b; PatchEmbed.in_chans self; H; W] →
  0 < H → 0 < W →
  H mod (PatchEmbed.patch_size self).1 = 0 →
  W mod (PatchEmbed.patch_size self).2 = 0 →
  returns (PatchEmbed.forward self x)
          [b; (H / (PatchEmbed.patch_size self).1) * (W / (PatchEmbed.patch_size self).2);
           PatchEmbed.embed_dim self].
Proof.
  intros Hph Hpw Hflat Hshape HH HW Hh Hw.
  unfold PatchEmbed.forward. rewrite Hshape, Hflat. simpl.
  destruct (PatchEmbed.patch_size self) as [ph pw] eqn:Hps. simpl in *.
  unfold pymod.
  assert ((ph =? 0) = false) as -> by (apply Z.eqb_neq; lia).
  assert ((pw =? 0) = false) as -> by (apply Z.eqb_neq; lia).
  simpl. rewrite Hh, Hw. simpl.
  assert (ph ≤ H).
  { destruct (Z.le_gt_cases ph H) as [|Hlt]; [done|].
    rewrite Z.mod_small in Hh by lia. lia. }
  assert (pw ≤ W).
  { destruct (Z.le_gt_cases pw W) as [|Hlt]; [done|].
    rewrite Z.mod_small in Hw by lia. lia. }
  unfold conv2d. rewrite Hshape. rewrite Z.eqb_refl.
  assert ((ph <=? 0) = false) as -> by (apply Z.leb_gt; lia).
  assert ((pw <=? 0) = false) as -> by (apply Z.leb_gt; lia).
  assert ((H <? ph) = false) as -> by (apply Z.ltb_ge; lia).
  assert ((W <? pw) = false) as -> by (apply Z.ltb_ge; lia).
  simpl.
  assert ((H - ph) / ph + 1 = H / ph) as ->.
  { rewrite <- Z.div_add by lia. f_equal. lia. }
  assert ((W - pw) / pw + 1 = W / pw) as ->.
  { rewrite <- Z.div_add by lia. f_equal. lia. }
  destruct (PatchEmbed.norm self); simpl.
  - unfold layer_norm. simpl. rewrite Z.eqb_refl. simpl.
    eexists. split; [done|]. simpl. do 2 f_equal. lia.
  - eexists. split; [done|]. simpl. do 2 f_equal. lia.
Qed.

Lemma PatchEmbed_forward_not_multiple (self : PatchEmbed.t) (x : Tensor) (b H W : Z) :
  (PatchEmbed.patch_size self).1 ≠ 0 →
  (PatchEmbed.patch_size self).2 ≠ 0 →
  shape x = [b; PatchEmbed.in_chans self; H; W] →
  H mod (PatchEmbed.patch_size self).1 ≠ 0 ∨ W mod (PatchEmbed.patch_size self).2 ≠ 0 →
  PatchEmbed.forward self x = Raise AssertionError.
Proof.
  intros Hph Hpw Hshape Hnot.
  unfold PatchEmbed.forward. rewrite Hshape. simpl.
  destruct (PatchEmbed.patch_size self) as [ph pw] eqn:Hps. simpl in *.
  unfold pymod.
  assert ((ph =? 0) = false) as -> by (apply Z.eqb_neq; lia).
  assert ((pw =? 0) = false) as -> by (apply Z.eqb_neq; lia).
  simpl. destruct Hnot as [Hh|Hw].
  - by assert ((H mod ph =? 0) = false) as -> by by apply Z.eqb_neq.
  - destruct (H mod ph =? 0); simpl; [|done].
    by assert ((W mod pw =? 0) = false) as -> by by apply Z.eqb_neq.
Qed.

(** C7.  On a batch whose height and width are positive multiples of the
    patch size, [PatchEmbed.forward] with [flatten_embedding] returns
    [(H / patch) * (W / patch)] tokens of [embed_dim] entries per image; when
    the height or the width is not a multiple of the patch size, it fails
    an assertion. *)
Theorem PatchEmbed_forward_tokens (self : PatchEmbed.t) (x : Tensor) (b H W : Z) :
  0 < (PatchEmbed.patch_size self).1 →
  0 < (PatchEmbed.patch_size self).2 →
  PatchEmbed.flatten_embedding self = true →
  shape x = [b; PatchEmbed.in_chans self; H; W] →
  let patch_h := (PatchEmbed.patch_size self).1 in
  let patch_w := (PatchEmbed.patch_size self).2 in
  (0 < H → 0 < W → H mod patch_h = 0 → W mod patch_w = 0 →
     ∃ y, PatchEmbed.forward self x = Ok y ∧
          shape y = [b; (H / patch_h) * (W / patch_w); PatchEmbed.embed_dim self]) ∧
  (H mod patch_h ≠ 0 ∨ W mod patch_w ≠ 0 →
     PatchEmbed.forward self x = Raise AssertionError).
Proof.
  intros Hph Hpw Hflat Hshape patch_h patch_w. split.
  - intros. by apply PatchEmbed_forward_returns.
  - intros. apply (PatchEmbed_forward_not_multiple self x b H W); [lia|lia|done..].
Qed.

(** ** MemEffAttention without xFormers *)

(** C4.  Without xFormers, [MemEffAttention.forward] raises when an
    attention bias is supplied, and without a bias it returns what
    [Attention.forward] returns on the same input. *)
Theorem MemEffAttention_without_xformers (self : Attention.t) (training : bool)
    (x : Tensor) :
  (∀ attn_bias,
     MemEffAttention.forward false self training x (Some attn_bias)
     = Raise AssertionError) ∧
  MemEffAttention.forward false self training x None
  = Attention.forward self training x.
Proof. split; [intros attn_bias|]; reflexivity. Qed.

(** ** Shape rules *)

Lemma returns_bind (r : result Tensor) (f : Tensor → result Tensor) s s' :
  returns r s → (∀ y, shape y = s → returns (f y) s') → returns (r ≫= f) s'.
Proof. intros (y & -> & Hy) Hf. by apply Hf. Qed.

Lemma returns_Ok (y : Tensor) s : shape y = s → returns (Ok y) s.
Proof. intros. by exists y. Qed.

Lemma returns_in_bind {G} (m : M G Tensor) (f : Tensor → M G Tensor) (g : G) s s' :
  returns_in m g s → (∀ y, shape y = s → returns_in (f y) g s') →
  returns_in (m ≫= f) g s'.
Proof.
  intros (y & Hm & Hy) Hf. unfold returns_in, mbind, M_bind. rewrite Hm. by apply Hf.
Qed.

Lemma returns_in_lift {G} (r : result Tensor) (g : G) s :
  returns r s → returns_in (lift r) g s.
Proof. intros (y & -> & Hy). by exists y. Qed.

Lemma filter_nonneg_unknown (target : list Z) :
  Forall (λ d, 0 ≤ d) target → filter (λ d, d = -1) target = [].
Proof.
  induction 1 as [|d target Hd _ IH]; [done|].
  rewrite filter_cons, decide_False by lia. done.
Qed.

Lemma reshape_returns (target : list Z) (x : Tensor) :
  Forall (λ d, 0 ≤ d) target →
  numel target = numel (shape x) →
  returns (reshape target x) target.
Proof.
  intros Hpos Hnumel. unfold reshape, infer_shape.
  rewrite bool_decide_eq_false_2; cycle 1.
  { intros Hex. apply Exists_exists in Hex as (d & Hd & Hlt).
    rewrite Forall_forall in Hpos. apply Hpos in Hd. lia. }
  rewrite filter_nonneg_unknown by done. simpl.
  rewrite Hnumel, Z.eqb_refl. simpl. by eexists.
Qed.

Lemma linear_returns name (i o : Z) (x : Tensor) (b n : Z) :
  shape x = [b; n; i] → returns (linear name i o x) [b; n; o].
Proof.
  intros Hs. unfold linear. rewrite Hs. simpl. rewrite Z.eqb_refl. by eexists.
Qed.

Lemma layer_norm_returns name (c : Z) (x : Tensor) (b n : Z) :
  shape x = [b; n; c] → returns (layer_norm name c x) [b; n; c].
Proof.
  intros Hs. unfold layer_norm. rewrite Hs. simpl. rewrite Z.eqb_refl. by eexists.
Qed.

Lemma broadcast_rev_refl (s : list Z) : broadcast_rev s s = Ok s.
Proof.
  induction s as [|d s IH]; [done|]. simpl. rewrite IH. simpl. by rewrite Z.eqb_refl.
Qed.

Lemma add_returns_same (x y : Tensor) s :
  shape x = s → shape y = s → returns (add x y) s.
Proof.
  intros Hx Hy. unfold add, binop, broadcast. rewrite Hx, Hy, broadcast_rev_refl.
  simpl. rewrite reverse_involutive. by eexists.
Qed.

Lemma mul_returns_gamma (x : Tensor) name (b n c : Z) :
  shape x = [b; n; c] → returns (mul x (mkTensor [c] (Param name))) [b; n; c].
Proof.
  intros Hx. unfold mul, binop, broadcast. rewrite Hx. simpl.
  rewrite Z.eqb_refl. by eexists.
Qed.

(** [x + pos] where [pos] has a single leading entry. *)
Lemma add_returns_broadcast0 (x y : Tensor) (b n c : Z) :
  shape x = [b; n; c] → shape y = [1; n; c] → returns (add x y) [b; n; c].
Proof.
  intros Hx Hy. unfold add, binop, broadcast. rewrite Hx, Hy. simpl.
  rewrite !Z.eqb_refl. simpl.
  destruct (b =? 1) eqn:Hb; simpl; by eexists.
Qed.

Lemma matmul_returns (x y : Tensor) (a b n k m : Z) :
  shape x = [a; b; n; k] → shape y = [a; b; k; m] →
  returns (matmul x y) [a; b; n; m].
Proof.
  intros Hx Hy. unfold matmul. rewrite Hx, Hy. simpl.
  rewrite Z.eqb_refl, bool_decide_eq_true_2 by done. by eexists.
Qed.

Lemma permute_qkv_returns (x : Tensor) (a b c d e : Z) :
  shape x = [a; b; c; d; e] →
  returns (permute [2; 0; 3; 1; 4]%nat x) [c; a; d; b; e].
Proof.
  intros Hs. unfold permute. rewrite Hs.
  rewrite decide_True by (apply (bool_decide_unpack _); by vm_compute).
  by eexists.
Qed.

Lemma select0_returns (i : Z) (x : Tensor) (n : Z) s :
  shape x = n :: s → - n ≤ i < n → returns (select0 i x) s.
Proof.
  intros Hs Hi. unfold select0. rewrite Hs.
  assert ((- n <=? i) && (i <? n) = true) as ->.
  { apply andb_true_intro. split; [apply Z.leb_le|apply Z.ltb_lt]; lia. }
  by eexists.
Qed.

Lemma transpose_23_returns (x : Tensor) (a b c d : Z) :
  shape x = [a; b; c; d] → returns (transpose 2 3 x) [a; b; d; c].
Proof. intros Hs. unfold transpose. rewrite Hs. simpl. by eexists. Qed.

Lemma transpose_12_returns (x : Tensor) (a b c d : Z) :
  shape x = [a; b; c; d] → returns (transpose 1 2 x) [a; c; b; d].
Proof. intros Hs. unfold transpose. rewrite Hs. simpl. by eexists. Qed.

(** [Attention.forward] keeps the shape of a batch of token sequences whose
    width is [num_heads * head_dim]. *)
Lemma Attention_forward_returns (self : Attention.t) (training : bool) (x : Tensor)
    (b n hd : Z) :
  0 ≤ b → 0 ≤ n → 0 ≤ hd → 0 < Attention.num_heads self →
  Attention.dim self = Attention.num_heads self * hd →
  shape x = [b; n; Attention.dim self] →
  returns (Attention.forward self training x) [b; n; Attention.dim self].
Proof.
  intros Hb Hn Hhd Hh Hdim Hs. unfold Attention.forward, unpack3.
  rewrite Hs. simpl.
  set (c := Attention.dim self) in *. set (h := Attention.num_heads self) in *.
  eapply returns_bind; [by apply linear_returns|]. intros qkv Hqkv.
  unfold floordiv. assert ((h =? 0) = false) as -> by (apply Z.eqb_neq; lia). simpl.
  assert (c / h = hd) as -> by (rewrite Hdim, Z.mul_comm; apply Z.div_mul; lia).
  eapply returns_bind.
  { apply reshape_returns; [repeat constructor; lia|].
    rewrite Hqkv. simpl. rewrite Hdim. lia. }
  intros qkv5 Hqkv5.
  eapply returns_bind; [by apply permute_qkv_returns|]. intros qkvp Hqkvp.
  eapply returns_bind; [by eapply select0_returns|]. intros q Hq.
  unfold mbind at 1, result_bind at 1.
  destruct (select0_returns 1 qkvp 3 _ Hqkvp ltac:(lia)) as (k & -> & Hk).
  unfold mbind at 1, result_bind at 1.
  destruct (select0_returns 2 qkvp 3 _ Hqkvp ltac:(lia)) as (v & -> & Hv).
  unfold mbind at 1, result_bind at 1.
  destruct (transpose_23_returns k _ _ _ _ Hk) as (kt & -> & Hkt).
  eapply returns_bind.
  { eapply matmul_returns; [|done]. simpl. exact Hq. }
  intros attn Hattn.
  eapply returns_bind.
  { eapply matmul_returns; [|done]. simpl. exact Hattn. }
  intros o Ho.
  eapply returns_bind; [by apply transpose_12_returns|]. intros ot Hot.
  eapply returns_bind.
  { apply reshape_returns; [repeat constructor; lia|].
    rewrite Hot. simpl. rewrite Hdim. lia. }
  intros r Hr.
  eapply returns_bind; [by apply linear_returns|]. intros p Hp.
  by apply returns_Ok.
Qed.

(** [MemEffAttention.forward] without a bias keeps the shape as well, with
    or without xFormers. *)
Lemma MemEffAttention_forward_returns (xformers : bool) (self : Attention.t)
    (training : bool) (x : Tensor) (b n hd : Z) :
  0 ≤ b → 0 ≤ n → 0 ≤ hd → 0 < Attention.num_heads self →
  Attention.dim self = Attention.num_heads self * hd →
  shape x = [b; n; Attention.dim self] →
  returns (MemEffAttention.forward xformers self training x None)
          [b; n; Attention.dim self].
Proof.
  intros Hb Hn Hhd Hh Hdim Hs. destruct xformers; simpl; cycle 1.
  { by eapply Attention_forward_returns. }
  unfold MemEffAttention.forward, unpack3. simpl. rewrite Hs. simpl.
  set (c := Attention.dim self) in *. set (h := Attention.num_heads self) in *.
  eapply returns_bind; [by apply linear_returns|]. intros qkv Hqkv.
  unfold floordiv. assert ((h =? 0) = false) as -> by (apply Z.eqb_neq; lia). simpl.
  assert (c / h = hd) as -> by (rewrite Hdim, Z.mul_comm; apply Z.div_mul; lia).
  eapply returns_bind.
  { apply reshape_returns; [repeat constructor; lia|].
    rewrite Hqkv. simpl. rewrite Hdim. lia. }
  intros qkv5 Hqkv5.
  unfold MemEffAttention.unbind2. rewrite Hqkv5. simpl.
  unfold MemEffAttention.memory_efficient_attention. simpl.
  rewrite !bool_decide_eq_true_2 by done. simpl.
  eapply returns_bind.
  { apply reshape_returns; [repeat constructor; lia|].
    simpl. rewrite Hdim. lia. }
  intros r Hr.
  eapply returns_bind; [by apply linear_returns|]. intros p Hp.
  by apply returns_Ok.
Qed.

Lemma Mlp_forward_returns (self : Mlp.t) (training : bool) (x : Tensor) (b n : Z) :
  shape x = [b; n; Mlp.in_features self] →
  returns (Mlp.forward self training x) [b; n; Mlp.out_features self].
Proof.
  intros Hs. unfold Mlp.forward.
  eapply returns_bind; [by apply linear_returns|]. intros y Hy.
  eapply returns_bind; [by apply linear_returns|]. intros z Hz.
  by apply returns_Ok.
Qed.

Lemma Block_ls_returns (blk : Block.t) name (x : Tensor) (b n : Z) :
  shape x = [b; n; Block.dim blk] →
  returns (Block.ls blk name x) [b; n; Block.dim blk].
Proof.
  intros Hs. unfold Block.ls, Block.LayerScale_forward.
  destruct (Block.layer_scale blk); [by apply mul_returns_gamma|by apply returns_Ok].
Qed.

Lemma Block_attn_residual_returns xformers (blk : Block.t) hd training (x : Tensor)
    (b n : Z) :
  plain_block blk hd → 0 ≤ b → 0 ≤ n →
  shape x = [b; n; Block.dim blk] →
  returns (Block.attn_residual_func xformers blk training x) [b; n; Block.dim blk].
Proof.
  intros (Hhd & Hh & Hdim & Hc & _) Hb Hn Hs. unfold Block.attn_residual_func.
  eapply returns_bind; [by apply layer_norm_returns|]. intros y Hy.
  eapply returns_bind; [|intros z Hz; by apply Block_ls_returns].
  unfold Block.attn_forward. rewrite <- Hdim in Hy, Hc |- *.
  destruct (Block.attn_cls blk).
  - by apply (Attention_forward_returns _ _ _ b n hd).
  - by apply (MemEffAttention_forward_returns _ _ _ _ b n hd).
Qed.

Lemma Block_ffn_residual_returns (blk : Block.t) hd training (x : Tensor) (b n : Z) :
  plain_block blk hd →
  shape x = [b; n; Block.dim blk] →
  returns (Block.ffn_residual_func blk training x) [b; n; Block.dim blk].
Proof.
  intros (_ & _ & _ & _ & m & Hm & Hin & Hout) Hs. unfold Block.ffn_residual_func.
  eapply returns_bind; [by apply layer_norm_returns|]. intros y Hy.
  eapply returns_bind; [|intros z Hz; by apply Block_ls_returns].
  unfold Block.mlp_forward. rewrite Hm, <- Hout.
  apply Mlp_forward_returns. by rewrite Hin.
Qed.

(** A block without drop path keeps the shape and the generator. *)
Lemma Block_forward_returns `{Generator G} xformers (blk : Block.t) hd training
    (x : Tensor) (b n : Z) (g : G) :
  plain_block blk hd → 0 ≤ b → 0 ≤ n →
  (0 <? Block.sample_drop_ratio blk)%float = false →
  shape x = [b; n; Block.dim blk] →
  returns_in (Block.forward xformers blk training x) g [b; n; Block.dim blk].
Proof.
  intros Hblk Hb Hn Hr Hs. unfold Block.forward, Block_forward_with.
  assert (training && (0.1 <? Block.sample_drop_ratio blk)%float = false) as ->.
  { destruct (0.1 <? _)%float eqn:Hr1; [|by rewrite andb_false_r].
    apply float_above_tenth_pos in Hr1. congruence. }
  rewrite Hr, andb_false_r.
  eapply returns_in_bind.
  { apply returns_in_lift. by apply (Block_attn_residual_returns _ _ hd _ _ b n). }
  intros r1 Hr1.
  eapply returns_in_bind.
  { apply returns_in_lift. by apply add_returns_same. }
  intros x1 Hx1.
  eapply returns_in_bind.
  { apply returns_in_lift. by apply (Block_ffn_residual_returns _ hd _ _ b n). }
  intros r2 Hr2.
  apply returns_in_lift. by apply add_returns_same.
Qed.

Lemma BlockChunk_forward_returns `{Generator G} xformers hd training
    (chunk : list (module Block.t)) (x : Tensor) (b n c : Z) (g : G) :
  Forall (λ m, match m with
               | Identity => True
               | Blk blk => plain_block blk hd ∧ Block.dim blk = c ∧
                            (0 <? Block.sample_drop_ratio blk)%float = false
               end) chunk →
  0 ≤ b → 0 ≤ n →
  shape x = [b; n; c] →
  returns_in (BlockChunk_forward (λ blk, Block.forward xformers blk training) chunk x)
             g [b; n; c].
Proof.
  intros Hchunk Hb Hn. revert x.
  induction Hchunk as [|m chunk Hm _ IH]; intros x Hs; simpl.
  { by exists x. }
  eapply returns_in_bind; [|by apply IH].
  destruct m as [|blk]; simpl.
  - by exists x.
  - destruct Hm as (Hblk & <- & Hr). by apply (Block_forward_returns _ _ hd).
Qed.

(** ** VisionTransformer: what [__init__] builds *)

Lemma result_bind_Ok_inv {A B} (r : result A) (f : A → result B) b :
  r ≫= f = Ok b → ∃ a, r = Ok a ∧ f a = Ok b.
Proof. destruct r as [a|e]; [by exists a|done]. Qed.

Lemma parameter_Ok name s t :
  VisionTransformer.parameter name s = Ok t → t = mkTensor s (Param name).
Proof. unfold VisionTransformer.parameter. by destruct (forallb _ _); intros [= <-]. Qed.

Lemma VisionTransformer_init_fields (a : VisionTransformer.args) (m : VisionTransformer.t) :
  VisionTransformer.init a = Ok m →
  PatchEmbed.init (VisionTransformer.img_size a) (VisionTransformer.patch_size a)
                  (VisionTransformer.in_chans a) (VisionTransformer.embed_dim a)
                  false true
  = Ok (VisionTransformer.patch_embed m) ∧
  VisionTransformer.pos_embed m
  = mkTensor [1; PatchEmbed.num_patches (VisionTransformer.patch_embed m) + 1;
              VisionTransformer.embed_dim a] (Param "pos_embed") ∧
  VisionTransformer.self_patch_size m = VisionTransformer.patch_size a ∧
  VisionTransformer.self_interpolate_offset m = VisionTransformer.interpolate_offset a.
Proof.
  unfold VisionTransformer.init. intros Hinit.
  apply result_bind_Ok_inv in Hinit as (pe & Hpe & Hinit).
  apply result_bind_Ok_inv in Hinit as (cls & Hcls & Hinit).
  apply result_bind_Ok_inv in Hinit as (pos & Hpos & Hinit).
  apply result_bind_Ok_inv in Hinit as (? & _ & Hinit).
  apply result_bind_Ok_inv in Hinit as (reg & _ & Hinit).
  apply result_bind_Ok_inv in Hinit as (ffn_layer & _ & Hinit).
  apply result_bind_Ok_inv in Hinit as (blocks_list & _ & Hinit).
  apply result_bind_Ok_inv in Hinit as (blocks & _ & Hinit).
  apply result_bind_Ok_inv in Hinit as (mask_token & _ & Hinit).
  injection Hinit as <-. simpl.
  apply parameter_Ok in Hpos. by subst.
Qed.

Lemma PatchEmbed_init_patch_nonzero img p in_chans embed_dim norm_layer flat pe :
  PatchEmbed.init img (IInt p) in_chans embed_dim norm_layer flat = Ok pe → p ≠ 0.
Proof.
  unfold PatchEmbed.init. intros Hinit.
  apply result_bind_Ok_inv in Hinit as (image_hw & _ & Hinit). simpl in Hinit.
  unfold floordiv in Hinit. destruct (p =? 0) eqn:Hp; [done|]. by apply Z.eqb_neq.
Qed.

(** ** The positional table *)

(** C2, as the code has it.  For every input whose token count is the one
    of the positional table and whose height equals its width (so for every
    input at the reference resolution of a model configured with a square
    reference resolution), [interpolate_pos_encoding] returns the stored
    positional table itself. *)
Theorem interpolate_pos_encoding_square_reference
    (a : VisionTransformer.args) (m : VisionTransformer.t) (x : Tensor) (w h : Z) :
  VisionTransformer.init a = Ok m →
  size (shape x) 1 = Ok (PatchEmbed.num_patches (VisionTransformer.patch_embed m) + 1) →
  w = h →
  VisionTransformer.interpolate_pos_encoding m x w h
  = Ok (VisionTransformer.pos_embed m).
Proof.
  intros Hinit Hx ->.
  destruct (VisionTransformer_init_fields _ _ Hinit) as (_ & Hpos & _).
  unfold VisionTransformer.interpolate_pos_encoding.
  rewrite Hx, Hpos. simpl. by rewrite !Z.eqb_refl.
Qed.

Lemma VisionTransformer_init_table (a : VisionTransformer.args) (m : VisionTransformer.t) :
  VisionTransformer.init a = Ok m →
  -1 ≤ PatchEmbed.num_patches (VisionTransformer.patch_embed m).
Proof.
  unfold VisionTransformer.init. intros Hinit.
  apply result_bind_Ok_inv in Hinit as (pe & Hpe & Hinit).
  apply result_bind_Ok_inv in Hinit as (cls & Hcls & Hinit).
  apply result_bind_Ok_inv in Hinit as (pos & Hpos & Hinit).
  apply result_bind_Ok_inv in Hinit as (? & _ & Hinit).
  apply result_bind_Ok_inv in Hinit as (reg & _ & Hinit).
  apply result_bind_Ok_inv in Hinit as (ffn_layer & _ & Hinit).
  apply result_bind_Ok_inv in Hinit as (blocks_list & _ & Hinit).
  apply result_bind_Ok_inv in Hinit as (blocks & _ & Hinit).
  apply result_bind_Ok_inv in Hinit as (mask_token & _ & Hinit).
  injection Hinit as <-. simpl.
  unfold VisionTransformer.parameter in Hpos.
  destruct (forallb _ _) eqn:Hall; [|done].
  simpl in Hall. apply andb_prop in Hall as [Hsize _]. apply Z.leb_le in Hsize. lia.
Qed.


(** ** The forward pass of [vit_small] *)

Lemma expand0_returns (b : Z) (x : Tensor) s :
  shape x = 1 :: s → returns (expand0 b x) (b :: s).
Proof. intros Hs. unfold expand0. rewrite Hs. simpl. by eexists. Qed.

Lemma cat2_returns (x y : Tensor) (b n1 n2 c : Z) :
  shape x = [b; n1; c] → shape y = [b; n2; c] →
  returns (cat 1 [x; y]) [b; n1 + n2; c].
Proof.
  intros Hx Hy. unfold cat. rewrite Hx. simpl. rewrite Hx, Hy. simpl.
  rewrite !bool_decide_eq_true_2 by done. simpl.
  eexists. split; [done|]. simpl. do 2 f_equal. lia.
Qed.

Lemma cat3_returns (x y z : Tensor) (b n1 n2 n3 c : Z) :
  shape x = [b; n1; c] → shape y = [b; n2; c] → shape z = [b; n3; c] →
  returns (cat 1 [x; y; z]) [b; n1 + n2 + n3; c].
Proof.
  intros Hx Hy Hz. unfold cat. rewrite Hx. simpl. rewrite Hx, Hy, Hz. simpl.
  rewrite !bool_decide_eq_true_2 by done. simpl.
  eexists. split; [done|]. simpl. do 2 f_equal. lia.
Qed.

Lemma slice1_returns (lo : Z) (hi : option Z) (x : Tensor) (b n c : Z) :
  shape x = [b; n; c] →
  returns (slice1 lo hi x)
          [b; Z.max 0 (clamp_index n (default n hi) - clamp_index n lo); c].
Proof. intros Hs. unfold slice1. rewrite Hs. by eexists. Qed.

Lemma vit_small_default :
  vit_small (IInt 14) VisionTransformer.defaults = Ok vit_small_model.
Proof. vm_compute. reflexivity. Qed.

Lemma vit_small_prepare_tokens (x : Tensor) (b : Z) :
  shape x = [b; 3; 224; 224] →
  returns (VisionTransformer.prepare_tokens_with_masks vit_small_model x None)
          [b; 258; 384].
Proof.
  intros Hx. unfold VisionTransformer.prepare_tokens_with_masks. rewrite Hx.
  cbn [mbind result_bind].
  eapply returns_bind.
  { by apply (PatchEmbed_forward_returns _ _ b 224 224). }
  intros tokens Htokens.
  change (224 / (14, 14).1 * (224 / (14, 14).2)) with 256 in Htokens.
  change (PatchEmbed.embed_dim _) with 384 in Htokens.
  rewrite Htokens. change (size [b; 256; 384] 0) with (Ok b). cbn [mbind result_bind].
  eapply returns_bind; [by apply expand0_returns|]. intros cls Hcls.
  eapply returns_bind; [by apply (cat2_returns _ _ b 1 256 384)|]. intros x0 Hx0.
  change (1 + 256) with 257 in Hx0.
  unfold VisionTransformer.interpolate_pos_encoding. rewrite Hx0.
  cbn [mbind result_bind size lookup list_lookup VisionTransformer.pos_embed
       vit_small_model shape].
  change ((257 - 1 =? 257 - 1) && (224 =? 224)) with true.
  cbn [mbind result_bind].
  eapply returns_bind.
  { by apply (add_returns_broadcast0 _ _ b 257 384). }
  intros x1 Hx1.
  cbn [VisionTransformer.register_tokens vit_small_model].
  rewrite Hx1. change (size [b; 257; 384] 0) with (Ok b). cbn [mbind result_bind].
  eapply returns_bind; [by apply (slice1_returns _ _ _ b 257 384)|]. intros first Hfirst.
  eapply returns_bind; [by apply expand0_returns|]. intros registers Hregisters.
  eapply returns_bind; [by apply (slice1_returns _ _ _ b 257 384)|]. intros rest Hrest.
  by apply (cat3_returns _ _ _ b 1 1 256 384).
Qed.

Lemma vit_small_forward_returns `{Generator G} (XFORMERS_AVAILABLE training : bool)
    (x : Tensor) (b : Z) (g : G) :
  0 ≤ b →
  shape x = [b; 3; 224; 224] →
  ∃ model cls_token second_token patch_tokens,
    vit_small (IInt 14) VisionTransformer.defaults = Ok model ∧
    VisionTransformer.forward XFORMERS_AVAILABLE model training x None false g
    = Ok (VisionTransformer.Tuple3 cls_token second_token patch_tokens, g) ∧
    shape cls_token = [b; 1; 384] ∧
    shape second_token = [b; 1; 384] ∧
    shape patch_tokens = [b; 256; 384].
Proof.
  intros Hb Hx. exists vit_small_model.
  destruct (vit_small_prepare_tokens x b Hx) as (tokens & Hprep & Htokens).
  assert (returns_in
            (forward_blocks (λ blk, Block.forward XFORMERS_AVAILABLE blk training)
                            (VisionTransformer.self_blocks vit_small_model) tokens)
            g [b; 258; 384]) as (y & Hblocks & Hy).
  { cbn [forward_blocks forward_chunks VisionTransformer.self_blocks vit_small_model].
    eapply returns_in_bind; [|intros y Hy; by exists y].
    apply (BlockChunk_forward_returns _ 64); [|done..].
    repeat constructor; try done; try lia.
    all: by eexists. }
  unfold VisionTransformer.forward, VisionTransformer.forward_features.
  unfold mbind at 1 2 3, M_bind at 1 2 3, lift at 1. rewrite Hprep, Hblocks.
  change (VisionTransformer.self_embed_dim vit_small_model) with 384.
  change (VisionTransformer.self_num_register_tokens vit_small_model + 1) with 2.
  destruct (layer_norm_returns "norm" 384 y b 258 Hy) as (x_norm & -> & Hnorm).
  destruct (slice1_returns 0 (Some 1) x_norm b 258 384 Hnorm) as (c1 & Hc1 & Hs1).
  destruct (slice1_returns 1 (Some 2) x_norm b 258 384 Hnorm) as (c2 & Hc2 & Hs2).
  destruct (slice1_returns 2 None x_norm b 258 384 Hnorm) as (pt & Hpt & Hs3).
  exists c1, c2, pt. split; [apply vit_small_default|].
  cbn [mbind result_bind]. rewrite Hc1. cbn [mbind result_bind].
  rewrite Hc2. cbn [mbind result_bind]. rewrite Hpt. by cbn.
Qed.

(** C1, as the code has it.  The forward pass of the [vit_small] preset
    (patch size 14, width 384, 12 blocks, one register token) in inference
    mode, on a batch of [b] images of 224 x 224 x 3, returns a 3-tuple whose
    first two elements have shape [[b, 1, 384]] (the slices [x_norm[:, :1]]
    and [x_norm[:, 1:2]] keep the token axis) and whose third element has
    shape [[b, 256, 384]]. *)
Theorem vit_small_forward_shapes `{Generator G} (XFORMERS_AVAILABLE training : bool)
    (x : Tensor) (b : Z) (g : G) :
  0 ≤ b →
  shape x = [b; 3; 224; 224] →
  ∃ model cls_token second_token patch_tokens,
    vit_small (IInt 14) VisionTransformer.defaults = Ok model ∧
    VisionTransformer.forward XFORMERS_AVAILABLE model training x None false g
    = Ok (VisionTransformer.Tuple3 cls_token second_token patch_tokens, g) ∧
    shape cls_token = [b; 1; 384] ∧
    shape second_token = [b; 1; 384] ∧
    shape patch_tokens = [b; 256; 384].
Proof. apply vit_small_forward_returns. Qed.

(** ** The attention-bias cache *)

Section AttnBiasCacheFacts.
Context {T : Type} `{Nestable T}.
Implicit Types (st : cache_state) (x_list : list T)
  (branges : option (list (list nat))) (key : shape_signature).

(** One call: the cache after it is the cache before it, or the cache before
    it with one entry more, under the signature of the call. *)
Lemma get_attn_bias_and_cat_cache xformers st x_list branges :
  let st' := (get_attn_bias_and_cat xformers st x_list branges).1 in
  st' = st ∨
  ∃ batch_sizes key,
    all_shapes_of x_list branges = Ok (batch_sizes, key) ∧
    attn_bias_cache st !! key = None ∧
    st' = mkCache (<[key := mkMask (masks_built st) (seqlens_of key) batch_sizes]>
                     (attn_bias_cache st))
                  (S (masks_built st)).
Proof.
  unfold get_attn_bias_and_cat.
  destruct (all_shapes_of x_list branges) as [[batch_sizes key]|e]; [|by left].
  destruct (attn_bias_cache st !! key) as [m|] eqn:Hkey; [by left|].
  destruct xformers; [|by left].
  right. by exists batch_sizes, key.
Qed.

Lemma get_attn_bias_and_cat_preserves xformers st x_list branges key m :
  attn_bias_cache st !! key = Some m →
  attn_bias_cache (get_attn_bias_and_cat xformers st x_list branges).1 !! key = Some m.
Proof.
  intros Hkey.
  destruct (get_attn_bias_and_cat_cache xformers st x_list branges)
    as [->|(bs & key' & _ & Hnone & ->)]; [done|].
  simpl. rewrite lookup_insert_ne; [done|]. intros ->. congruence.
Qed.

Lemma get_attn_bias_and_cat_calls_preserves xformers st calls key m :
  attn_bias_cache st !! key = Some m →
  attn_bias_cache (get_attn_bias_and_cat_calls xformers st calls) !! key = Some m.
Proof.
  revert st. induction calls as [|[x_list branges] calls IH]; intros st Hkey; [done|].
  simpl. apply IH. by apply get_attn_bias_and_cat_preserves.
Qed.

(** A call that returns a mask returns the entry of the cache under its
    signature, which is the entry that was there before when there was one. *)
Lemma get_attn_bias_and_cat_returns xformers st x_list branges st' attn_bias cat_tensors :
  get_attn_bias_and_cat xformers st x_list branges = (st', Ok (attn_bias, cat_tensors)) →
  ∃ batch_sizes key,
    all_shapes_of x_list branges = Ok (batch_sizes, key) ∧
    attn_bias_cache st' !! key = Some attn_bias ∧
    (∀ m, attn_bias_cache st !! key = Some m → attn_bias = m).
Proof.
  unfold get_attn_bias_and_cat.
  destruct (all_shapes_of x_list branges) as [[batch_sizes key]|e]; [|done].
  intros Hcall. exists batch_sizes, key. split; [done|].
  destruct (attn_bias_cache st !! key) as [m0|] eqn:Hkey.
  - injection Hcall as <- Hret.
    apply result_bind_Ok_inv in Hret as (c & _ & Hret).
    rewrite Hkey in Hret. injection Hret as <- <-. split; [done|]. congruence.
  - destruct xformers; [|done]. injection Hcall as <- Hret.
    apply result_bind_Ok_inv in Hret as (c & _ & Hret). simpl in *.
    rewrite lookup_insert_eq in Hret. injection Hret as <- <-.
    split; [by rewrite lookup_insert_eq|done].
Qed.


End AttnBiasCacheFacts.

(** ** Concrete runs *)

#[local] Existing Instance ordered_generator.
#[local] Existing Instance float_rows.

#[local] Instance ordered_generator_laws : GeneratorLaws unit.
Proof. split; intros; simpl; [done|by rewrite length_replicate]. Defined.

Lemma echo_branch_keeps_batch : keeps_batch (@echo_branch unit).
Proof. by intros x g y g' [= <- <-]. Qed.


(** Chunking four integer blocks in two chunks. *)
Lemma chunked_intermediate_layers_eq_witness :
  chunk_blocks 4 2 [1; 2; 3; 4]
  = Ok (ChunkedBlocks [[Blk 1; Blk 2]; [Identity; Identity; Blk 3; Blk 4]]) ∧
  _get_intermediate_layers_chunked add_block
    [[Blk 1; Blk 2]; [Identity; Identity; Blk 3; Blk 4]] 0 (Layers [1; 3]) tt
  = _get_intermediate_layers_not_chunked add_block [1; 2; 3; 4] 0 (Layers [1; 3]) tt.
Proof.
  split; [reflexivity|].
  apply (chunked_intermediate_layers_eq add_block 4 2 [1; 2; 3; 4]
           [[Blk 1; Blk 2]; [Identity; Identity; Blk 3; Blk 4]] eq_refl eq_refl).
Defined.


(** C8 as stated fails on a width that the binary64 quotient cannot
    resolve.  For a requested width of [3 * 2^54 + 16], whose double is an
    int that a binary64 holds exactly, the quotient [hidden * 2 / 3] is the
    binary64 [2^55 + 8] while [floor(hidden * 2 / 3)] is [2^55 + 10]: the
    layer gets a width of [2^55 + 8], below the scaled width, where
    [(floor(hidden * 2 / 3) + 7) // 8 * 8] is [2^55 + 16]. *)
Lemma SwiGLUFFNFused_hidden_width_counterexample :
  let hidden := 3 * 2 ^ 54 + 16 in
  (∃ m, Prim2SF (float_of_int (hidden * 2)) = S754_finite false m 4 ∧
        Z.pos m * 2 ^ 4 = hidden * 2) ∧
  int_of_float (float_of_int (hidden * 2) / 3) = Ok (2 ^ 55 + 8) ∧
  hidden * 2 / 3 = 2 ^ 55 + 10 ∧
  SwiGLUFFNFused.hidden_features 384 (Some hidden) = Ok (2 ^ 55 + 8) ∧
  (hidden * 2 / 3 + 7) / 8 * 8 = 2 ^ 55 + 16 ∧
  2 ^ 55 + 8 < hidden * 2 / 3.
Proof.
  cbv zeta. split_and!; try (vm_compute; reflexivity).
  eexists. split; vm_compute; reflexivity.
Qed.

(** Patches of 14 x 14 on images of 224 x 224: 256 tokens. *)
Lemma PatchEmbed_forward_tokens_witness :
  ∃ y, PatchEmbed.forward (VisionTransformer.patch_embed vit_small_model)
                          (images 2 224 224) = Ok y ∧
       shape y = [2; 224 / 14 * (224 / 14); 384].
Proof.
  apply (proj1 (PatchEmbed_forward_tokens
                  (VisionTransformer.patch_embed vit_small_model)
                  (images 2 224 224) 2 224 224
                  ltac:(simpl; lia) ltac:(simpl; lia) eq_refl eq_refl));
    simpl; first [lia | reflexivity].
Defined.

Lemma tiny_init_28_28 :
  VisionTransformer.init (tiny_args (IInt 28)) = Ok (tiny_model 28 28).
Proof. vm_compute. reflexivity. Qed.

Lemma tiny_init_28_56 :
  VisionTransformer.init (tiny_args (ITuple [28; 56])) = Ok (tiny_model 28 56).
Proof. vm_compute. reflexivity. Qed.

Lemma tiny_init_28_112 :
  VisionTransformer.init (tiny_args (ITuple [28; 112])) = Ok (tiny_model 28 112).
Proof. vm_compute. reflexivity. Qed.

(** C1 as stated fails: on a batch of two images the first two elements of
    the tuple have three axes, [[2, 1, 384]], not [[2, 384]]. *)
Lemma vit_small_forward_counterexample :
  ∃ model cls_token second_token patch_tokens,
    vit_small (IInt 14) VisionTransformer.defaults = Ok model ∧
    VisionTransformer.forward true model false (images 2 224 224) None false tt
    = Ok (VisionTransformer.Tuple3 cls_token second_token patch_tokens, tt) ∧
    shape cls_token = [2; 1; 384] ∧ shape cls_token ≠ [2; 384] ∧
    shape second_token = [2; 1; 384] ∧ shape second_token ≠ [2; 384].
Proof.
  destruct (vit_small_forward_returns true false (images 2 224 224) 2 tt)
    as (model & c1 & c2 & pt & Hmodel & Hrun & Hc1 & Hc2 & _); [lia|done|].
  exists model, c1, c2, pt. rewrite Hc1, Hc2. by split_and!.
Qed.

Lemma vit_small_forward_shapes_witness :
  0 ≤ 2 ∧ shape (images 2 224 224) = [2; 3; 224; 224] ∧
  ∃ model cls_token second_token patch_tokens,
    vit_small (IInt 14) VisionTransformer.defaults = Ok model ∧
    VisionTransformer.forward true model false (images 2 224 224) None false tt
    = Ok (VisionTransformer.Tuple3 cls_token second_token patch_tokens, tt) ∧
    shape cls_token = [2; 1; 384] ∧
    shape second_token = [2; 1; 384] ∧
    shape patch_tokens = [2; 256; 384].
Proof.
  split; [lia|]. split; [reflexivity|].
  apply (vit_small_forward_shapes true false (images 2 224 224) 2 tt);
    [lia|reflexivity].
Defined.

(** C2 as stated fails: a model configured with a reference resolution of
    28 x 56 has a table for 8 patches; on an input at that very resolution
    (8 patch tokens and the class token) [interpolate_pos_encoding] leaves
    the fast path, because the height differs from the width, and fails its
    assertion; so does the forward pass on such an image. *)
Lemma interpolate_pos_encoding_counterexample :
  ∃ model,
    VisionTransformer.init (tiny_args (ITuple [28; 56])) = Ok model ∧
    PatchEmbed.img_size (VisionTransformer.patch_embed model) = (28, 56) ∧
    size (shape (tokens 1 9 8)) 1 = size (shape (VisionTransformer.pos_embed model)) 1 ∧
    VisionTransformer.interpolate_pos_encoding model (tokens 1 9 8) 28 56
    = Raise AssertionError ∧
    VisionTransformer.interpolate_pos_encoding model (tokens 1 9 8) 28 56
    ≠ Ok (VisionTransformer.pos_embed model) ∧
    VisionTransformer.prepare_tokens_with_masks model (images 1 28 56) None
    = Raise AssertionError.
Proof.
  exists (tiny_model 28 56). split; [apply tiny_init_28_56|].
  split_and!; try (vm_compute; reflexivity). by vm_compute.
Qed.

Lemma interpolate_pos_encoding_square_reference_witness :
  VisionTransformer.init (tiny_args (IInt 28)) = Ok (tiny_model 28 28) ∧
  VisionTransformer.interpolate_pos_encoding (tiny_model 28 28) (tokens 1 5 8) 28 28
  = Ok (VisionTransformer.pos_embed (tiny_model 28 28)).
Proof.
  split; [apply tiny_init_28_28|].
  apply (interpolate_pos_encoding_square_reference (tiny_args (IInt 28)));
    [apply tiny_init_28_28|reflexivity|reflexivity].
Defined.


Lemma eight_not_square (k : Z) : 8 ≠ k * k.
Proof.
  assert (k ≤ -3 ∨ -2 ≤ k ≤ 2 ∨ 3 ≤ k) as [?|[?|?]] by lia; nia.
Qed.


(** ** Packing and splitting sequences *)

Section Packing.
Context {A : Type}.
Implicit Types (s : list A) (ss : list (list A)).

Lemma join_cons s ss : mjoin (s :: ss) = s ++ mjoin ss.
Proof. done. Qed.

Lemma reshape_join ss : list.reshape (length <$> ss) (mjoin ss) = ss.
Proof.
  induction ss as [|s ss IH]; [done|].
  rewrite fmap_cons, join_cons. cbn [list.reshape]. by rewrite take_app_length, drop_app_length, IH.
Qed.

Lemma fmap_join (f : A → A) ss : f <$> mjoin ss = mjoin ((λ s, f <$> s) <$> ss).
Proof.
  induction ss as [|s ss IH]; [done|].
  by rewrite fmap_cons, !join_cons, fmap_app, IH.
Qed.

Lemma zip_with_join (f : A → A → A) (h : list A → list A) ss :
  (∀ s, length (h s) = length s) →
  zip_with f (mjoin ss) (mjoin (h <$> ss)) = mjoin ((λ s, zip_with f s (h s)) <$> ss).
Proof.
  intros Hh. induction ss as [|s ss IH]; [done|].
  rewrite !fmap_cons, !join_cons, zip_with_app by by rewrite Hh. by rewrite IH.
Qed.

Lemma zip_with_rows (f : A → A → A) (h : list A → list A) ss :
  zip_with (zip_with f) ss (h <$> ss) = (λ s, zip_with f s (h s)) <$> ss.
Proof.
  induction ss as [|s ss IH]; [done|].
  rewrite !fmap_cons. cbn [zip_with]. by rewrite IH.
Qed.

Lemma length_join_same ss n :
  Forall (λ s, length s = n) ss → length (mjoin ss) = (length ss * n)%nat.
Proof.
  induction 1 as [|s ss Hs _ IH]; [done|].
  rewrite join_cons, length_app, IH, Hs. simpl. lia.
Qed.

Lemma reshape_join_same ss n :
  Forall (λ s, length s = n) ss →
  list.reshape (replicate (length ss) n) (mjoin ss) = ss.
Proof.
  intros Hss. transitivity (list.reshape (length <$> ss) (mjoin ss));
    [|apply reshape_join].
  f_equal. induction Hss as [|s ss Hs _ IH]; [done|].
  rewrite fmap_cons. cbn [length replicate]. by rewrite IH, Hs.
Qed.

End Packing.

Lemma mapM_Ok {A B} (f : A → B) (l : list A) :
  mapM (M := result) (λ a, Ok (f a)) l = Ok (f <$> l).
Proof.
  induction l as [|a l IH]; [done|].
  cbn [mapM mbind result_bind]. by rewrite IH.
Qed.

Lemma mapM_ext_Ok {A B} (f : A → result B) (g : A → B) (l : list A) :
  Forall (λ a, f a = Ok (g a)) l → mapM (M := result) f l = Ok (g <$> l).
Proof.
  induction 1 as [|a l Ha _ IH]; [done|].
  cbn [mapM]. by rewrite Ha, IH.
Qed.

(** ** Nested tensors of tokens *)

Section TokenTensorFacts.
Context {Tok G : Type} `{TokOps Tok} `{Generator G} (tb : token_block (Tok := Tok)).
Implicit Types (x : TokTensor Tok) (s : list Tok) (ss : list (list Tok)).

Lemma tok_map_id x : tok_map (λ t, t) x = x.
Proof.
  destruct x as [n ss]. unfold tok_map. simpl. f_equal.
  induction ss as [|s ss IH]; [done|]. rewrite fmap_cons, IH. by rewrite list_fmap_id.
Qed.

Lemma nt_ls_token (ls : option (Tok → Tok)) x :
  nt_ls ((λ f x, Ok (tok_map f x)) <$> ls) x = Ok (tok_map (ls_token ls) x).
Proof. destruct ls as [f|]; simpl; [done|]. by rewrite tok_map_id. Qed.

Lemma length_sample_forward s : length (sample_forward tb s) = length s.
Proof.
  unfold sample_forward, attn_branch, ffn_branch, attend_sequence.
  rewrite !length_zip_with, !length_fmap, !length_zip_with, !length_fmap. lia.
Qed.

Lemma length_attn_branch s : length (attn_branch tb s) = length s.
Proof. unfold attn_branch, attend_sequence. by rewrite !length_fmap. Qed.

Lemma length_ffn_branch s : length (ffn_branch tb s) = length s.
Proof. unfold ffn_branch. by rewrite length_fmap. Qed.

(** [x + y] on tensors of tokens whose samples pair up. *)
Lemma tok_tadd_rows x (h : list Tok → list Tok) :
  tadd x (mkTok (seq_len x) (h <$> samples x))
  = Ok (mkTok (seq_len x) ((λ s, zip_with tok_add s (h s)) <$> samples x)).
Proof.
  simpl. unfold tok_same_len. rewrite decide_True by done. simpl.
  unfold rows_add. rewrite decide_True by by rewrite length_fmap. simpl.
  by rewrite zip_with_rows.
Qed.

(** The block on one tensor, in eval mode or without drop path: every
    sample goes through [sample_forward]. *)
Lemma token_block_forward_tensor (training : bool) x (g : G) :
  training = false ∨ (0 <? tb_sample_drop_ratio tb)%float = false →
  NestedTensorBlock_forward_tensor (token_nested_block tb) training x g
  = Ok (mkTok (seq_len x) (sample_forward tb <$> samples x), g).
Proof.
  intros Hmode. unfold NestedTensorBlock_forward_tensor, Block_forward_with.
  cbn [nt_sample_drop_ratio token_nested_block].
  assert (training && (0.1 <? tb_sample_drop_ratio tb)%float = false) as ->.
  { destruct Hmode as [->|Hr0]; [done|].
    destruct (0.1 <? _)%float eqn:Hr1; [|by rewrite andb_false_r].
    apply float_above_tenth_pos in Hr1. congruence. }
  assert (training && (0 <? tb_sample_drop_ratio tb)%float = false) as ->.
  { destruct Hmode as [-> | ->]; [done|by rewrite andb_false_r]. }
  cbn [nt_norm1 nt_attn nt_ls1 nt_norm2 nt_mlp nt_ls2 token_nested_block
       mbind result_bind M_bind lift].
  rewrite !nt_ls_token.
  assert (tok_map (ls_token (tb_ls1 tb))
            (attention_plain (tb_attend tb) (tok_map (tb_norm1 tb) x))
          = mkTok (seq_len x) (attn_branch tb <$> samples x)) as ->.
  { unfold tok_map, attention_plain, attn_branch. simpl. f_equal.
    rewrite <- !list_fmap_compose. done. }
  unfold mbind, M_bind, lift. cbn beta iota.
  rewrite tok_tadd_rows. cbn beta iota.
  set (x1 := mkTok (seq_len x) ((λ s, zip_with tok_add s (attn_branch tb s)) <$> samples x)).
  rewrite !nt_ls_token.
  assert (tok_map (ls_token (tb_ls2 tb)) (tok_map (tb_mlp tb) (tok_map (tb_norm2 tb) x1))
          = mkTok (seq_len x1) (ffn_branch tb <$> samples x1)) as ->.
  { unfold tok_map, ffn_branch. simpl. f_equal.
    rewrite <- !list_fmap_compose. apply list_fmap_ext. intros i s _. simpl.
    by rewrite <- !list_fmap_compose. }
  rewrite tok_tadd_rows. unfold x1. simpl.
  rewrite <- list_fmap_compose. done.
Qed.

Lemma sum_seqlens ss :
  foldr Z.add 0 ((λ s, Z.of_nat (length s)) <$> ss) = Z.of_nat (length (mjoin ss)).
Proof.
  induction ss as [|s ss IH]; [done|].
  rewrite fmap_cons, join_cons, length_app. cbn [foldr]. rewrite IH. lia.
Qed.

Lemma length_join_fmap (h : list Tok → list Tok) ss :
  (∀ s, length (h s) = length s) → length (mjoin (h <$> ss)) = length (mjoin ss).
Proof.
  intros Hh. induction ss as [|s ss IH]; [done|].
  rewrite fmap_cons, !join_cons, !length_app, IH, Hh. done.
Qed.

Lemma tok_map_single (f : Tok → Tok) n (toks : list Tok) :
  tok_map f (mkTok n [toks]) = mkTok n [f <$> toks].
Proof. done. Qed.

Lemma attention_block_diagonal_single (attn_bias : BlockDiagonalMask) ss n :
  seqlens attn_bias = (λ s, Z.of_nat (length s)) <$> ss →
  attention_block_diagonal (tb_attend tb) attn_bias (mkTok n [mjoin ss])
  = Ok (mkTok n [mjoin (attend_sequence (tb_attend tb) <$> ss)]).
Proof.
  intros Hmask. unfold attention_block_diagonal. cbn [samples seq_len].
  rewrite decide_True by by rewrite Hmask, sum_seqlens.
  assert (list.reshape (Z.to_nat <$> seqlens attn_bias) (mjoin ss) = ss) as ->; [|done].
  transitivity (list.reshape (length <$> ss) (mjoin ss)); [|apply reshape_join].
  f_equal. rewrite Hmask, <- !list_fmap_compose. apply list_fmap_ext.
  intros i s _. simpl. by rewrite Nat2Z.id.
Qed.

Lemma tok_tadd_single n (F A : list Tok) :
  tadd (mkTok n [F]) (mkTok n [A]) = Ok (mkTok n [zip_with tok_add F A]).
Proof. apply (tok_tadd_rows (mkTok n [F]) (λ _, A)). Qed.

(** The packed pass of [forward_nested] in eval mode: under the mask of the
    sequences [ss], the packed sequence comes out as the sequences that
    [sample_forward] makes of them, packed. *)
Lemma token_block_packed ss (attn_bias : BlockDiagonalMask) :
  seqlens attn_bias = (λ s, Z.of_nat (length s)) <$> ss →
  let self := token_nested_block tb in
  (a ← (y ← nt_norm1 self (packed (mjoin ss));
        y ← nt_attn self y (Some attn_bias);
        nt_ls (nt_ls1 self) y);
   x1 ← tadd (packed (mjoin ss)) a;
   f ← (y ← nt_norm2 self x1; y ← nt_mlp self y; nt_ls (nt_ls2 self) y);
   tadd x1 f)
  = Ok (packed (mjoin (sample_forward tb <$> ss))).
Proof.
  intros Hmask. cbv zeta.
  cbn [nt_norm1 nt_attn nt_ls1 nt_norm2 nt_mlp nt_ls2 token_nested_block].
  unfold packed at 1 2. set (n := length (mjoin ss)).
  cbn [mbind result_bind]. rewrite tok_map_single, fmap_join.
  rewrite attention_block_diagonal_single; cycle 1.
  { rewrite Hmask, <- list_fmap_compose. apply list_fmap_ext. intros i s _. simpl.
    by rewrite length_fmap. }
  cbn [mbind result_bind]. rewrite nt_ls_token. cbn [mbind result_bind].
  rewrite tok_map_single, fmap_join, <- !list_fmap_compose.
  rewrite tok_tadd_single. cbn [mbind result_bind].
  rewrite (zip_with_join tok_add (attn_branch tb)) by apply length_attn_branch.
  rewrite nt_ls_token. cbn [mbind result_bind].
  rewrite !tok_map_single, <- !list_fmap_compose.
  rewrite tok_tadd_single.
  change (ls_token (tb_ls2 tb) ∘ tb_mlp tb ∘ tb_norm2 tb <$> ?l) with (ffn_branch tb l).
  unfold ffn_branch at 1. rewrite fmap_join.
  rewrite (zip_with_join tok_add (ffn_branch tb)) by apply length_ffn_branch.
  rewrite <- list_fmap_compose.
  change (mjoin (_ <$> ss)) with (mjoin (sample_forward tb <$> ss)).
  unfold packed. do 2 f_equal. unfold n. symmetry.
  apply (length_join_fmap (sample_forward tb)), length_sample_forward.
Qed.

Implicit Types (y : TokTensor Tok) (x_list ys : list (TokTensor Tok)).

Lemma all_samples_cons x x_list :
  all_samples (x :: x_list) = samples x ++ all_samples x_list.
Proof. done. Qed.

Lemma token_signature_cons x x_list :
  token_signature (x :: x_list)
  = (Z.of_nat (length (samples x)), Z.of_nat (seq_len x)) :: token_signature x_list.
Proof. done. Qed.

Lemma seqlens_of_cons b n (key : shape_signature) :
  seqlens_of ((b, n) :: key) = replicate (Z.to_nat b) n ++ seqlens_of key.
Proof. done. Qed.

(** The key and the batch sizes [get_attn_bias_and_cat] computes for tensors
    of tokens. *)
Lemma all_shapes_of_tokens x_list :
  all_shapes_of x_list None
  = Ok ((λ x, Z.of_nat (length (samples x))) <$> x_list, token_signature x_list).
Proof.
  unfold all_shapes_of, batch_sizes_of. cbn [nshape0 nshape1 token_nestable].
  rewrite mapM_Ok. cbn [mbind result_bind].
  rewrite (mapM_ext_Ok _ (λ '(b, x), (b, Z.of_nat (seq_len x)))).
  - cbn [mbind result_bind mret result_ret]. do 2 f_equal.
    induction x_list as [|x x_list IH]; [done|].
    rewrite fmap_cons, token_signature_cons. cbn [zip zip_with fmap list_fmap].
    f_equal. apply IH.
  - apply Forall_forall. by intros [b x] _.
Qed.

Lemma replicate_lengths ss (n : nat) :
  Forall (λ s, length s = n) ss →
  replicate (length ss) (Z.of_nat n) = (λ s, Z.of_nat (length s)) <$> ss.
Proof.
  induction 1 as [|s ss Hs _ IH]; [done|].
  rewrite fmap_cons. cbn [length replicate]. by rewrite IH, Hs.
Qed.

(** The sequence lengths of the mask are the lengths of the samples. *)
Lemma seqlens_of_tokens x_list :
  Forall tok_wf x_list →
  seqlens_of (token_signature x_list)
  = (λ s, Z.of_nat (length s)) <$> all_samples x_list.
Proof.
  induction 1 as [|x x_list Hx _ IH]; [done|].
  rewrite token_signature_cons, seqlens_of_cons, all_samples_cons, fmap_app, IH.
  f_equal. rewrite Nat2Z.id. by apply replicate_lengths.
Qed.

Lemma cat_packed_tokens x_list :
  x_list ≠ [] → cat_packed x_list = Ok (packed (mjoin (all_samples x_list))).
Proof. by destruct x_list. Qed.

(** [get_attn_bias_and_cat(x_list)] on tensors of tokens: all the samples
    packed into one sequence, and the mask of their lengths. *)
Lemma get_attn_bias_and_cat_tokens (st : cache_state) x_list :
  cache_ok st → x_list ≠ [] → Forall tok_wf x_list →
  ∃ st' attn_bias,
    get_attn_bias_and_cat true st x_list None
    = (st', Ok (attn_bias, packed (mjoin (all_samples x_list))))
    ∧ seqlens attn_bias = (λ s, Z.of_nat (length s)) <$> all_samples x_list
    ∧ _batch_sizes attn_bias = (λ x, Z.of_nat (length (samples x))) <$> x_list
    ∧ cache_ok st'.
Proof.
  intros Hst Hne Hwf. unfold get_attn_bias_and_cat.
  rewrite all_shapes_of_tokens, (cat_packed_tokens _ Hne).
  assert ((token_signature x_list).*1
          = (λ x, Z.of_nat (length (samples x))) <$> x_list) as Hfst.
  { unfold token_signature. by rewrite <- list_fmap_compose. }
  destruct (attn_bias_cache st !! token_signature x_list) as [m|] eqn:Hm.
  - exists st, m. rewrite Hm. cbn [mbind result_bind].
    destruct (Hst _ _ Hm) as [Hs Hb].
    by rewrite Hs, Hb, (seqlens_of_tokens _ Hwf), Hfst.
  - eexists _, _. cbn [attn_bias_cache]. rewrite lookup_insert_eq.
    cbn [mbind result_bind seqlens _batch_sizes].
    split_and!; [done|by apply seqlens_of_tokens|done|].
    intros key m. cbn [attn_bias_cache]. intros [[<- <-]|[_ Hkey]]%lookup_insert_Some.
    + by rewrite Hfst.
    + by apply Hst.
Qed.

Lemma sum_replicate (k : nat) (n : Z) :
  foldr Z.add 0 (replicate k n) = Z.of_nat k * n.
Proof. induction k as [|k IH]; [done|]. cbn [replicate foldr]. rewrite IH. lia. Qed.

(** The chunks [attn_bias.split] cuts are the tensors of the list, each
    flattened to one sequence. *)
Lemma split_chunks_tokens ys :
  Forall tok_wf ys →
  split_chunks (seqlens_of (token_signature ys))
               ((λ y, Z.of_nat (length (samples y))) <$> ys)
  = Ok ((λ y, length (mjoin (samples y))) <$> ys).
Proof.
  induction 1 as [|y ys Hy _ IH]; [done|].
  rewrite token_signature_cons, seqlens_of_cons, !fmap_cons. cbn [split_chunks].
  rewrite !Nat2Z.id.
  rewrite decide_True by (rewrite length_app, length_replicate; lia).
  rewrite drop_app_length' by by rewrite length_replicate.
  rewrite take_app_length' by by rewrite length_replicate.
  rewrite IH. cbn [mbind result_bind mret result_ret]. do 2 f_equal.
  rewrite sum_replicate, (length_join_same _ _ Hy). lia.
Qed.

Lemma join_all_samples ys :
  mjoin (all_samples ys) = mjoin ((λ y, mjoin (samples y)) <$> ys).
Proof.
  induction ys as [|y ys IH]; [done|].
  by rewrite all_samples_cons, fmap_cons, join_cons, join_app, IH.
Qed.

Lemma reshape_chunk_samples y :
  tok_wf y → samples y ≠ [] →
  reshape_chunk (Z.of_nat (length (samples y))) (mjoin (samples y)) = Ok y.
Proof.
  destruct y as [n ss]. unfold tok_wf. cbn [samples seq_len]. intros Hwf Hne.
  assert (0 < length ss)%nat as Hpos by (destruct ss; [done|simpl; lia]).
  unfold reshape_chunk. rewrite (length_join_same _ _ Hwf), Nat2Z.id.
  assert ((Z.of_nat (length ss) <=? 0) = false) as -> by lia.
  rewrite Nat2Z.inj_mul, Z.mul_comm, Z.mod_mul by lia.
  cbn [orb negb Z.eqb]. rewrite Nat.mul_comm, Nat.div_mul by lia.
  by rewrite (reshape_join_same _ _ Hwf).
Qed.

Lemma mapM_zip_fmap {A B C} (h : B * C → result A) (f : A → B) (k : A → C)
    (l : list A) :
  Forall (λ a, h (f a, k a) = Ok a) l →
  mapM (M := result) h (zip (f <$> l) (k <$> l)) = Ok l.
Proof.
  induction 1 as [|a l Ha _ IH]; [done|].
  rewrite !fmap_cons. cbn [zip zip_with mapM]. by rewrite Ha, IH.
Qed.

(** [attn_bias.split] gives back the tensors that were packed. *)
Lemma tok_split_packed (attn_bias : BlockDiagonalMask) ys :
  Forall tok_wf ys → Forall (λ y, samples y ≠ []) ys →
  seqlens attn_bias = seqlens_of (token_signature ys) →
  _batch_sizes attn_bias = (λ y, Z.of_nat (length (samples y))) <$> ys →
  tok_split attn_bias (packed (mjoin (all_samples ys))) = Ok ys.
Proof.
  intros Hwf Hne Hs Hb. unfold tok_split, packed. cbn [samples].
  rewrite decide_True by by rewrite Hs, (seqlens_of_tokens _ Hwf), sum_seqlens.
  rewrite Hs, Hb, (split_chunks_tokens _ Hwf). cbn [mbind result_bind].
  rewrite join_all_samples.
  rewrite decide_True; cycle 1.
  { clear. induction ys as [|y ys IH]; [done|].
    rewrite !fmap_cons, join_cons, length_app. cbn [sum_list sum_list_with].
    by rewrite <- IH. }
  assert ((λ y, length (mjoin (samples y))) <$> ys
          = length <$> ((λ y, mjoin (samples y)) <$> ys)) as ->
    by by rewrite <- list_fmap_compose.
  rewrite reshape_join.
  apply mapM_zip_fmap. apply Forall_forall. intros y Hy.
  apply reshape_chunk_samples.
  - by eapply Forall_forall in Hwf.
  - by eapply Forall_forall in Hne.
Qed.

(** The tensors the block makes of the tensors of a list have their shapes. *)
Lemma token_forward_wf x : tok_wf x → tok_wf (token_forward tb x).
Proof.
  unfold tok_wf, token_forward. cbn [samples seq_len]. intros Hx.
  apply Forall_fmap. eapply Forall_impl; [apply Hx|]. intros s Hs. simpl.
  by rewrite length_sample_forward.
Qed.

Lemma token_forward_signature x_list :
  token_signature (token_forward tb <$> x_list) = token_signature x_list.
Proof.
  unfold token_signature. rewrite <- list_fmap_compose. apply list_fmap_ext.
  intros i x _. simpl. by rewrite length_fmap.
Qed.

Lemma token_forward_samples x_list :
  all_samples (token_forward tb <$> x_list) = sample_forward tb <$> all_samples x_list.
Proof.
  induction x_list as [|x x_list IH]; [done|].
  by rewrite fmap_cons, !all_samples_cons, fmap_app, IH.
Qed.

Lemma forward_nested_eval_run (st : cache_state) x_list (g : G) :
  cache_ok st → x_list ≠ [] → Forall tok_wf x_list →
  Forall (λ x, samples x ≠ []) x_list →
  ∃ st',
    forward_nested true (token_nested_block tb) false st x_list g
    = (st', Ok (token_forward tb <$> x_list, g))
    ∧ cache_ok st'.
Proof.
  intros Hst Hne Hwf Hpos.
  destruct (get_attn_bias_and_cat_tokens st x_list Hst Hne Hwf)
    as (st' & m & Hget & Hs & Hb & Hst').
  exists st'. split; [|done].
  unfold forward_nested. cbn [nt_attn_is_mem_eff token_nested_block negb andb].
  rewrite Hget. f_equal.
  pose proof (token_block_packed (all_samples x_list) m Hs) as Hp.
  cbv zeta in Hp. revert Hp.
  cbn [mbind result_bind].
  destruct (nt_norm1 _ _ ≫= _) as [a|e]; cbn [mbind result_bind]; [|done].
  destruct (tadd _ a) as [x1|e]; cbn [mbind result_bind]; [|done].
  destruct (nt_norm2 _ x1 ≫= _) as [f|e]; cbn [mbind result_bind]; [|done].
  intros ->. cbn [mbind result_bind split token_nestable].
  rewrite <- token_forward_samples, tok_split_packed; [done|..].
  - apply Forall_fmap. eapply Forall_impl; [apply Hwf|]. apply token_forward_wf.
  - apply Forall_fmap. eapply Forall_impl; [apply Hpos|]. intros x Hx.
    unfold compose, token_forward. cbn [samples].
    intros Hnil. apply Hx. by apply fmap_nil_inv in Hnil.
  - by rewrite token_forward_signature, (seqlens_of_tokens _ Hwf).
  - rewrite Hb, <- list_fmap_compose. apply list_fmap_ext. intros i x _. simpl.
    by rewrite length_fmap.
Qed.

(** *** The cache stays well formed *)

Lemma cache_ok_empty : cache_ok empty_cache.
Proof. intros key m. cbn [attn_bias_cache empty_cache]. by rewrite lookup_empty. Qed.

Lemma mapM_M_length {A B} (f : A → M G B) (l : list A) g r g' :
  mapM f l g = Ok (r, g') → length r = length l.
Proof.
  revert g r. induction l as [|a l IH]; intros g r.
  - cbn [mapM]. unfold mret, M_ret. by intros [= <- _].
  - cbn [mapM].
    intros (b & g1 & _ & (k & g2 & Hk & Hret)%M_bind_Ok)%M_bind_Ok.
    unfold mret, M_ret in Hret. injection Hret as <- <-.
    simpl. f_equal. by eapply IH.
Qed.

Lemma fst_zip_shapes (bs : list Z) x_list :
  (length bs ≤ length x_list)%nat →
  ((λ '(b, x), (b, Z.of_nat (seq_len x))) <$> zip bs x_list).*1 = bs.
Proof.
  revert x_list. induction bs as [|b bs IH]; intros [|x x_list] Hlen; simpl in *;
    [done|done|lia|].
  f_equal. apply IH. lia.
Qed.

Lemma all_shapes_of_fst x_list (branges : option (list (list nat))) bs
    (key : shape_signature) :
  (∀ b, branges = Some b → (length b ≤ length x_list)%nat) →
  all_shapes_of x_list branges = Ok (bs, key) → key.*1 = bs.
Proof.
  intros Hlen. unfold all_shapes_of.
  assert (∃ bs', batch_sizes_of x_list branges = Ok bs'
                 ∧ (length bs' ≤ length x_list)%nat) as (bs' & -> & Hbs').
  { destruct branges as [b|]; cbn [batch_sizes_of nshape0 token_nestable].
    - eexists. split; [done|]. rewrite length_fmap. by apply Hlen.
    - rewrite mapM_Ok. eexists. split; [done|]. by rewrite length_fmap. }
  cbn [mbind result_bind nshape1 token_nestable].
  rewrite (mapM_ext_Ok _ (λ '(b, x), (b, Z.of_nat (seq_len x))))
    by (apply Forall_forall; by intros [b x] _).
  cbn [mbind result_bind mret result_ret]. intros [= <- <-].
  by apply fst_zip_shapes.
Qed.

Lemma get_attn_bias_and_cat_cache_ok (XFORMERS_AVAILABLE : bool)
    (st : cache_state) x_list (branges : option (list (list nat))) :
  cache_ok st →
  (∀ b, branges = Some b → (length b ≤ length x_list)%nat) →
  cache_ok (get_attn_bias_and_cat XFORMERS_AVAILABLE st x_list branges).1.
Proof.
  intros Hst Hlen. unfold get_attn_bias_and_cat.
  destruct (all_shapes_of x_list branges) as [[bs key]|e] eqn:Hshapes; [|done].
  destruct (attn_bias_cache st !! key) as [m|] eqn:Hm; [done|].
  destruct XFORMERS_AVAILABLE; [|done].
  cbn [fst]. intros key' m'. cbn [attn_bias_cache].
  intros [[<- <-]|[_ Hkey]]%lookup_insert_Some; [|by apply Hst].
  cbn [seqlens _batch_sizes]. split; [done|].
  symmetry. by eapply all_shapes_of_fst.
Qed.

Lemma drop_add_list_cache_ok (XFORMERS_AVAILABLE : bool) (st : cache_state) x_list
    (residual_func : TokTensor Tok → option BlockDiagonalMask → result (TokTensor Tok))
    (r : float) (scaling_vector : option string) (g : G) :
  cache_ok st →
  cache_ok (drop_add_residual_stochastic_depth_list XFORMERS_AVAILABLE st x_list
              residual_func r scaling_vector g).1.
Proof.
  intros Hst. unfold drop_add_residual_stochastic_depth_list.
  destruct (mapM (M := M G) _ x_list g) as [[branges_scales g']|e] eqn:Hm; [|done].
  destruct (get_attn_bias_and_cat _ _ _ _) as [st' res] eqn:Hget. cbn [fst].
  change st' with (st', res).1. rewrite <- Hget.
  apply get_attn_bias_and_cat_cache_ok; [done|].
  intros b [= <-]. by rewrite length_fmap, (mapM_M_length _ _ _ _ _ Hm).
Qed.

(** Every call of [forward_nested], in either mode, leaves the cache well
    formed; so it is on every run that starts from the empty cache. *)
Lemma forward_nested_cache_ok (XFORMERS_AVAILABLE : bool)
    (self : NestedTensorBlock (TokTensor Tok)) (training : bool)
    (st : cache_state) x_list (g : G) :
  cache_ok st →
  cache_ok (forward_nested XFORMERS_AVAILABLE self training st x_list g).1.
Proof.
  intros Hst. unfold forward_nested.
  destruct (negb _); [done|]. destruct (training && _).
  - destruct (drop_add_residual_stochastic_depth_list _ st _ _ _ _ _)
      as [st1 [[x_list1 g1]|e]] eqn:Hfirst.
    + apply drop_add_list_cache_ok.
      change st1 with (st1, Ok (x_list1, g1)).1. rewrite <- Hfirst.
      by apply drop_add_list_cache_ok.
    + cbn [fst]. change st1 with (st1, @Raise (list (TokTensor Tok) * G) e).1.
      rewrite <- Hfirst. by apply drop_add_list_cache_ok.
  - destruct (get_attn_bias_and_cat _ _ _ _) as [st' res] eqn:Hget. cbn [fst].
    change st' with (st', res).1. rewrite <- Hget.
    by apply get_attn_bias_and_cat_cache_ok.
Qed.

(** C5.  In eval mode, a list of tensors of token sequences of different
    lengths that goes through one [NestedTensorBlock] as a nested tensor (all
    the sequences packed into one, attention under the block-diagonal mask
    and the feed-forward layer over the packed sequence, the result split at
    the original borders) comes out, tensor by tensor and sample by sample,
    as what the same block with the same sublayers makes of that tensor, and
    of that sample alone. *)
Theorem forward_nested_eval_per_sample (st : cache_state) x_list (g : G) :
  cache_ok st → x_list ≠ [] → Forall tok_wf x_list →
  Forall (λ x, samples x ≠ []) x_list →
  ∃ st' ys,
    forward_nested true (token_nested_block tb) false st x_list g
    = (st', Ok (ys, g))
    ∧ Forall2 (λ x y,
        NestedTensorBlock_forward_tensor (token_nested_block tb) false x g
        = Ok (y, g)
        ∧ Forall2 (λ s t,
            NestedTensorBlock_forward_tensor (token_nested_block tb) false
              (packed s) g
            = Ok (packed t, g)) (samples x) (samples y)) x_list ys.
Proof.
  intros Hst Hne Hwf Hpos.
  destruct (forward_nested_eval_run st x_list g Hst Hne Hwf Hpos) as (st' & Hrun & _).
  exists st', (token_forward tb <$> x_list). split; [done|].
  apply Forall2_fmap_r, Forall_Forall2_diag, Forall_forall. intros x _. split.
  - by rewrite token_block_forward_tensor by by left.
  - cbn [token_forward samples].
    apply Forall2_fmap_r, Forall_Forall2_diag, Forall_forall. intros s _.
    rewrite token_block_forward_tensor by by left.
    unfold packed, compose. cbn [seq_len samples fmap list_fmap].
    by rewrite length_sample_forward.
Qed.

End TokenTensorFacts.

#[local] Existing Instance float_tokens.

Lemma forward_nested_eval_per_sample_witness :
  ∃ st' ys,
    forward_nested true (token_nested_block sum_block) false empty_cache
                   two_tensors tt
    = (st', Ok (ys, tt))
    ∧ Forall2 (λ x y,
        NestedTensorBlock_forward_tensor (token_nested_block sum_block) false x tt
        = Ok (y, tt)
        ∧ Forall2 (λ s t,
            NestedTensorBlock_forward_tensor (token_nested_block sum_block) false
              (packed s) tt
            = Ok (packed t, tt)) (samples x) (samples y)) two_tensors ys.
Proof.
  apply (forward_nested_eval_per_sample sum_block empty_cache two_tensors tt).
  - intros key m. cbn [attn_bias_cache empty_cache]. by rewrite lookup_empty.
  - done.
  - unfold tok_wf, two_tensors. by repeat constructor.
  - unfold two_tensors. by repeat constructor.
Defined.

(** The run of the list above, evaluated: the three sequences come out as
    they do one by one. *)
Example forward_nested_two_tensors :
  (forward_nested true (token_nested_block sum_block) false empty_cache
                  two_tensors tt).2
  = Ok ([mkTok 2 [[7.5; 10.5]; [19.5; 22.5]]; mkTok 3 [[42; 45; 48]]]%float, tt).
Proof. vm_compute. reflexivity. Qed.

(* ===================================================================== *)
(** * More on the block stack and on named_apply                          *)
(* ===================================================================== *)

(** ** The forward pass over chunks *)

Section BlockStackMore.
Context {T B G : Type} (run : B → T → M G T).
Implicit Types (bs : list B) (x : T) (output : list T) (g : G).

Lemma forward_flat_app bs1 bs2 x g :
  forward_flat run (bs1 ++ bs2) x g
  = (x ← forward_flat run bs1 x; forward_flat run bs2 x) g.
Proof.
  revert x g. induction bs1 as [|b bs1 IH]; intros x g; [done|].
  cbn [app forward_flat]. unfold mbind, M_bind in *.
  destruct (run b x g) as [[x1 g1]|e]; [|done]. apply IH.
Qed.

(** The placeholders of a chunk pass their input on. *)
Lemma BlockChunk_forward_placeholders (k : nat) (ms : list (module B)) x g :
  BlockChunk_forward run (replicate k Identity ++ ms) x g
  = BlockChunk_forward run ms x g.
Proof. induction k as [|k IH]; [done|]. cbn. apply IH. Qed.

Lemma BlockChunk_forward_blocks bs x g :
  BlockChunk_forward run (Blk <$> bs) x g = forward_flat run bs x g.
Proof.
  revert x g. induction bs as [|b bs IH]; intros x g; [done|].
  cbn. unfold mbind, M_bind. destruct (run b x g) as [[x1 g1]|e]; [|done]. apply IH.
Qed.

Lemma forward_chunks_from bs chunksize fuel s x g :
  0 < chunksize → 0 ≤ s →
  (Z.of_nat (length bs) - s ≤ Z.of_nat fuel) →
  forward_chunks run
    (make_chunk bs chunksize <$> range_up fuel s (Z.of_nat (length bs)) chunksize) x g
  = forward_flat run (drop (Z.to_nat s) bs) x g.
Proof.
  intros Hcs. revert s x g.
  induction fuel as [|fuel IH]; intros s x g Hs Hfuel; cbn [range_up].
  { rewrite drop_ge by lia. done. }
  destruct (s <? Z.of_nat (length bs)) eqn:Hlt; cycle 1.
  { apply Z.ltb_ge in Hlt. rewrite drop_ge by lia. done. }
  apply Z.ltb_lt in Hlt. rewrite fmap_cons. cbn [forward_chunks].
  rewrite <- (take_drop (Z.to_nat chunksize) (drop (Z.to_nat s) bs)) at 1.
  rewrite forward_flat_app. unfold mbind, M_bind.
  unfold make_chunk at 1.
  rewrite BlockChunk_forward_placeholders, BlockChunk_forward_blocks.
  destruct (forward_flat run (take _ _) x g) as [[x1 g1]|e]; [|done].
  rewrite drop_drop.
  destruct (decide (s + chunksize ≤ Z.of_nat (length bs))) as [Hfull|Hpart].
  - rewrite IH by lia. do 2 f_equal. lia.
  - destruct fuel as [|fuel']; cbn [range_up].
    + rewrite drop_ge by lia. done.
    + assert ((s + chunksize <? Z.of_nat (length bs)) = false) as ->
        by (apply Z.ltb_ge; lia).
      rewrite drop_ge by lia. done.
Qed.

Lemma chunk_blocks_inv (depth : nat) (block_chunks : Z) bs chunks :
  chunk_blocks depth block_chunks bs = Ok (ChunkedBlocks chunks) →
  0 < block_chunks ∧ 0 < Z.of_nat depth / block_chunks ∧
  chunks = make_chunk bs (Z.of_nat depth / block_chunks)
             <$> range_up depth 0 (Z.of_nat depth) (Z.of_nat depth / block_chunks).
Proof.
  intros Hinit. set (chunksize := Z.of_nat depth / block_chunks).
  unfold chunk_blocks in Hinit.
  destruct (0 <? block_chunks) eqn:Hbc; [|done]. apply Z.ltb_lt in Hbc.
  unfold floordiv in Hinit.
  assert ((block_chunks =? 0) = false) as Hne by (apply Z.eqb_neq; lia).
  rewrite Hne in Hinit. simpl in Hinit. fold chunksize in Hinit.
  unfold range3 in Hinit.
  destruct (chunksize =? 0) eqn:Hcs0; [done|]. apply Z.eqb_neq in Hcs0.
  assert (0 < chunksize) as Hcs.
  { pose proof (Z.div_pos (Z.of_nat depth) block_chunks). unfold chunksize in *. lia. }
  assert ((0 <? chunksize) = true) as Hpos by by apply Z.ltb_lt.
  rewrite Hpos in Hinit. simpl in Hinit. injection Hinit as <-.
  by rewrite Z.sub_0_r, Nat2Z.id.
Qed.

(** X1.  The forward pass over the chunks that [VisionTransformer.__init__]
    builds is the forward pass over the blocks themselves: for every input
    and every generator state [for blk in self.blocks: x = blk(x)] returns
    or raises the same, chunked or not. *)
Theorem chunked_forward_eq (depth : nat) (block_chunks : Z) bs chunks x g :
  length bs = depth →
  chunk_blocks depth block_chunks bs = Ok (ChunkedBlocks chunks) →
  forward_blocks run (ChunkedBlocks chunks) x g
  = forward_blocks run (FlatBlocks bs) x g.
Proof.
  intros <- (Hbc & Hcs & ->)%chunk_blocks_inv. cbn [forward_blocks].
  by rewrite (forward_chunks_from bs _ (length bs) 0) by lia.
Qed.

Lemma range_up_length fuel s stop step :
  0 < step → stop - s ≤ Z.of_nat fuel →
  Z.of_nat (length (range_up fuel s stop step))
  = Z.max 0 ((stop - s + step - 1) / step).
Proof.
  intros Hstep. revert s. induction fuel as [|fuel IH]; intros s Hfuel; cbn [range_up].
  { assert ((stop - s + step - 1) / step < 1) by (apply Z.div_lt_upper_bound; lia).
    simpl. lia. }
  destruct (s <? stop) eqn:Hlt.
  - apply Z.ltb_lt in Hlt. cbn [length]. rewrite Nat2Z.inj_succ, IH by lia.
    replace (stop - s + step - 1) with (stop - (s + step) + step - 1 + 1 * step) by lia.
    rewrite Z.div_add by lia.
    assert (0 ≤ (stop - (s + step) + step - 1) / step) by (apply Z.div_pos; lia).
    lia.
  - apply Z.ltb_ge in Hlt.
    assert ((stop - s + step - 1) / step < 1) by (apply Z.div_lt_upper_bound; lia).
    simpl. lia.
Qed.

Lemma length_make_chunk bs chunksize (i : Z) :
  length (make_chunk bs chunksize i)
  = (Z.to_nat i + Z.to_nat chunksize `min` (length bs - Z.to_nat i))%nat.
Proof.
  unfold make_chunk.
  by rewrite length_app, length_replicate, length_fmap, length_take, length_drop.
Qed.

(** X2.  What [block_chunks] makes of [depth] blocks.  A value of 0 or
    less keeps the list flat.  A value above [depth] makes the chunk size
    [depth // block_chunks] zero and [range(0, depth, 0)] raises
    [ValueError].  In between there are [ceil(depth / chunksize)] chunks: at
    least [block_chunks], exactly [block_chunks] when it divides [depth];
    and chunk [k], placeholders included, has [min((k + 1) * chunksize,
    depth)] members. *)
Theorem chunk_blocks_outcome (depth : nat) (block_chunks : Z) bs :
  length bs = depth →
  (block_chunks ≤ 0 → chunk_blocks depth block_chunks bs = Ok (FlatBlocks bs)) ∧
  (Z.of_nat depth < block_chunks →
     chunk_blocks depth block_chunks bs = Raise ValueError) ∧
  (0 < block_chunks ≤ Z.of_nat depth →
     let chunksize := Z.of_nat depth / block_chunks in
     ∃ chunks,
       chunk_blocks depth block_chunks bs = Ok (ChunkedBlocks chunks) ∧
       Z.of_nat (length chunks) = (Z.of_nat depth + chunksize - 1) / chunksize ∧
       block_chunks ≤ Z.of_nat (length chunks) ∧
       (Z.of_nat depth mod block_chunks = 0 → Z.of_nat (length chunks) = block_chunks) ∧
       ∀ (k : nat) chunk, chunks !! k = Some chunk →
         Z.of_nat (length chunk) = Z.min ((Z.of_nat k + 1) * chunksize) (Z.of_nat depth)).
Proof.
  intros Hdepth. split_and!.
  - intros Hbc. unfold chunk_blocks.
    by assert ((0 <? block_chunks) = false) as -> by (apply Z.ltb_ge; lia).
  - intros Hbc. unfold chunk_blocks, floordiv, range3.
    assert ((0 <? block_chunks) = true) as -> by (apply Z.ltb_lt; lia).
    assert ((block_chunks =? 0) = false) as -> by (apply Z.eqb_neq; lia).
    cbn [mbind result_bind]. by rewrite Z.div_small by lia.
  - intros Hbc chunksize.
    assert (0 < chunksize) as Hcs.
    { unfold chunksize. apply Z.div_str_pos. lia. }
    pose proof (Z.mul_div_le (Z.of_nat depth) block_chunks ltac:(lia)) as Hle.
    fold chunksize in Hle.
    eexists. split.
    { unfold chunk_blocks, floordiv, range3.
      assert ((0 <? block_chunks) = true) as -> by (apply Z.ltb_lt; lia).
      assert ((block_chunks =? 0) = false) as -> by (apply Z.eqb_neq; lia).
      cbn [mbind result_bind]. fold chunksize.
      assert ((chunksize =? 0) = false) as -> by (apply Z.eqb_neq; lia).
      assert ((0 <? chunksize) = true) as -> by (apply Z.ltb_lt; lia).
      done. }
    rewrite length_fmap, Z.sub_0_r, Nat2Z.id.
    assert (Z.of_nat (length (range_up depth 0 (Z.of_nat depth) chunksize))
            = (Z.of_nat depth + chunksize - 1) / chunksize) as Hlen.
    { rewrite range_up_length by lia. rewrite Z.sub_0_r.
      assert (0 ≤ (Z.of_nat depth + chunksize - 1) / chunksize)
        by (apply Z.div_pos; lia).
      lia. }
    split_and!.
    + done.
    + rewrite Hlen. apply Z.div_le_lower_bound; lia.
    + intros Hmod. rewrite Hlen.
      assert (Z.of_nat depth = block_chunks * chunksize) as Hd.
      { unfold chunksize. pose proof (Z.div_mod (Z.of_nat depth) block_chunks). lia. }
      symmetry. apply (Z.div_unique _ _ _ (chunksize - 1)); lia.
    + intros k chunk Hk. rewrite list_lookup_fmap in Hk.
      destruct (range_up _ _ _ _ !! k) as [v|] eqn:Hv; [|done].
      injection Hk as <-. apply range_up_lookup in Hv as [-> Hlt].
      rewrite length_make_chunk, Hdepth. nia.
Qed.

End BlockStackMore.

(** ** Intermediate layers *)

Section IntermediateLayers.
Context {T B G : Type} (run : B → T → M G T).
Implicit Types (bs : list B) (x : T) (output acts : list T) (g : G).

Lemma activations_length bs x g acts g' :
  activations run bs x g = Ok (acts, g') → length acts = length bs.
Proof.
  revert x g acts. induction bs as [|b bs IH]; intros x g acts; cbn [activations].
  { unfold mret, M_ret. by intros [= <- _]. }
  unfold mbind, M_bind. destruct (run b x g) as [[x1 g1]|e]; [|done].
  destruct (activations run bs x1 g1) as [[ys g2]|e] eqn:Hys; [|done].
  unfold mret, M_ret. intros [= <- <-]. simpl. f_equal. by eapply IH.
Qed.

Lemma enumerate_loop_activations take_ bs i x output g :
  enumerate_loop run take_ bs i x output g
  = match activations run bs x g with
    | Ok (acts, g') => Ok (default x (last acts), output ++ taken take_ i acts, g')
    | Raise e => Raise e
    end.
Proof.
  revert i x output g. induction bs as [|b bs IH]; intros i x output g;
    cbn [enumerate_loop activations].
  { unfold mret, M_ret. cbn. by rewrite app_nil_r. }
  unfold mbind, M_bind. destruct (run b x g) as [[x1 g1]|e]; [|done].
  rewrite IH. destruct (activations run bs x1 g1) as [[ys g2]|e]; [|done].
  unfold mret, M_ret. cbn [taken]. rewrite last_cons.
  do 3 f_equal.
  - by destruct (last ys).
  - destruct (take_ i); by rewrite <- ?app_assoc.
Qed.

Lemma forward_flat_activations bs x g :
  forward_flat run bs x g
  = match activations run bs x g with
    | Ok (acts, g') => Ok (default x (last acts), g')
    | Raise e => Raise e
    end.
Proof.
  revert x g. induction bs as [|b bs IH]; intros x g; cbn [forward_flat activations].
  { done. }
  unfold mbind, M_bind. destruct (run b x g) as [[x1 g1]|e]; [|done].
  rewrite IH. destruct (activations run bs x1 g1) as [[ys g2]|e]; [|done].
  unfold mret, M_ret. rewrite last_cons. do 2 f_equal. by destruct (last ys).
Qed.

(** With the blocks' outputs at hand, the loop and the assertion. *)
Lemma not_chunked_activations bs x n g acts g' :
  activations run bs x g = Ok (acts, g') →
  _get_intermediate_layers_not_chunked run bs x n g
  = let '(take_, len) := blocks_to_take (Z.of_nat (length bs)) n in
    if Z.of_nat (length (taken take_ 0 acts)) =? len
    then Ok (taken take_ 0 acts, g') else Raise AssertionError.
Proof.
  intros Hacts. unfold _get_intermediate_layers_not_chunked.
  destruct (blocks_to_take _ n) as [take_ len].
  unfold mbind, M_bind. rewrite enumerate_loop_activations, Hacts. cbn [app].
  unfold lift, assert. by destruct (_ =? len).
Qed.

Lemma taken_last_n (total n : Z) (i : Z) acts :
  Z.of_nat (length acts) = total - i → 0 ≤ i →
  taken (λ j, (total - n <=? j) && (j <? total)) i acts
  = drop (Z.to_nat (total - n - i)) acts.
Proof.
  revert i. induction acts as [|a acts IH]; intros i Hlen Hi; cbn [taken].
  { by rewrite drop_nil. }
  cbn [length] in Hlen. rewrite IH by lia.
  destruct (total - n <=? i) eqn:Hle; cbn [andb].
  - apply Z.leb_le in Hle.
    assert ((i <? total) = true) as -> by (apply Z.ltb_lt; lia).
    replace (Z.to_nat (total - n - i)) with 0%nat by lia.
    replace (Z.to_nat (total - n - (i + 1))) with 0%nat by lia. done.
  - apply Z.leb_gt in Hle.
    replace (Z.to_nat (total - n - i)) with (S (Z.to_nat (total - n - (i + 1)))) by lia.
    done.
Qed.

(** X3.  When the blocks run, [_get_intermediate_layers_not_chunked(x, n)]
    with an int [n] returns the outputs of the [n] last blocks, in order
    (none for [n <= 0]); asking for more layers than there are blocks fails
    the assertion at the end. *)
Theorem intermediate_layers_last_n bs x g acts g' (n : Z) :
  activations run bs x g = Ok (acts, g') →
  _get_intermediate_layers_not_chunked run bs x (LastN n) g
  = if decide (n ≤ Z.of_nat (length bs))
    then Ok (drop (Z.to_nat (Z.of_nat (length bs) - n)) acts, g')
    else Raise AssertionError.
Proof.
  intros Hacts. rewrite (not_chunked_activations _ _ _ _ _ _ Hacts).
  pose proof (activations_length _ _ _ _ _ Hacts) as Hlen.
  cbn [blocks_to_take]. rewrite taken_last_n by lia.
  rewrite length_drop, Hlen, Z.sub_0_r.
  destruct (decide (n ≤ Z.of_nat (length bs))) as [Hn|Hn].
  - by assert ((Z.of_nat (length bs - Z.to_nat (Z.of_nat (length bs) - n))
                =? Z.max 0 n) = true) as -> by (apply Z.eqb_eq; lia).
  - by assert ((Z.of_nat (length bs - Z.to_nat (Z.of_nat (length bs) - n))
                =? Z.max 0 n) = false) as -> by (apply Z.eqb_neq; lia).
Qed.

Lemma taken_ext (p q : Z → bool) i acts :
  (∀ j, p j = q j) → taken p i acts = taken q i acts.
Proof.
  intros Hpq. revert i. induction acts as [|a acts IH]; intros i; [done|].
  cbn [taken]. by rewrite Hpq, IH.
Qed.

Lemma enumerate_loop_ext (p q : Z → bool) bs i x output g :
  (∀ j, p j = q j) →
  enumerate_loop run p bs i x output g = enumerate_loop run q bs i x output g.
Proof.
  intros Hpq. rewrite !enumerate_loop_activations.
  destruct (activations run bs x g) as [[acts g']|e]; [|done].
  by rewrite (taken_ext p q).
Qed.

(** The indices from [i] on, as many as there are entries. *)
Lemma length_taken (p : Z → bool) i acts :
  length (taken p i acts)
  = length (filter (λ j, p j = true) ((λ k : nat, i + Z.of_nat k) <$> seq 0 (length acts))).
Proof.
  revert i. induction acts as [|a acts IH]; intros i; [done|].
  cbn [taken length seq]. rewrite fmap_cons, filter_cons, length_app, IH.
  rewrite <- fmap_S_seq, <- list_fmap_compose.
  replace (i + Z.of_nat 0) with i by lia.
  assert ((λ k : nat, i + 1 + Z.of_nat k) <$> seq 0 (length acts)
          = ((λ k : nat, i + Z.of_nat k) ∘ S) <$> seq 0 (length acts)) as ->.
  { apply list_fmap_ext. intros ? k _. simpl. lia. }
  destruct (p i); [rewrite decide_True by done|rewrite decide_False by done]; done.
Qed.

Lemma indices_taken_length (l : list Z) (n : nat) :
  length (filter (λ j, bool_decide (j ∈ l) = true)
                 ((λ k : nat, 0 + Z.of_nat k) <$> seq 0 n)) = length l
  ↔ NoDup l ∧ Forall (λ j, 0 ≤ j < Z.of_nat n) l.
Proof.
  set (S := filter _ _).
  assert (NoDup S) as HS.
  { apply NoDup_filter, NoDup_fmap_2; [|apply NoDup_seq]. intros a b ?. lia. }
  assert (∀ j, j ∈ S ↔ j ∈ l ∧ 0 ≤ j < Z.of_nat n) as Hin.
  { intros j. unfold S. rewrite list_elem_of_filter, bool_decide_eq_true, list_elem_of_fmap.
    split.
    - intros [Hj (k & -> & Hk%elem_of_seq)]. split; [done|lia].
    - intros [Hj Hr]. split; [done|]. exists (Z.to_nat j). split; [lia|].
      apply elem_of_seq. lia. }
  split.
  - intros Hlen.
    assert (S ≡ₚ l) as Hperm.
    { apply submseteq_length_Permutation; [|lia].
      apply NoDup_submseteq; [done|]. intros j Hj. by apply Hin in Hj as [? _]. }
    split; [by rewrite <- Hperm|].
    apply Forall_forall. intros j Hj. rewrite <- Hperm in Hj. by apply Hin in Hj as [_ ?].
  - intros [Hnd Hr]. apply Permutation_length, NoDup_Permutation; [done..|].
    intros j. rewrite Hin. split; [by intros [? _]|].
    intros Hj. split; [done|]. by eapply Forall_forall in Hr.
Qed.

(** X4.  When the blocks run, [_get_intermediate_layers_not_chunked(x, n)]
    with a sequence [n] of indices returns the outputs of the blocks whose
    index is in [n], in the order of the blocks, provided the indices are
    distinct and lie in [[0, depth)]; a repeated index, a negative one or
    one past the last block fails the assertion at the end. *)
Theorem intermediate_layers_by_index bs x g acts g' (l : list Z) :
  activations run bs x g = Ok (acts, g') →
  _get_intermediate_layers_not_chunked run bs x (Layers l) g
  = if bool_decide (NoDup l ∧ Forall (λ j, 0 ≤ j < Z.of_nat (length bs)) l)
    then Ok (taken (λ j, bool_decide (j ∈ l)) 0 acts, g')
    else Raise AssertionError.
Proof.
  intros Hacts. rewrite (not_chunked_activations _ _ _ _ _ _ Hacts).
  pose proof (activations_length _ _ _ _ _ Hacts) as Hlen.
  cbn [blocks_to_take].
  pose proof (indices_taken_length l (length bs)) as Hiff.
  rewrite <- Hlen, <- length_taken, Hlen in Hiff.
  case_bool_decide as Hok.
  - apply Hiff in Hok. rewrite Hok. by rewrite Z.eqb_refl.
  - destruct (_ =? _) eqn:Heq; [|done].
    apply Z.eqb_eq, Nat2Z.inj, Hiff in Heq. done.
Qed.

(** X5.  The order in which the indices of the layers are given does not
    matter: two sequences with the same entries give the same result. *)
Theorem intermediate_layers_any_order bs x g (l l' : list Z) :
  l ≡ₚ l' →
  _get_intermediate_layers_not_chunked run bs x (Layers l) g
  = _get_intermediate_layers_not_chunked run bs x (Layers l') g.
Proof.
  intros Hperm. unfold _get_intermediate_layers_not_chunked. cbn [blocks_to_take].
  rewrite (Permutation_length Hperm). unfold mbind, M_bind.
  rewrite (enumerate_loop_ext _ (λ i, bool_decide (i ∈ l'))); [done|].
  intros j. apply bool_decide_ext. by rewrite Hperm.
Qed.

(** X6.  On a model with at least one block, the single layer that
    [_get_intermediate_layers_not_chunked(x, n=1)] returns is what the
    forward pass over the blocks returns, and one raises what the other
    raises. *)
Theorem intermediate_layers_last_is_forward bs x g :
  bs ≠ [] →
  _get_intermediate_layers_not_chunked run bs x (LastN 1) g
  = match forward_flat run bs x g with
    | Ok (y, g') => Ok ([y], g')
    | Raise e => Raise e
    end.
Proof.
  intros Hne. rewrite forward_flat_activations.
  destruct (activations run bs x g) as [[acts g']|e] eqn:Hacts.
  - rewrite (not_chunked_activations _ _ _ _ _ _ Hacts).
    pose proof (activations_length _ _ _ _ _ Hacts) as Hlen.
    assert (0 < length bs)%nat by (destruct bs; [done|simpl; lia]).
    cbn [blocks_to_take]. rewrite taken_last_n by lia.
    destruct (last acts) as [y|] eqn:Hlast.
    + apply last_Some in Hlast as [acts' ->]. rewrite length_app in Hlen. simpl in Hlen.
      rewrite drop_app_length' by lia. done.
    + apply last_None in Hlast. subst acts. simpl in Hlen. lia.
  - unfold _get_intermediate_layers_not_chunked. cbn [blocks_to_take].
    unfold mbind, M_bind. by rewrite enumerate_loop_activations, Hacts.
Qed.

End IntermediateLayers.

(** ** named_apply *)

Section NamedApply.
Context {A : Type}.
Implicit Types (m : nn_module A) (children : list (string * nn_module A)).

Lemma nn_module_forall_ind (P : nn_module A → Prop) :
  (∀ kind children, Forall (λ c, P c.2) children → P (NNModule kind children)) →
  ∀ m, P m.
Proof.
  intros Hnode. fix IH 1. intros [kind children]. apply Hnode.
  induction children as [|[n c] children IHc]; constructor; [apply IH|apply IHc].
Qed.

Lemma named_apply_traverse {S} (fn : nn_module A → string → S → S) m name
    (depth_first include_root : bool) (st : S) :
  named_apply fn m name depth_first include_root st
  = foldl (λ st '(n, m'), fn m' n st) st (traverse m name depth_first include_root).
Proof.
  revert name include_root st. induction m as [kind children IH] using nn_module_forall_ind.
  intros name include_root st. cbn [named_apply traverse].
  rewrite !foldl_app.
  set (st0 := if negb depth_first && include_root then _ else st).
  assert (foldl (λ st '(n, m'), fn m' n st) st
            (if negb depth_first && include_root
             then [(name, NNModule kind children)] else []) = st0) as ->.
  { unfold st0. by destruct (negb depth_first && include_root). }
  clearbody st0. clear st.
  match goal with
  | |- (if _ then fn _ _ ?a else ?a) = foldl _ ?b _ => assert (a = b) as ->
  end.
  { revert st0. induction IH as [|[cn c] children Hc _ IHc]; intros st0; [done|].
    rewrite foldl_app, <- Hc. apply IHc. }
  by destruct (depth_first && include_root).
Qed.

Lemma named_apply_calls_traverse m name (depth_first include_root : bool) :
  named_apply_calls m name depth_first include_root
  = traverse m name depth_first include_root.
Proof.
  unfold named_apply_calls. rewrite named_apply_traverse.
  generalize (traverse m name depth_first include_root). intros l.
  assert (∀ acc : list (string * nn_module A),
            foldl (λ log '(n, m'), log ++ [(n, m')]) acc l = acc ++ l) as Hlog.
  { induction l as [|[n m'] l IH]; intros acc; cbn [foldl]; [by rewrite app_nil_r|].
    by rewrite IH, <- app_assoc. }
  apply Hlog.
Qed.

Lemma traverse_root m name (depth_first : bool) :
  traverse m name depth_first true
  = if depth_first then traverse m name depth_first false ++ [(name, m)]
    else (name, m) :: traverse m name depth_first false.
Proof.
  destruct m as [kind children]. cbn [traverse].
  destruct depth_first; cbn [negb andb app]; by rewrite ?app_nil_r.
Qed.

Lemma traverse_length m name (depth_first : bool) :
  length (traverse m name depth_first true) = module_count m.
Proof.
  revert name. induction m as [kind children IH] using nn_module_forall_ind.
  intros name. cbn [traverse module_count]. rewrite !length_app.
  match goal with
  | |- (_ + (length ?a + _) = S ?b)%nat => assert (length a = b) as ->
  end.
  { induction IH as [|[cn c] children Hc _ IHc]; [done|].
    by rewrite length_app, Hc, IHc. }
  destruct depth_first; simpl; lia.
Qed.

Lemma traverse_order m name (include_root : bool) :
  traverse m name true include_root ≡ₚ traverse m name false include_root.
Proof.
  revert name include_root. induction m as [kind children IH] using nn_module_forall_ind.
  intros name include_root. cbn [traverse].
  match goal with
  | |- _ ++ ?a ++ _ ≡ₚ _ ++ ?b ++ _ => assert (a ≡ₚ b) as ->
  end.
  { induction IH as [|[cn c] children Hc _ IHc]; [done|]. by rewrite Hc, IHc. }
  destruct include_root; cbn [negb andb app]; [|done].
  rewrite app_nil_r. symmetry. apply Permutation_cons_append.
Qed.

Lemma traverse_children m name (depth_first include_root : bool) cn c :
  (cn, c) ∈ named_children m →
  (child_path name cn, c) ∈ traverse m name depth_first include_root.
Proof.
  destruct m as [kind children]. cbn [named_children traverse]. intros Hin.
  rewrite !elem_of_app. right. left.
  induction children as [|[cn' c'] children IHc]; [by apply elem_of_nil in Hin|].
  apply elem_of_cons in Hin as [[= <- <-]|Hin]; rewrite elem_of_app.
  - left. rewrite traverse_root. destruct depth_first; set_solver.
  - right. by apply IHc.
Qed.

(** X7.  [named_apply] calls [fn] once on every module of the tree below
    the root, and on the root when [include_root] is set: what it does is
    [fn] run over its list of calls, which has one entry per module.
    Depth first or not, the calls are the same up to their order; depth
    first the root comes last, otherwise first.  A child is called under its
    name prefixed by the name of its parent and a dot, or under its own name
    when the parent's name is empty. *)
Theorem named_apply_visits {S} (fn : nn_module A → string → S → S) m name
    (depth_first include_root : bool) (st : S) :
  let calls := named_apply_calls m name depth_first include_root in
  named_apply fn m name depth_first include_root st
  = foldl (λ st '(n, m'), fn m' n st) st calls ∧
  length calls = (if include_root then module_count m else module_count m - 1)%nat ∧
  calls ≡ₚ named_apply_calls m name (negb depth_first) include_root ∧
  (include_root = true →
     (if depth_first then last calls else head calls) = Some (name, m)) ∧
  ∀ cn c, (cn, c) ∈ named_children m → (child_path name cn, c) ∈ calls.
Proof.
  intros calls. unfold calls. rewrite !named_apply_calls_traverse. split_and!.
  - apply named_apply_traverse.
  - pose proof (traverse_length m name depth_first) as Hlen.
    rewrite traverse_root in Hlen.
    destruct include_root; [by rewrite traverse_root|].
    destruct depth_first; [rewrite length_app in Hlen|]; simpl in Hlen; lia.
  - destruct depth_first; [apply traverse_order|symmetry; apply traverse_order].
  - intros ->. rewrite traverse_root. destruct depth_first; [|done].
    by rewrite last_snoc.
  - intros cn c. apply traverse_children.
Qed.

End NamedApply.

(** ** Runs of the block stack on integers *)

(** Five integer blocks in chunks of two: three chunks. *)
Lemma chunked_forward_eq_witness :
  chunk_blocks 5 2 [1; 2; 3; 4; 5]
  = Ok (ChunkedBlocks [[Blk 1; Blk 2]; [Identity; Identity; Blk 3; Blk 4];
                       [Identity; Identity; Identity; Identity; Blk 5]]) ∧
  forward_blocks add_block
    (ChunkedBlocks [[Blk 1; Blk 2]; [Identity; Identity; Blk 3; Blk 4];
                    [Identity; Identity; Identity; Identity; Blk 5]]) 0 tt
  = forward_blocks add_block (FlatBlocks [1; 2; 3; 4; 5]) 0 tt.
Proof.
  split; [reflexivity|].
  apply (chunked_forward_eq add_block 5 2 [1; 2; 3; 4; 5] _ 0 tt eq_refl eq_refl).
Defined.

Lemma chunk_blocks_outcome_witness :
  length [1; 2; 3; 4; 5] = 5%nat ∧
  chunk_blocks 5 7 [1; 2; 3; 4; 5] = Raise ValueError.
Proof.
  split; [reflexivity|].
  apply (proj1 (proj2 (chunk_blocks_outcome 5 7 [1; 2; 3; 4; 5] eq_refl))). lia.
Defined.

Lemma intermediate_layers_last_n_witness :
  activations add_block [1; 2; 3; 4] 0 tt = Ok ([1; 3; 6; 10], tt) ∧
  _get_intermediate_layers_not_chunked add_block [1; 2; 3; 4] 0 (LastN 2) tt
  = Ok ([6; 10], tt).
Proof.
  split; [reflexivity|].
  apply (intermediate_layers_last_n add_block [1; 2; 3; 4] 0 tt [1; 3; 6; 10] tt 2 eq_refl).
Defined.

Lemma intermediate_layers_by_index_witness :
  activations add_block [1; 2; 3; 4] 0 tt = Ok ([1; 3; 6; 10], tt) ∧
  _get_intermediate_layers_not_chunked add_block [1; 2; 3; 4] 0 (Layers [3; 3]) tt
  = Raise AssertionError.
Proof.
  split; [reflexivity|].
  apply (intermediate_layers_by_index add_block [1; 2; 3; 4] 0 tt [1; 3; 6; 10] tt
           [3; 3] eq_refl).
Defined.

Lemma intermediate_layers_any_order_witness :
  [3; 0] ≡ₚ [0; 3] ∧
  _get_intermediate_layers_not_chunked add_block [1; 2; 3; 4] 0 (Layers [3; 0]) tt
  = _get_intermediate_layers_not_chunked add_block [1; 2; 3; 4] 0 (Layers [0; 3]) tt.
Proof.
  assert ([3; 0] ≡ₚ [0; 3]) as Hperm by apply Permutation_swap.
  split; [exact Hperm|].
  apply (intermediate_layers_any_order add_block [1; 2; 3; 4] 0 tt _ _ Hperm).
Defined.

Lemma intermediate_layers_last_is_forward_witness :
  [1; 2; 3; 4] ≠ [] ∧
  _get_intermediate_layers_not_chunked add_block [1; 2; 3; 4] 0 (LastN 1) tt
  = Ok ([10], tt).
Proof.
  split; [done|].
  apply (intermediate_layers_last_is_forward add_block [1; 2; 3; 4] 0 tt). done.
Defined.

(* ===================================================================== *)
(** * More on the positional table                                        *)
(* ===================================================================== *)

Lemma offset_restores_checked :
  all_from (Z.to_nat grid_bound) 1
    (λ M, all_from (Z.to_nat target_bound) 0 (λ w0, offset_restores 0.1 M w0)) = true.
Proof. vm_compute. reflexivity. Qed.

Lemma offset_restores_below_bounds (M w0 : Z) :
  1 ≤ M ≤ grid_bound → 0 ≤ w0 < target_bound →
  int_of_float (float_of_int M * ((float_of_int w0 + 0.1) / float_of_int M)) = Ok w0.
Proof.
  intros HM Hw.
  pose proof (all_from_spec _ _ _ offset_restores_checked M) as H1.
  cbv beta in H1.
  assert (all_from (Z.to_nat target_bound) 0 (λ w1, offset_restores 0.1 M w1) = true) as H2.
  { apply H1. unfold grid_bound in *. lia. }
  assert (offset_restores 0.1 M w0 = true) as H3.
  { apply (all_from_spec _ _ _ H2). unfold target_bound in *. lia. }
  unfold offset_restores in H3.
  destruct (int_of_float _) as [v|e]; [|done].
  f_equal. by apply Z.eqb_eq.
Qed.

Lemma permute_0312_returns (x : Tensor) (a b c d : Z) :
  shape x = [a; b; c; d] → returns (permute [0; 3; 1; 2]%nat x) [a; d; b; c].
Proof.
  intros Hs. unfold permute. rewrite Hs.
  rewrite decide_True by (apply (bool_decide_unpack _); by vm_compute).
  by eexists.
Qed.

Lemma permute_0231_returns (x : Tensor) (a b c d : Z) :
  shape x = [a; b; c; d] → returns (permute [0; 2; 3; 1]%nat x) [a; c; d; b].
Proof.
  intros Hs. unfold permute. rewrite Hs.
  rewrite decide_True by (apply (bool_decide_unpack _); by vm_compute).
  by eexists.
Qed.

(** [x.view(1, -1, dim)] on a tensor [1, w0, h0, dim]. *)
Lemma reshape_tokens_returns (x : Tensor) (w0 h0 d : Z) :
  shape x = [1; w0; h0; d] → 0 ≤ w0 → 0 ≤ h0 → 0 < d →
  returns (reshape [1; -1; d] x) [1; w0 * h0; d].
Proof.
  intros Hs Hw Hh Hd. unfold reshape, infer_shape. rewrite Hs.
  rewrite bool_decide_eq_false_2; cycle 1.
  { rewrite Exists_cons, Exists_cons, Exists_cons, Exists_nil. lia. }
  assert (filter (λ d0, d0 = -1) [1; -1; d] = [-1]) as ->.
  { rewrite !filter_cons, filter_nil.
    rewrite decide_False by lia. rewrite decide_True by lia. by rewrite decide_False by lia. }
  assert (filter (λ d0, d0 ≠ -1) [1; -1; d] = [1; d]) as ->.
  { rewrite !filter_cons, filter_nil.
    rewrite decide_True by lia. rewrite decide_False by lia. by rewrite decide_True by lia. }
  cbn [length numel foldr].
  assert ((1 * (d * 1) =? 0) = false) as -> by (apply Z.eqb_neq; lia).
  assert (1 * (w0 * (h0 * (d * 1))) = w0 * h0 * (1 * (d * 1))) as -> by lia.
  rewrite Z.mod_mul, Z.div_mul by lia. cbn [orb negb Z.eqb mbind result_bind mret result_ret].
  eexists. split; [done|]. cbn [shape fmap list_fmap].
  assert ((d =? -1) = false) as -> by (apply Z.eqb_neq; lia). done.
Qed.

(** The slow path of [interpolate_pos_encoding]: a table for the grid of the
    input. *)
Lemma interpolate_pos_encoding_slow (m : VisionTransformer.t) (x : Tensor)
    (p M D b n w h : Z) name :
  VisionTransformer.pos_embed m = mkTensor [1; M * M + 1; D] (Param name) →
  VisionTransformer.self_patch_size m = IInt p → p ≠ 0 →
  0 < M → 0 < D →
  shape x = [b; n; D] →
  0 < w / p → 0 < h / p →
  ¬ (n - 1 = M * M ∧ w = h) →
  (float_truthy (VisionTransformer.self_interpolate_offset m) = true →
     int_of_float (float_of_int M * ((float_of_int (w / p)
                                       + VisionTransformer.self_interpolate_offset m)
                                      / float_of_int M)) = Ok (w / p) ∧
     int_of_float (float_of_int M * ((float_of_int (h / p)
                                       + VisionTransformer.self_interpolate_offset m)
                                      / float_of_int M)) = Ok (h / p)) →
  returns (VisionTransformer.interpolate_pos_encoding m x w h)
          [1; 1 + w / p * (h / p); D].
Proof.
  intros Hpos Hps Hp HM HD Hx Hw0 Hh0 Hslow Hoff.
  unfold VisionTransformer.interpolate_pos_encoding.
  rewrite Hx, Hpos. cbn [size lookup list_lookup shape mbind result_bind].
  assert ((n - 1 =? M * M + 1 - 1) && (w =? h) = false) as ->.
  { apply andb_false_iff. destruct (decide (n - 1 = M * M)) as [Hn|Hn].
    - right. apply Z.eqb_neq. intros ->. by apply Hslow.
    - left. apply Z.eqb_neq. lia. }
  unfold select1, slice1, pointwise. cbn [shape].
  assert ((- (M * M + 1) <=? 0) && (0 <? M * M + 1) = true) as ->.
  { apply andb_true_iff. split; [apply Z.leb_le|apply Z.ltb_lt]; nia. }
  cbn [mbind result_bind last].
  unfold VisionTransformer.div_patch_size, floordiv. rewrite Hps.
  assert ((p =? 0) = false) as -> by by apply Z.eqb_neq.
  cbn [mbind result_bind]. unfold int_sqrt.
  assert ((M * M + 1 - 1 <? 0) = false) as -> by (apply Z.ltb_ge; nia).
  assert (M * M + 1 - 1 = M * M) as -> by lia.
  rewrite Z.sqrt_square by lia. cbn [mbind result_bind].
  rewrite Z.eqb_refl. cbn [assert mbind result_bind].
  set (off := VisionTransformer.self_interpolate_offset m) in *.
  assert (∃ kw, (if float_truthy off
                 then if M =? 0 then Raise ZeroDivisionError
                      else Ok (ScaleFactor ((float_of_int (w / p) + off) / float_of_int M)
                                           ((float_of_int (h / p) + off) / float_of_int M))
                 else Ok (Size (w / p) (h / p))) = Ok kw ∧
               ∀ y aa, shape y = [1; D; M; M] →
                       returns (interpolate kw aa y) [1; D; w / p; h / p])
    as (kw & -> & Hkw).
  { assert ((M =? 0) = false) as -> by (apply Z.eqb_neq; lia).
    assert ((M <=? 0) || (M <=? 0) || (w / p <=? 0) || (h / p <=? 0) = false) as Hdims.
    { rewrite !orb_false_iff. repeat split; apply Z.leb_gt; lia. }
    destruct (float_truthy off) eqn:Htruthy.
    - destruct (Hoff eq_refl) as [Hsx Hsy]. eexists. split; [done|].
      intros y aa Hy. unfold interpolate. rewrite Hy, Hsx, Hsy.
      cbn [mbind result_bind mret result_ret]. rewrite Hdims. by eexists.
    - eexists. split; [done|]. intros y aa Hy. unfold interpolate. rewrite Hy.
      cbn [mbind result_bind mret result_ret]. rewrite Hdims. by eexists. }
  cbn [mbind result_bind].
  eapply returns_bind.
  { apply (reshape_returns [1; M; M; D]).
    - repeat constructor; lia.
    - cbn [shape default]. unfold clamp_index.
      assert ((M * M + 1 <? 0) = false) as -> by (apply Z.ltb_ge; nia).
      cbn [Z.ltb Z.compare numel foldr]. nia. }
  intros y1 Hy1. eapply returns_bind; [by apply permute_0312_returns|].
  intros y2 Hy2. eapply returns_bind; [by apply Hkw|].
  intros y3 Hy3. rewrite Hy3. cbn [drop].
  rewrite bool_decide_eq_true_2 by done. cbn [assert mbind result_bind].
  eapply returns_bind; [by apply permute_0231_returns|].
  intros y4 Hy4. eapply returns_bind; [apply (reshape_tokens_returns _ _ _ _ Hy4); lia|].
  intros y5 Hy5. unfold unsqueeze. cbn [shape length].
  rewrite decide_True by lia. cbn [mbind result_bind take drop app].
  eapply returns_bind; [apply (cat2_returns _ y5 1 1 (w / p * (h / p)) D); [done|done]|].
  intros y6 Hy6. by eexists.
Qed.

Lemma PatchEmbed_init_ints (s p in_chans embed_dim : Z) (norm_layer flat : bool) :
  p ≠ 0 →
  PatchEmbed.init (IInt s) (IInt p) in_chans embed_dim norm_layer flat
  = Ok (PatchEmbed.mk (s, s) (p, p) (s / p, s / p) (s / p * (s / p)) in_chans embed_dim
                      flat norm_layer).
Proof.
  intros Hp. unfold PatchEmbed.init, floordiv. cbn [make_2tuple mbind result_bind fst snd].
  by assert ((p =? 0) = false) as -> by by apply Z.eqb_neq.
Qed.

(** The parts of a model that [VisionTransformer.__init__] returns. *)
Lemma VisionTransformer_init_parts (a : VisionTransformer.args) (m : VisionTransformer.t) :
  VisionTransformer.init a = Ok m →
  let D := VisionTransformer.embed_dim a in
  let R := VisionTransformer.num_register_tokens a in
  VisionTransformer.cls_token m = mkTensor [1; 1; D] (Param "cls_token") ∧
  VisionTransformer.mask_token m = mkTensor [1; D] (Param "mask_token") ∧
  0 ≤ D ∧ 0 ≤ R ∧
  VisionTransformer.register_tokens m
  = (if R =? 0 then None else Some (mkTensor [1; R; D] (Param "register_tokens"))) ∧
  VisionTransformer.self_num_register_tokens m = R ∧
  VisionTransformer.self_embed_dim m = D ∧
  VisionTransformer.self_interpolate_antialias m = VisionTransformer.interpolate_antialias a ∧
  ∃ ffn_layer blocks_list,
    (if String.eqb (VisionTransformer.ffn_layer a) "mlp" then Ok MlpClass
     else if String.eqb (VisionTransformer.ffn_layer a) "swiglufused"
             || String.eqb (VisionTransformer.ffn_layer a) "swiglu"
     then Ok SwiGLUFFNFusedClass
     else Raise NotImplementedError) = Ok ffn_layer ∧
    mapM (M := result)
      (λ drop_path, Block.init D (VisionTransformer.num_heads a)
                               (VisionTransformer.mlp_ratio a) 0 0
                               (VisionTransformer.init_values a) drop_path
                               (VisionTransformer.attn_cls a) ffn_layer)
      (if VisionTransformer.drop_path_uniform a
       then replicate (VisionTransformer.depth a) (VisionTransformer.drop_path_rate a)
       else linspace 0 (VisionTransformer.drop_path_rate a) (VisionTransformer.depth a))
    = Ok blocks_list ∧
    chunk_blocks (VisionTransformer.depth a) (VisionTransformer.block_chunks a) blocks_list
    = Ok (VisionTransformer.self_blocks m).
Proof.
  intros Hinit D R. unfold VisionTransformer.init in Hinit.
  apply result_bind_Ok_inv in Hinit as (pe & Hpe & Hinit).
  apply result_bind_Ok_inv in Hinit as (cls & Hcls & Hinit).
  apply result_bind_Ok_inv in Hinit as (pos & Hpos & Hinit).
  apply result_bind_Ok_inv in Hinit as ([] & HR & Hinit).
  apply result_bind_Ok_inv in Hinit as (reg & Hreg & Hinit).
  apply result_bind_Ok_inv in Hinit as (ffn_layer & Hffn & Hinit).
  apply result_bind_Ok_inv in Hinit as (blocks_list & Hbl & Hinit).
  apply result_bind_Ok_inv in Hinit as (blocks & Hblocks & Hinit).
  apply result_bind_Ok_inv in Hinit as (mask_token & Hmask & Hinit).
  injection Hinit as <-. cbn.
  assert (0 ≤ D) as HD.
  { unfold VisionTransformer.parameter in Hmask. cbn [forallb] in Hmask.
    fold D in Hmask. destruct (0 <=? D) eqn:HD; [by apply Z.leb_le|].
    by rewrite andb_false_r in Hmask. }
  assert (0 ≤ R) as HR'.
  { unfold assert in HR. fold R in HR. destruct (0 <=? R) eqn:HR'; [by apply Z.leb_le|done]. }
  apply parameter_Ok in Hcls, Hmask. subst cls mask_token.
  split_and!; try done.
  - unfold R, D in *. revert Hreg.
    destruct (VisionTransformer.num_register_tokens a =? 0); [by intros [= <-]|].
    destruct (VisionTransformer.parameter "register_tokens" _) as [t|] eqn:Ht; [|done].
    apply parameter_Ok in Ht. subst t. cbn [fmap result_fmap]. by intros [= <-].
  - by exists ffn_layer, blocks_list.
Qed.

(** X8.  A model whose [patch_size] was given as a tuple interpolates no
    positional table: off the fast path [w // self.patch_size] divides an
    int by a tuple and raises [TypeError], whatever the input. *)
Theorem interpolate_pos_encoding_tuple_patch_size
    (a : VisionTransformer.args) (m : VisionTransformer.t) (x : Tensor)
    (l : list Z) (b n d w h : Z) :
  VisionTransformer.init a = Ok m →
  VisionTransformer.patch_size a = ITuple l →
  0 ≤ PatchEmbed.num_patches (VisionTransformer.patch_embed m) →
  shape x = [b; n; d] →
  ¬ (n - 1 = PatchEmbed.num_patches (VisionTransformer.patch_embed m) ∧ w = h) →
  VisionTransformer.interpolate_pos_encoding m x w h = Raise TypeError.
Proof.
  intros Hinit Hp Hnum Hx Hslow.
  destruct (VisionTransformer_init_fields _ _ Hinit) as (_ & Hpos & Hps & _).
  set (N := PatchEmbed.num_patches _) in *.
  unfold VisionTransformer.interpolate_pos_encoding.
  rewrite Hx, Hpos. cbn [size lookup list_lookup shape mbind result_bind].
  assert ((n - 1 =? N + 1 - 1) && (w =? h) = false) as ->.
  { apply andb_false_iff. destruct (decide (n - 1 = N)) as [Hn|Hn].
    - right. apply Z.eqb_neq. intros ->. by apply Hslow.
    - left. apply Z.eqb_neq. lia. }
  unfold select1, slice1, pointwise. cbn [shape].
  assert ((- (N + 1) <=? 0) && (0 <? N + 1) = true) as ->.
  { apply andb_true_iff. split; [apply Z.leb_le|apply Z.ltb_lt]; lia. }
  cbn [mbind result_bind last].
  unfold VisionTransformer.div_patch_size. by rewrite Hps, Hp.
Qed.

(** X9.  Off the fast path, on a model with an int image size [s] and an
    int patch size [p] (a reference grid of [s // p] patches a side),
    [interpolate_pos_encoding] returns a table with one entry for the class
    token and one for each of the [(w // p) * (h // p)] patches of the
    input, whatever the resolution: always with [interpolate_offset = 0]
    (the output size is given), and with the default offset of 0.1 for
    every reference grid of up to 64 and every target grid of up to 511
    patches a side, where the truncated binary64 product of the grid side
    and the scale factor is the target side, so that the assertion on the
    interpolated grid holds. *)
Theorem interpolate_pos_encoding_resamples
    (a : VisionTransformer.args) (m : VisionTransformer.t) (x : Tensor)
    (s p b n w h : Z) :
  VisionTransformer.init a = Ok m →
  VisionTransformer.img_size a = IInt s →
  VisionTransformer.patch_size a = IInt p →
  0 < p ≤ s → 0 < VisionTransformer.embed_dim a →
  shape x = [b; n; VisionTransformer.embed_dim a] →
  0 < w / p → 0 < h / p →
  ¬ (n - 1 = s / p * (s / p) ∧ w = h) →
  (VisionTransformer.interpolate_offset a = 0%float ∨
   VisionTransformer.interpolate_offset a = 0.1%float ∧
   s / p ≤ grid_bound ∧ w / p < target_bound ∧ h / p < target_bound) →
  returns (VisionTransformer.interpolate_pos_encoding m x w h)
          [1; 1 + w / p * (h / p); VisionTransformer.embed_dim a].
Proof.
  intros Hinit Himg Hpatch Hp HD Hx Hw Hh Hslow Hoff.
  destruct (VisionTransformer_init_fields _ _ Hinit) as (Hpe & Hpos & Hps & Hso).
  rewrite Himg, Hpatch, PatchEmbed_init_ints in Hpe by lia.
  injection Hpe as Hpe. rewrite <- Hpe in Hpos. cbn [PatchEmbed.num_patches] in Hpos.
  assert (0 < s / p) as HM by (apply Z.div_str_pos; lia).
  apply (interpolate_pos_encoding_slow m x p (s / p) _ b n w h "pos_embed");
    try done; try lia.
  { by rewrite Hps. }
  rewrite Hso. destruct Hoff as [->|(-> & HMb & Hwb & Hhb)].
  - intros Htruthy. by vm_compute in Htruthy.
  - intros _. split; apply offset_restores_below_bounds; lia.
Qed.

Lemma interpolate_pos_encoding_tuple_patch_size_witness :
  ∃ m, VisionTransformer.init tuple_patch_args = Ok m ∧
       VisionTransformer.interpolate_pos_encoding m (tokens 1 3 8) 28 14
       = Raise TypeError.
Proof.
  eexists. split; [vm_compute; reflexivity|].
  eapply (interpolate_pos_encoding_tuple_patch_size tuple_patch_args _ (tokens 1 3 8)
            [14; 14] 1 3 8 28 14).
  - vm_compute. reflexivity.
  - reflexivity.
  - by vm_compute.
  - reflexivity.
  - vm_compute. lia.
Defined.

(** The encoder of 28 x 28 pixels on an input of 42 x 28: a grid of 3 x 2. *)
Lemma interpolate_pos_encoding_resamples_witness :
  returns (VisionTransformer.interpolate_pos_encoding (tiny_model 28 28)
             (tokens 1 7 8) 42 28) [1; 7; 8].
Proof.
  apply (interpolate_pos_encoding_resamples (tiny_args (IInt 28)) (tiny_model 28 28)
           (tokens 1 7 8) 28 14 1 7 42 28 tiny_init_28_28 eq_refl eq_refl).
  - lia.
  - simpl. lia.
  - reflexivity.
  - by vm_compute.
  - by vm_compute.
  - vm_compute. lia.
  - right. split; [reflexivity|]. by vm_compute.
Defined.

(* ===================================================================== *)
(** * More on the forward pass                                            *)
(* ===================================================================== *)

(** ** The tokens of a batch of images *)

Lemma interpolate_pos_encoding_fast (m : VisionTransformer.t) (x : Tensor)
    (N D b w : Z) name :
  VisionTransformer.pos_embed m = mkTensor [1; N + 1; D] (Param name) →
  shape x = [b; N + 1; D] →
  VisionTransformer.interpolate_pos_encoding m x w w
  = Ok (VisionTransformer.pos_embed m).
Proof.
  intros Hpos Hx. unfold VisionTransformer.interpolate_pos_encoding.
  rewrite Hx, Hpos. cbn [size lookup list_lookup shape mbind result_bind].
  by rewrite !Z.eqb_refl.
Qed.

Lemma interpolate_pos_encoding_any
    (a : VisionTransformer.args) (m : VisionTransformer.t) (x : Tensor)
    (s p b w h : Z) :
  VisionTransformer.init a = Ok m →
  VisionTransformer.img_size a = IInt s →
  VisionTransformer.patch_size a = IInt p →
  0 < p ≤ s → 0 < VisionTransformer.embed_dim a →
  shape x = [b; 1 + w / p * (h / p); VisionTransformer.embed_dim a] →
  0 < w / p → 0 < h / p →
  (w = s ∧ h = s ∨
   VisionTransformer.interpolate_offset a = 0%float ∨
   VisionTransformer.interpolate_offset a = 0.1%float ∧
   s / p ≤ grid_bound ∧ w / p < target_bound ∧ h / p < target_bound) →
  returns (VisionTransformer.interpolate_pos_encoding m x w h)
          [1; 1 + w / p * (h / p); VisionTransformer.embed_dim a].
Proof.
  intros Hinit Himg Hpatch Hp HD Hx Hw Hh Hoff.
  destruct (decide (1 + w / p * (h / p) - 1 = s / p * (s / p) ∧ w = h)) as [[Hn <-]|Hslow].
  - destruct (VisionTransformer_init_fields _ _ Hinit) as (Hpe & Hpos & _).
    rewrite Himg, Hpatch, PatchEmbed_init_ints in Hpe by lia.
    injection Hpe as Hpe. rewrite <- Hpe in Hpos. cbn [PatchEmbed.num_patches] in Hpos.
    exists (VisionTransformer.pos_embed m). split.
    + apply (interpolate_pos_encoding_fast m x (s / p * (s / p))
               (VisionTransformer.embed_dim a) b w "pos_embed"); [done|].
      rewrite Hx. do 2 f_equal. lia.
    + rewrite Hpos. cbn [shape]. do 2 f_equal. lia.
  - destruct Hoff as [[-> ->]|Hoff].
    { exfalso. apply Hslow. split; [lia|done]. }
    destruct (VisionTransformer_init_fields _ _ Hinit) as (Hpe & Hpos & Hps & Hso).
    rewrite Himg, Hpatch, PatchEmbed_init_ints in Hpe by lia.
    injection Hpe as Hpe. rewrite <- Hpe in Hpos. cbn [PatchEmbed.num_patches] in Hpos.
    assert (0 < s / p) as HM by (apply Z.div_str_pos; lia).
    apply (interpolate_pos_encoding_slow m x p (s / p) (VisionTransformer.embed_dim a)
             b (1 + w / p * (h / p)) w h "pos_embed"); try done; try lia.
    { by rewrite Hps. }
    rewrite Hso. destruct Hoff as [->|(-> & HMb & Hwb & Hhb)].
    + intros Htruthy. by vm_compute in Htruthy.
    + intros _. split; apply offset_restores_below_bounds; lia.
Qed.

Lemma returns_shape (r : result Tensor) s s' : returns r s → s = s' → returns r s'.
Proof. by intros Hr <-. Qed.

Lemma broadcast_one (d : Z) :
  (if d =? 1 then Ok [d] else if d =? 1 then Ok [1] else
   if 1 =? 1 then Ok [d] else Raise RuntimeError) = Ok [d].
Proof. by destruct (d =? 1). Qed.

(** [torch.where(masks.unsqueeze(-1), mask_token, x)] *)
Lemma where_mask_returns (masks mask_token x : Tensor) (b N D : Z) :
  shape masks = [b; N] → shape mask_token = [1; 1; D] → shape x = [b; N; D] →
  returns (where_ (unsqueeze_last masks) mask_token x) [b; N; D].
Proof.
  intros Hm Ht Hx. unfold where_, unsqueeze_last, broadcast. cbn [shape].
  rewrite Hm, Ht, Hx.
  change (reverse ([b; N] ++ [1])) with [1; N; b].
  change (reverse [1; 1; D]) with [D; 1; 1].
  change (reverse [b; N; D]) with [D; N; b].
  cbn [broadcast_rev mbind result_bind fmap result_fmap].
  assert (∀ d, (if d =? 1 then Ok [d] else if d =? 1 then Ok [1] else
                if 1 =? 1 then Ok [d] else Raise RuntimeError) = Ok [d]) as Hone.
  { intros d. by destruct (d =? 1). }
  rewrite (Hone b). cbn [mbind result_bind].
  assert (∀ d (l : list Z),
            (if d =? 1 then Ok (d :: l) else if d =? 1 then Ok (1 :: l) else
             if 1 =? 1 then Ok (d :: l) else Raise RuntimeError) = Ok (d :: l)) as Hcons.
  { intros d l. by destruct (d =? 1). }
  rewrite (Hcons N). cbn [mbind result_bind].
  assert ((if 1 =? D then Ok [1; N; b] else if 1 =? 1 then Ok [D; N; b] else
           if D =? 1 then Ok [1; N; b] else Raise RuntimeError) = Ok [D; N; b]) as ->.
  { destruct (1 =? D) eqn:HD; [|done]. apply Z.eqb_eq in HD. by subst. }
  cbn [fmap result_fmap mbind result_bind].
  change (reverse [D; N; b]) with [b; N; D].
  change (reverse [b; N; D]) with [D; N; b].
  rewrite broadcast_rev_refl. cbn [fmap result_fmap mbind result_bind mret result_ret].
  by eexists.
Qed.

Lemma prepare_tokens_with_masks_returns
    (a : VisionTransformer.args) (m : VisionTransformer.t) (x : Tensor)
    (masks : option Tensor) (s p b H W : Z) :
  VisionTransformer.init a = Ok m →
  VisionTransformer.img_size a = IInt s →
  VisionTransformer.patch_size a = IInt p →
  0 < p ≤ s → 0 < VisionTransformer.embed_dim a →
  shape x = [b; VisionTransformer.in_chans a; H; W] →
  0 < H → 0 < W → H mod p = 0 → W mod p = 0 →
  match masks with
  | Some masks => shape masks = [b; H / p * (W / p)]
  | None => True
  end →
  (H = s ∧ W = s ∨
   VisionTransformer.interpolate_offset a = 0%float ∨
   VisionTransformer.interpolate_offset a = 0.1%float ∧
   s / p ≤ grid_bound ∧ H / p < target_bound ∧ W / p < target_bound) →
  returns (VisionTransformer.prepare_tokens_with_masks m x masks)
          [b; 1 + VisionTransformer.num_register_tokens a + H / p * (W / p);
           VisionTransformer.embed_dim a].
Proof.
  intros Hinit Himg Hpatch Hp HD Hx HH HW HHp HWp Hmasks Hoff.
  destruct (VisionTransformer_init_fields _ _ Hinit) as (Hpe & Hpos & Hps & Hso).
  destruct (VisionTransformer_init_parts _ _ Hinit)
    as (Hcls & Hmt & _ & HR & Hreg & HsR & HsD & _).
  rewrite Himg, Hpatch, PatchEmbed_init_ints in Hpe by lia.
  injection Hpe as Hpe.
  set (D := VisionTransformer.embed_dim a) in *.
  set (R := VisionTransformer.num_register_tokens a) in *.
  set (N := H / p * (W / p)) in *.
  assert (0 < H / p) as HHd by (apply Z.div_str_pos; pose proof (Z.mod_small H p); lia).
  assert (0 < W / p) as HWd by (apply Z.div_str_pos; pose proof (Z.mod_small W p); lia).
  assert (0 < N) as HN by (unfold N; nia).
  unfold VisionTransformer.prepare_tokens_with_masks. rewrite Hx.
  cbn [mbind result_bind].
  rewrite <- Hpe.
  eapply returns_bind.
  { apply (PatchEmbed_forward_returns _ _ b H W); cbn; try done; lia. }
  cbn [PatchEmbed.patch_size PatchEmbed.embed_dim fst snd]. fold N.
  intros tokens Htokens.
  eapply (returns_bind _ _ [b; N; D]).
  { destruct masks as [mk|]; [|by apply returns_Ok].
    rewrite Hmt. unfold unsqueeze, pointwise. cbn [shape length].
    rewrite decide_True by lia. cbn [mbind result_bind take drop app].
    by apply where_mask_returns. }
  clear tokens Htokens. intros tokens Htokens.
  rewrite Htokens. cbn [size lookup list_lookup mbind result_bind].
  eapply returns_bind; [apply expand0_returns; by rewrite Hcls|]. intros cls Hclss.
  eapply returns_bind; [by apply (cat2_returns _ _ b 1 N D)|]. intros x0 Hx0.
  eapply returns_bind.
  { apply (interpolate_pos_encoding_any a m x0 s p b H W); done. }
  intros pos Hposs.
  eapply returns_bind; [by apply (add_returns_broadcast0 _ _ b (1 + N) D)|].
  intros x1 Hx1. rewrite Hreg.
  destruct (R =? 0) eqn:HR0.
  { apply Z.eqb_eq in HR0. apply returns_Ok. rewrite Hx1, HR0. by do 2 f_equal. }
  rewrite Hx1. cbn [size lookup list_lookup mbind result_bind].
  eapply returns_bind; [by apply (slice1_returns _ _ _ b (1 + N) D)|]. intros first Hfirst.
  eapply returns_bind; [by apply expand0_returns|]. intros registers Hregisters.
  eapply returns_bind; [by apply (slice1_returns _ _ _ b (1 + N) D)|]. intros rest Hrest.
  eapply returns_shape; [by eapply cat3_returns|].
  unfold clamp_index. cbn [default id].
  assert ((1 <? 0) = false) as -> by done.
  assert ((0 <? 0) = false) as -> by done.
  assert ((1 + N <? 0) = false) as -> by (apply Z.ltb_ge; lia).
  do 2 f_equal. lia.
Qed.

(** X10.  [prepare_tokens_with_masks] on a model with an int image size and
    an int patch size [p].  A batch of [b] images of [H] x [W] pixels, both
    positive multiples of [p], with or without a mask of one entry per
    patch, comes out as [b] sequences of one class token, the register
    tokens and [(H / p) * (W / p)] patch tokens, at the reference resolution
    and at any other that the positional table can be resampled to.  When
    [H] or [W] is not a multiple of [p], the call fails the assertion of
    [PatchEmbed.forward]. *)
Theorem prepare_tokens_with_masks_tokens
    (a : VisionTransformer.args) (m : VisionTransformer.t) (x : Tensor)
    (masks : option Tensor) (s p b H W : Z) :
  VisionTransformer.init a = Ok m →
  VisionTransformer.img_size a = IInt s →
  VisionTransformer.patch_size a = IInt p →
  0 < p ≤ s → 0 < VisionTransformer.embed_dim a →
  shape x = [b; VisionTransformer.in_chans a; H; W] →
  0 < H → 0 < W →
  (H mod p = 0 → W mod p = 0 →
   match masks with
   | Some masks => shape masks = [b; H / p * (W / p)]
   | None => True
   end →
   (H = s ∧ W = s ∨
    VisionTransformer.interpolate_offset a = 0%float ∨
    VisionTransformer.interpolate_offset a = 0.1%float ∧
    s / p ≤ grid_bound ∧ H / p < target_bound ∧ W / p < target_bound) →
   returns (VisionTransformer.prepare_tokens_with_masks m x masks)
           [b; 1 + VisionTransformer.num_register_tokens a + H / p * (W / p);
            VisionTransformer.embed_dim a]) ∧
  (H mod p ≠ 0 ∨ W mod p ≠ 0 →
   VisionTransformer.prepare_tokens_with_masks m x masks = Raise AssertionError).
Proof.
  intros Hinit Himg Hpatch Hp HD Hx HH HW. split.
  - intros. by apply (prepare_tokens_with_masks_returns a m x masks s p b H W).
  - intros Hnot.
    destruct (VisionTransformer_init_fields _ _ Hinit) as (Hpe & _).
    rewrite Himg, Hpatch, PatchEmbed_init_ints in Hpe by lia. injection Hpe as Hpe.
    unfold VisionTransformer.prepare_tokens_with_masks. rewrite Hx.
    cbn [mbind result_bind].
    rewrite (PatchEmbed_forward_not_multiple _ x b H W); [done|..];
      rewrite <- Hpe; cbn; try done; lia.
Qed.
(** ** Blocks built by the constructors *)

Lemma chunk2_returns (x : Tensor) (b n h : Z) :
  shape x = [b; n; 2 * h] → 0 < h →
  ∃ x1 x2, SwiGLUFFN.chunk2 x = Ok (x1, x2) ∧ shape x1 = [b; n; h] ∧ shape x2 = [b; n; h].
Proof.
  intros Hs Hh. unfold SwiGLUFFN.chunk2. rewrite Hs.
  change (reverse [b; n; 2 * h]) with [2 * h; n; b]. cbv beta iota zeta.
  assert ((2 * h <? 2) = false) as -> by (apply Z.ltb_ge; lia).
  assert ((2 * h + 1) / 2 = h) as ->.
  { symmetry. apply (Z.div_unique _ _ _ 1); lia. }
  eexists _, _. split; [done|]. cbn [shape].
  change (reverse (h :: [n; b])) with [b; n; h].
  assert (2 * h - h = h) as -> by lia. done.
Qed.

Lemma mul_returns_same (x y : Tensor) s :
  shape x = s → shape y = s → returns (mul x y) s.
Proof.
  intros Hx Hy. unfold mul, binop, broadcast. rewrite Hx, Hy, broadcast_rev_refl.
  simpl. rewrite reverse_involutive. by eexists.
Qed.

Lemma SwiGLUFFN_forward_returns (self : SwiGLUFFN.t) (x : Tensor) (b n : Z) :
  0 < SwiGLUFFN.hidden_features self →
  shape x = [b; n; SwiGLUFFN.in_features self] →
  returns (SwiGLUFFN.forward self x) [b; n; SwiGLUFFN.out_features self].
Proof.
  intros Hh Hs. unfold SwiGLUFFN.forward.
  destruct (linear_returns "w12" _ (2 * SwiGLUFFN.hidden_features self) x b n Hs)
    as (x12 & -> & Hx12).
  cbn [mbind result_bind].
  destruct (chunk2_returns x12 b n _ Hx12 Hh) as (x1 & x2 & -> & Hx1 & Hx2).
  cbn [mbind result_bind].
  eapply returns_bind; [by apply (mul_returns_same _ _ [b; n; SwiGLUFFN.hidden_features self])|].
  intros hidden Hhidden. by apply linear_returns.
Qed.

Lemma Block_attn_residual_built xformers (blk : Block.t) hd training (x : Tensor)
    (b n : Z) :
  built_block blk hd → 0 ≤ b → 0 ≤ n →
  shape x = [b; n; Block.dim blk] →
  returns (Block.attn_residual_func xformers blk training x) [b; n; Block.dim blk].
Proof.
  intros (Hhd & Hh & Hdim & Hc & _) Hb Hn Hs. unfold Block.attn_residual_func.
  eapply returns_bind; [by apply layer_norm_returns|]. intros y Hy.
  eapply returns_bind; [|intros z Hz; by apply Block_ls_returns].
  unfold Block.attn_forward. rewrite <- Hdim in Hy, Hc |- *.
  destruct (Block.attn_cls blk).
  - by apply (Attention_forward_returns _ _ _ b n hd).
  - by apply (MemEffAttention_forward_returns _ _ _ _ b n hd).
Qed.

Lemma Block_ffn_residual_built (blk : Block.t) hd training (x : Tensor) (b n : Z) :
  built_block blk hd →
  shape x = [b; n; Block.dim blk] →
  returns (Block.ffn_residual_func blk training x) [b; n; Block.dim blk].
Proof.
  intros (_ & _ & _ & _ & Hmlp) Hs. unfold Block.ffn_residual_func.
  eapply returns_bind; [by apply layer_norm_returns|]. intros y Hy.
  eapply returns_bind; [|intros z Hz; by apply Block_ls_returns].
  unfold Block.mlp_forward. destruct (Block.mlp blk) as [f|f].
  - destruct Hmlp as [Hin Hout]. rewrite <- Hout. apply Mlp_forward_returns. by rewrite Hin.
  - destruct Hmlp as (Hin & Hout & Hhid). rewrite <- Hout.
    apply SwiGLUFFN_forward_returns; [done|]. by rewrite Hin.
Qed.

(** In eval mode, or without drop path, a block keeps the shape of the
    tokens and does not touch the generator. *)
Lemma Block_forward_built `{Generator G} xformers (blk : Block.t) hd training
    (x : Tensor) (b n : Z) (g : G) :
  built_block blk hd → 0 ≤ b → 0 ≤ n →
  training = false ∨ (0 <? Block.sample_drop_ratio blk)%float = false →
  shape x = [b; n; Block.dim blk] →
  returns_in (Block.forward xformers blk training x) g [b; n; Block.dim blk].
Proof.
  intros Hblk Hb Hn Hmode Hs. unfold Block.forward, Block_forward_with.
  assert (training && (0.1 <? Block.sample_drop_ratio blk)%float = false) as ->.
  { destruct Hmode as [->|Hr0]; [done|].
    destruct (0.1 <? _)%float eqn:Hr1; [|by rewrite andb_false_r].
    apply float_above_tenth_pos in Hr1. congruence. }
  assert (training && (0 <? Block.sample_drop_ratio blk)%float = false) as ->.
  { destruct Hmode as [-> | ->]; [done|by rewrite andb_false_r]. }
  eapply returns_in_bind.
  { apply returns_in_lift. by apply (Block_attn_residual_built _ _ hd _ _ b n). }
  intros r1 Hr1.
  eapply returns_in_bind.
  { apply returns_in_lift. by apply add_returns_same. }
  intros x1 Hx1.
  eapply returns_in_bind.
  { apply returns_in_lift. by apply (Block_ffn_residual_built _ hd _ _ b n). }
  intros r2 Hr2.
  apply returns_in_lift. by apply add_returns_same.
Qed.

Lemma forward_flat_built `{Generator G} xformers hd training (bs : list Block.t)
    (x : Tensor) (b n c : Z) (g : G) :
  Forall (λ blk, built_block blk hd ∧ Block.dim blk = c ∧
                 (training = false ∨ (0 <? Block.sample_drop_ratio blk)%float = false)) bs →
  0 ≤ b → 0 ≤ n →
  shape x = [b; n; c] →
  returns_in (forward_flat (λ blk, Block.forward xformers blk training) bs x) g [b; n; c].
Proof.
  intros Hbs Hb Hn. revert x. induction Hbs as [|blk bs (Hblk & <- & Hmode) _ IH]; intros x Hx.
  { by exists x. }
  cbn [forward_flat]. eapply returns_in_bind.
  { by apply (Block_forward_built xformers blk hd training x b n g). }
  apply IH.
Qed.

Lemma mapM_result_Forall2 {A B} (f : A → result B) (l : list A) (k : list B) :
  mapM (M := result) f l = Ok k → Forall2 (λ a b, f a = Ok b) l k.
Proof.
  revert k. induction l as [|a l IH]; intros k; cbn [mapM].
  { intros [= <-]. constructor. }
  intros (b & Hb & Hk)%result_bind_Ok_inv.
  apply result_bind_Ok_inv in Hk as (k' & Hk' & [= <-]).
  constructor; [done|by apply IH].
Qed.

Lemma Attention_init_Ok (dim num_heads : Z) (attn_drop proj_drop : float) attn :
  Attention.init dim num_heads attn_drop proj_drop = Ok attn →
  attn = Attention.mk dim num_heads (dim / num_heads) attn_drop proj_drop.
Proof.
  unfold Attention.init, floordiv. destruct (num_heads =? 0); [done|].
  cbn [mbind result_bind]. destruct (dim / num_heads =? 0); [done|].
  cbn [mbind result_bind]. destruct (dim <? 0); [done|].
  cbn [mbind result_bind]. by intros [= <-].
Qed.

Lemma Block_init_built (D heads hd : Z) (mlp_ratio : float) (init_values : option float)
    (drop_path : float) (cls : attn_class) (ffn_layer : ffn_class) (blk : Block.t) :
  Block.init D heads mlp_ratio 0 0 init_values drop_path cls ffn_layer = Ok blk →
  0 < D → D = heads * hd → 0 < heads → 0 ≤ hd →
  (ffn_layer = SwiGLUFFNFusedClass →
   ∃ hid width, int_of_float (float_of_int D * mlp_ratio) = Ok hid ∧
                SwiGLUFFNFused.hidden_features D (Some hid) = Ok width ∧ 0 ≤ width) →
  built_block blk hd ∧ Block.dim blk = D ∧ Block.sample_drop_ratio blk = drop_path.
Proof.
  intros Hinit HD Hdim Hheads Hhd Hswiglu. unfold Block.init in Hinit.
  apply result_bind_Ok_inv in Hinit as (attn & Hattn%Attention_init_Ok & Hinit).
  apply result_bind_Ok_inv in Hinit as (hid & Hhid & Hinit).
  apply result_bind_Ok_inv in Hinit as (mlp & Hmlp & [= <-]).
  subst attn. cbn. split; [|done]. unfold built_block. cbn.
  split_and!; try done.
  destruct ffn_layer.
  - injection Hmlp as <-. done.
  - destruct (Hswiglu eq_refl) as (hid' & width & Hhid' & Hwidth & Hpos).
    assert (hid' = hid) as -> by congruence.
    unfold SwiGLUFFN.init_fused in Hmlp. rewrite Hwidth in Hmlp. cbn in Hmlp.
    injection Hmlp as <-. cbn. split_and!.
    + done.
    + by destruct (D =? 0).
    + destruct (width =? 0) eqn:Hw; [done|]. apply Z.eqb_neq in Hw. lia.
Qed.

Lemma linspace_constant (v : float) (n : nat) :
  (v =? v)%float = true → linspace v v n = replicate n v.
Proof.
  intros Hv. unfold linspace. rewrite Hv.
  generalize 0%nat. induction n as [|n IH]; intros k; [done|].
  cbn [seq fmap list_fmap replicate]. f_equal. apply IH.
Qed.

Lemma length_linspace (u v : float) (n : nat) : length (linspace u v n) = n.
Proof. unfold linspace. by rewrite length_fmap, length_seq. Qed.

(** The blocks of a model that [VisionTransformer.__init__] returns. *)
Lemma VisionTransformer_init_blocks (training : bool)
    (a : VisionTransformer.args) (m : VisionTransformer.t) (hd : Z) :
  VisionTransformer.init a = Ok m →
  0 < VisionTransformer.embed_dim a →
  VisionTransformer.embed_dim a = VisionTransformer.num_heads a * hd →
  0 < VisionTransformer.num_heads a → 0 ≤ hd →
  (VisionTransformer.ffn_layer a ≠ "mlp" →
   ∃ hid width,
     int_of_float (float_of_int (VisionTransformer.embed_dim a)
                   * VisionTransformer.mlp_ratio a) = Ok hid ∧
     SwiGLUFFNFused.hidden_features (VisionTransformer.embed_dim a) (Some hid) = Ok width ∧
     0 ≤ width) →
  training = false ∨ VisionTransformer.drop_path_rate a = 0%float →
  ∃ blocks_list,
    length blocks_list = VisionTransformer.depth a ∧
    chunk_blocks (VisionTransformer.depth a) (VisionTransformer.block_chunks a) blocks_list
    = Ok (VisionTransformer.self_blocks m) ∧
    Forall (λ blk, built_block blk hd ∧ Block.dim blk = VisionTransformer.embed_dim a ∧
                   (training = false
                    ∨ (0 <? Block.sample_drop_ratio blk)%float = false)) blocks_list.
Proof.
  intros Hinit HD Hdim Hheads Hhd Hswiglu Hmode.
  destruct (VisionTransformer_init_parts _ _ Hinit)
    as (_ & _ & _ & _ & _ & _ & _ & _ & ffn_layer & blocks_list & Hffn & Hbl & Hchunks).
  exists blocks_list. apply mapM_result_Forall2 in Hbl.
  set (dpr := if VisionTransformer.drop_path_uniform a then _ else _) in Hbl.
  assert (length dpr = VisionTransformer.depth a) as Hlen.
  { unfold dpr. destruct (VisionTransformer.drop_path_uniform a);
      [apply length_replicate|apply length_linspace]. }
  assert (training = false ∨ Forall (λ dp, dp = 0%float) dpr) as Hdpr.
  { destruct Hmode as [->|Hrate]; [by left|right]. unfold dpr. rewrite Hrate.
    rewrite linspace_constant by done.
    destruct (VisionTransformer.drop_path_uniform a); by apply Forall_replicate. }
  split_and!.
  - by rewrite <- (Forall2_length _ _ _ Hbl).
  - done.
  - clear Hlen Hchunks. induction Hbl as [|dp blk dpr' bl Hblk _ IH]; [constructor|].
    constructor.
    + eapply Block_init_built in Hblk as (Hbuilt & HdimB & Hratio); try done.
      * split_and!; try done. destruct Hdpr as [->|Hz]; [by left|right].
        apply Forall_cons in Hz as [-> _]. by rewrite Hratio.
      * intros ->. apply Hswiglu. intros Hmlp. rewrite Hmlp in Hffn. done.
    + apply IH. destruct Hdpr as [->|Hz]; [by left|right]. by apply Forall_cons in Hz as [_ ?].
Qed.

Lemma forward_blocks_built `{Generator G} xformers hd training (depth : nat)
    (block_chunks : Z) (bs : list Block.t) (blocks : blocks Block.t)
    (x : Tensor) (b n c : Z) (g : G) :
  length bs = depth →
  chunk_blocks depth block_chunks bs = Ok blocks →
  Forall (λ blk, built_block blk hd ∧ Block.dim blk = c ∧
                 (training = false ∨ (0 <? Block.sample_drop_ratio blk)%float = false)) bs →
  0 ≤ b → 0 ≤ n →
  shape x = [b; n; c] →
  returns_in (forward_blocks (λ blk, Block.forward xformers blk training) blocks x) g
             [b; n; c].
Proof.
  intros Hlen Hchunks Hbs Hb Hn Hx.
  destruct blocks as [chunks|bs'].
  - subst depth. apply chunk_blocks_inv in Hchunks as (Hbc & Hcs & ->).
    cbn [forward_blocks]. unfold returns_in.
    rewrite (forward_chunks_from _ bs _ (length bs) 0) by lia.
    by apply (forward_flat_built xformers hd).
  - unfold chunk_blocks in Hchunks. destruct (0 <? block_chunks).
    + apply result_bind_Ok_inv in Hchunks as (? & _ & Hchunks).
      by apply result_bind_Ok_inv in Hchunks as (? & _ & Hchunks).
    + injection Hchunks as <-. by apply (forward_flat_built xformers hd).
Qed.

Lemma slice_parts_returns (x : Tensor) (b R N D : Z) :
  shape x = [b; 1 + R + N; D] → 0 ≤ R → 0 ≤ N →
  returns (slice1 0 (Some 1) x) [b; 1; D] ∧
  returns (slice1 1 (Some (R + 1)) x) [b; R; D] ∧
  returns (slice1 (R + 1) None x) [b; N; D].
Proof.
  intros Hx HR HN.
  assert (∀ lo hi, 0 ≤ lo ≤ hi → hi ≤ 1 + R + N →
            Z.max 0 (clamp_index (1 + R + N) hi - clamp_index (1 + R + N) lo) = hi - lo)
    as Hclamp.
  { intros lo hi Hlo Hhi. unfold clamp_index.
    assert ((lo <? 0) = false) as -> by (apply Z.ltb_ge; lia).
    assert ((hi <? 0) = false) as -> by (apply Z.ltb_ge; lia). lia. }
  split_and!.
  - eapply returns_shape; [by apply (slice1_returns _ _ _ b (1 + R + N) D)|].
    cbn [default from_option id]. rewrite (Hclamp 0 1) by lia. done.
  - eapply returns_shape; [by apply (slice1_returns _ _ _ b (1 + R + N) D)|].
    cbn [default from_option id]. rewrite (Hclamp 1 (R + 1)) by lia. do 2 f_equal. lia.
  - eapply returns_shape; [by apply (slice1_returns _ _ _ b (1 + R + N) D)|].
    cbn [default from_option id]. rewrite (Hclamp (R + 1) (1 + R + N)) by lia. do 2 f_equal. lia.
Qed.

Lemma VisionTransformer_forward_features_returns {G} `{HG : Generator G}
    (XFORMERS_AVAILABLE training : bool)
    (a : VisionTransformer.args) (m : VisionTransformer.t) (x : Tensor)
    (masks : option Tensor) (s p hd b H W : Z) (g : G) :
  VisionTransformer.init a = Ok m →
  VisionTransformer.img_size a = IInt s →
  VisionTransformer.patch_size a = IInt p →
  0 < p ≤ s →
  VisionTransformer.embed_dim a = VisionTransformer.num_heads a * hd →
  0 < VisionTransformer.num_heads a → 0 < hd →
  (VisionTransformer.ffn_layer a ≠ "mlp" →
   ∃ hid width,
     int_of_float (float_of_int (VisionTransformer.embed_dim a)
                   * VisionTransformer.mlp_ratio a) = Ok hid ∧
     SwiGLUFFNFused.hidden_features (VisionTransformer.embed_dim a) (Some hid) = Ok width ∧
     0 ≤ width) →
  training = false ∨ VisionTransformer.drop_path_rate a = 0%float →
  shape x = [b; VisionTransformer.in_chans a; H; W] →
  0 ≤ b → 0 < H → 0 < W → H mod p = 0 → W mod p = 0 →
  match masks with
  | Some masks => shape masks = [b; H / p * (W / p)]
  | None => True
  end →
  (H = s ∧ W = s ∨
   VisionTransformer.interpolate_offset a = 0%float ∨
   VisionTransformer.interpolate_offset a = 0.1%float ∧
   s / p ≤ grid_bound ∧ H / p < target_bound ∧ W / p < target_bound) →
  let D := VisionTransformer.embed_dim a in
  let R := VisionTransformer.num_register_tokens a in
  let N := H / p * (W / p) in
  ∃ ret,
    VisionTransformer.forward_features XFORMERS_AVAILABLE m training x masks g
    = Ok (ret, g) ∧
    shape (VisionTransformer.x_norm_1st_clstoken ret) = [b; 1; D] ∧
    shape (VisionTransformer.x_norm_2nd_clstoken ret) = [b; R; D] ∧
    shape (VisionTransformer.x_norm_patchtokens ret) = [b; N; D] ∧
    shape (VisionTransformer.x_prenorm ret) = [b; 1 + R + N; D] ∧
    VisionTransformer.masks ret = masks.
Proof.
  intros Hinit Himg Hpatch Hp Hdim Hheads Hhd Hswiglu Hmode Hx Hb HH HW HHp HWp
         Hmasks Hoff D R N.
  assert (0 < D) as HD by (unfold D; nia).
  destruct (VisionTransformer_init_blocks training a m hd Hinit HD Hdim Hheads
              ltac:(lia) Hswiglu Hmode) as (bs & Hlen & Hchunks & Hbs).
  destruct (VisionTransformer_init_parts _ _ Hinit)
    as (_ & _ & _ & HR & _ & HsR & HsD & _).
  destruct (prepare_tokens_with_masks_returns a m x masks s p b H W Hinit Himg Hpatch
              Hp HD Hx HH HW HHp HWp Hmasks Hoff) as (x0 & Hprep & Hx0).
  fold D R N in Hx0, HR.
  assert (0 ≤ N) as HN.
  { unfold N. apply Z.mul_nonneg_nonneg; apply Z.div_pos; lia. }
  destruct (forward_blocks_built XFORMERS_AVAILABLE hd training _ _ bs _ x0 b (1 + R + N) D g
              Hlen Hchunks Hbs Hb ltac:(lia) Hx0) as (x1 & Hblocks & Hx1).
  destruct (layer_norm_returns "norm" D x1 b (1 + R + N) Hx1) as (xn & Hnorm & Hxn).
  destruct (slice_parts_returns xn b R N D Hxn HR HN)
    as ((c1 & Hc1 & Hs1) & (c2 & Hc2 & Hs2) & (pt & Hpt & Hs3)).
  exists (VisionTransformer.mkFeatures c1 c2 pt x1 masks). split; [|done].
  unfold VisionTransformer.forward_features. unfold mbind at 1, M_bind at 1.
  rewrite Hprep. cbn [lift]. unfold mbind at 1, M_bind at 1. rewrite Hblocks.
  rewrite HsD, HsR. fold D R. rewrite Hnorm. cbn [mbind result_bind].
  rewrite Hc1. cbn [mbind result_bind]. rewrite Hc2. cbn [mbind result_bind].
  rewrite Hpt. done.
Qed.


(** X12.  Every preset ([vit_small], [vit_base], [vit_large], [vit_so400m],
    [vit_giant2]) builds with the defaults of the signature and a patch size
    of 14, and its forward pass on a batch of [b] images of 224 x 224
    pixels returns, in either module mode and with or without xFormers, the
    class token and the register token, each of shape [b, 1, D], and 256
    patch tokens of width [D], the width of the preset. *)
Theorem presets_forward_shapes {G} `{HG : Generator G}
    (XFORMERS_AVAILABLE training : bool) (x : Tensor) (b : Z) (g : G) :
  0 ≤ b →
  shape x = [b; 3; 224; 224] →
  Forall (λ '(preset, D),
            ∃ model cls_token register_token patch_tokens,
              preset (IInt 14) VisionTransformer.defaults = Ok model ∧
              VisionTransformer.forward XFORMERS_AVAILABLE model training x None false g
              = Ok (VisionTransformer.Tuple3 cls_token register_token patch_tokens, g) ∧
              shape cls_token = [b; 1; D] ∧
              shape register_token = [b; 1; D] ∧
              shape patch_tokens = [b; 256; D])
         presets.
Proof.
  intros Hb Hx.
  assert (∀ (a : VisionTransformer.args) (hd : Z) model,
            VisionTransformer.init a = Ok model →
            VisionTransformer.img_size a = IInt 224 →
            VisionTransformer.patch_size a = IInt 14 →
            VisionTransformer.in_chans a = 3 →
            VisionTransformer.ffn_layer a = "mlp" →
            VisionTransformer.drop_path_rate a = 0%float →
            VisionTransformer.num_register_tokens a = 1 →
            VisionTransformer.embed_dim a = VisionTransformer.num_heads a * hd →
            0 < VisionTransformer.num_heads a → 0 < hd →
            ∃ cls_token register_token patch_tokens,
              VisionTransformer.forward XFORMERS_AVAILABLE model training x None false g
              = Ok (VisionTransformer.Tuple3 cls_token register_token patch_tokens, g) ∧
              shape cls_token = [b; 1; VisionTransformer.embed_dim a] ∧
              shape register_token = [b; 1; VisionTransformer.embed_dim a] ∧
              shape patch_tokens = [b; 256; VisionTransformer.embed_dim a]) as Hpreset.
  { intros a hd model Hinit Himg Hpatch Hchans Hffn Hrate HR HD Hheads Hhd.
    rewrite <- Hchans in Hx.
    assert (VisionTransformer.ffn_layer a ≠ "mlp" →
            ∃ hid width,
              int_of_float (float_of_int (VisionTransformer.embed_dim a)
                            * VisionTransformer.mlp_ratio a) = Ok hid ∧
              SwiGLUFFNFused.hidden_features (VisionTransformer.embed_dim a) (Some hid)
              = Ok width ∧ 0 ≤ width) as Hsw by done.
    destruct (VisionTransformer_forward_features_returns XFORMERS_AVAILABLE training
                a model x None 224 14 hd b 224 224 g Hinit Himg Hpatch ltac:(lia) HD
                Hheads Hhd Hsw (or_intror Hrate) Hx Hb ltac:(lia) ltac:(lia)
                eq_refl eq_refl I (or_introl (conj eq_refl eq_refl)))
      as (ret & Hff & Hs1 & Hs2 & Hs3 & _).
    rewrite HR in Hs2. change (224 / 14 * (224 / 14)) with 256 in Hs3.
    exists (VisionTransformer.x_norm_1st_clstoken ret),
           (VisionTransformer.x_norm_2nd_clstoken ret),
           (VisionTransformer.x_norm_patchtokens ret).
    split; [|done].
    unfold VisionTransformer.forward, mbind, M_bind. by rewrite Hff. }
  unfold presets. repeat apply Forall_cons_2; [..|apply Forall_nil_2].
  - destruct (vit_small (IInt 14) VisionTransformer.defaults) as [model|e] eqn:Hm;
      [|by vm_compute in Hm].
    exists model.
    destruct (Hpreset _ 64 model Hm) as (c1 & c2 & pt & Hfwd); try done.
    by exists c1, c2, pt.
  - destruct (vit_base (IInt 14) VisionTransformer.defaults) as [model|e] eqn:Hm;
      [|by vm_compute in Hm].
    exists model.
    destruct (Hpreset _ 64 model Hm) as (c1 & c2 & pt & Hfwd); try done.
    by exists c1, c2, pt.
  - destruct (vit_large (IInt 14) VisionTransformer.defaults) as [model|e] eqn:Hm;
      [|by vm_compute in Hm].
    exists model.
    destruct (Hpreset _ 64 model Hm) as (c1 & c2 & pt & Hfwd); try done.
    by exists c1, c2, pt.
  - destruct (vit_so400m (IInt 14) VisionTransformer.defaults) as [model|e] eqn:Hm;
      [|by vm_compute in Hm].
    exists model.
    destruct (Hpreset _ 72 model Hm) as (c1 & c2 & pt & Hfwd); try done.
    by exists c1, c2, pt.
  - destruct (vit_giant2 (IInt 14) VisionTransformer.defaults) as [model|e] eqn:Hm;
      [|by vm_compute in Hm].
    exists model.
    destruct (Hpreset _ 64 model Hm) as (c1 & c2 & pt & Hfwd); try done.
    by exists c1, c2, pt.
Qed.

(** ** What the constructors refuse *)

(** X13.  [VisionTransformer.__init__], once the patch embedding and the
    positional table are built, refuses a negative number of register tokens
    with an [AssertionError] and every [ffn_layer] other than ["mlp"],
    ["swiglufused"] and ["swiglu"] with [NotImplementedError]; so it does
    the ["identity"] that its docstring lists. *)
Theorem VisionTransformer_init_rejects (a : VisionTransformer.args) (pe : PatchEmbed.t) :
  PatchEmbed.init (VisionTransformer.img_size a) (VisionTransformer.patch_size a)
                  (VisionTransformer.in_chans a) (VisionTransformer.embed_dim a)
                  false true = Ok pe →
  0 ≤ VisionTransformer.embed_dim a →
  0 ≤ PatchEmbed.num_patches pe + 1 →
  (VisionTransformer.num_register_tokens a < 0 →
     VisionTransformer.init a = Raise AssertionError) ∧
  (0 ≤ VisionTransformer.num_register_tokens a →
   VisionTransformer.ffn_layer a ≠ "mlp" →
   VisionTransformer.ffn_layer a ≠ "swiglufused" →
   VisionTransformer.ffn_layer a ≠ "swiglu" →
     VisionTransformer.init a = Raise NotImplementedError).
Proof.
  intros Hpe HD HN. unfold VisionTransformer.init. rewrite Hpe.
  cbn [mbind result_bind]. unfold VisionTransformer.parameter. cbn [forallb].
  assert ((0 <=? VisionTransformer.embed_dim a) = true) as HDb by by apply Z.leb_le.
  assert ((0 <=? PatchEmbed.num_patches pe + 1) = true) as HNb by by apply Z.leb_le.
  rewrite HDb, HNb. cbn [andb mbind result_bind Z.leb Z.compare]. split.
  - intros HR.
    by assert ((0 <=? VisionTransformer.num_register_tokens a) = false) as ->
      by (apply Z.leb_gt; lia).
  - intros HR Hmlp Hfused Hswiglu.
    assert ((0 <=? VisionTransformer.num_register_tokens a) = true) as HRb
      by by apply Z.leb_le.
    rewrite HRb. cbn [assert mbind result_bind andb].
    apply String.eqb_neq in Hmlp, Hfused, Hswiglu.
    destruct (VisionTransformer.num_register_tokens a =? 0);
      cbn [mbind result_bind fmap result_fmap orb];
      by rewrite Hmlp, Hfused, Hswiglu.
Qed.

(** X14.  [Attention.__init__] with no head, or with more heads than
    channels, raises [ZeroDivisionError]: [dim // num_heads] divides by
    zero, or is zero and [head_dim ** -0.5] raises. *)
Theorem Attention_init_too_many_heads (dim num_heads : Z) (attn_drop proj_drop : float) :
  num_heads = 0 ∨ 0 ≤ dim < num_heads →
  Attention.init dim num_heads attn_drop proj_drop = Raise ZeroDivisionError.
Proof.
  intros [->|Hd]; [done|]. unfold Attention.init, floordiv.
  assert ((num_heads =? 0) = false) as -> by (apply Z.eqb_neq; lia).
  cbn [mbind result_bind]. by rewrite Z.div_small by lia.
Qed.

Lemma reshape_heads_fails (x : Tensor) (b n c heads : Z) :
  shape x = [b; n; c * 3] → 0 < b → 0 < n → 0 ≤ c → 0 < heads → c mod heads ≠ 0 →
  reshape [b; n; 3; heads; c / heads] x = Raise RuntimeError.
Proof.
  intros Hx Hb Hn Hc Hh Hmod. unfold reshape, infer_shape. rewrite Hx.
  assert (0 ≤ c / heads) as Hq by (apply Z.div_pos; lia).
  rewrite bool_decide_eq_false_2; cycle 1.
  { intros Hex. apply Exists_exists in Hex as (d & Hd & Hlt).
    clear Hmod Hx. set (q := c / heads) in *. clearbody q.
    repeat (apply elem_of_cons in Hd as [->|Hd]; [lia|]). by apply elem_of_nil in Hd. }
  rewrite filter_nonneg_unknown by (repeat constructor; lia).
  cbn [length numel foldr].
  assert ((b * (n * (3 * (heads * (c / heads * 1)))) =? b * (n * (c * 3 * 1))) = false) as ->.
  { apply Z.eqb_neq. intros Heq.
    assert (heads * (c / heads) < c) as Hlt.
    { pose proof (Z.div_mod c heads ltac:(lia)).
      pose proof (Z.mod_pos_bound c heads ltac:(lia)). lia. }
    assert (b * n * 3 * (heads * (c / heads)) = b * n * 3 * c) as Heq' by lia.
    apply Z.mul_reg_l in Heq'; [lia|]. nia. }
  done.
Qed.

(** X15.  [Attention.__init__] accepts any number of heads from 1 to
    [dim], also one that does not divide [dim]; the forward pass on a
    non-empty batch [b, n, dim] then keeps the shape when the heads divide
    [dim] and otherwise fails in [reshape] with a [RuntimeError], and so does
    [MemEffAttention.forward], with or without xFormers. *)
Theorem Attention_heads_must_divide (dim num_heads : Z) (attn_drop proj_drop : float)
    (training : bool) (x : Tensor) (b n : Z) :
  0 < num_heads ≤ dim → shape x = [b; n; dim] → 0 < b → 0 < n →
  ∃ self,
    Attention.init dim num_heads attn_drop proj_drop = Ok self ∧
    (dim mod num_heads = 0 →
       returns (Attention.forward self training x) [b; n; dim] ∧
       ∀ xformers, returns (MemEffAttention.forward xformers self training x None)
                           [b; n; dim]) ∧
    (dim mod num_heads ≠ 0 →
       Attention.forward self training x = Raise RuntimeError ∧
       ∀ xformers, MemEffAttention.forward xformers self training x None
                   = Raise RuntimeError).
Proof.
  intros Hh Hx Hb Hn.
  assert (0 < dim / num_heads) as Hq by (apply Z.div_str_pos; lia).
  exists (Attention.mk dim num_heads (dim / num_heads) attn_drop proj_drop). split.
  { unfold Attention.init, floordiv.
    assert ((num_heads =? 0) = false) as -> by (apply Z.eqb_neq; lia).
    cbn [mbind result_bind].
    assert ((dim / num_heads =? 0) = false) as -> by (apply Z.eqb_neq; lia).
    cbn [mbind result_bind].
    by assert ((dim <? 0) = false) as -> by (apply Z.ltb_ge; lia). }
  split.
  - intros Hmod.
    assert (dim = num_heads * (dim / num_heads)) as Hdim.
    { pose proof (Z.div_mod dim num_heads ltac:(lia)). lia. }
    split; [|intros xformers].
    + apply (Attention_forward_returns
               (Attention.mk dim num_heads (dim / num_heads) attn_drop proj_drop)
               training x b n (dim / num_heads)); cbn; try done; lia.
    + apply (MemEffAttention_forward_returns xformers
               (Attention.mk dim num_heads (dim / num_heads) attn_drop proj_drop)
               training x b n (dim / num_heads)); cbn; try done; lia.
  - intros Hmod.
    assert (Attention.forward
              (Attention.mk dim num_heads (dim / num_heads) attn_drop proj_drop) training x
            = Raise RuntimeError) as Hdense.
    { unfold Attention.forward, unpack3. rewrite Hx. cbn [mbind result_bind Attention.dim
        Attention.num_heads].
      destruct (linear_returns "qkv" dim (dim * 3) x b n Hx) as (qkv & -> & Hqkv).
      cbn [mbind result_bind]. unfold floordiv.
      assert ((num_heads =? 0) = false) as -> by (apply Z.eqb_neq; lia).
      cbn [mbind result_bind]. rewrite (reshape_heads_fails qkv b n dim num_heads) by (try done; lia).
      done. }
    split; [done|]. intros [|]; [|by unfold MemEffAttention.forward].
    unfold MemEffAttention.forward, unpack3. rewrite Hx. cbn [negb mbind result_bind Attention.dim
      Attention.num_heads].
    destruct (linear_returns "qkv" dim (dim * 3) x b n Hx) as (qkv & -> & Hqkv).
    cbn [mbind result_bind]. unfold floordiv.
    assert ((num_heads =? 0) = false) as -> by (apply Z.eqb_neq; lia).
    cbn [mbind result_bind]. rewrite (reshape_heads_fails qkv b n dim num_heads) by (try done; lia).
    done.
Qed.

(** ** Runs of the small encoders *)

(** Two images of 42 x 28 pixels on the encoder of 28 x 28: six patches. *)
Lemma prepare_tokens_with_masks_tokens_witness :
  returns (VisionTransformer.prepare_tokens_with_masks (tiny_model 28 28)
             (images 2 42 28) None) [2; 7; 8].
Proof.
  apply (proj1 (prepare_tokens_with_masks_tokens (tiny_args (IInt 28)) (tiny_model 28 28)
                  (images 2 42 28) None 28 14 2 42 28 tiny_init_28_28 eq_refl eq_refl
                  ltac:(lia) ltac:(simpl; lia) eq_refl ltac:(lia) ltac:(lia))).
  - reflexivity.
  - reflexivity.
  - exact I.
  - right. right. split; [reflexivity|]. by vm_compute.
Defined.


Lemma presets_forward_shapes_witness :
  Forall (λ '(preset, D),
            ∃ model cls_token register_token patch_tokens,
              preset (IInt 14) VisionTransformer.defaults = Ok model ∧
              VisionTransformer.forward true model false (images 2 224 224) None false tt
              = Ok (VisionTransformer.Tuple3 cls_token register_token patch_tokens, tt) ∧
              shape cls_token = [2; 1; D] ∧
              shape register_token = [2; 1; D] ∧
              shape patch_tokens = [2; 256; D])
         presets.
Proof.
  apply (presets_forward_shapes true false (images 2 224 224) 2 tt ltac:(lia) eq_refl).
Defined.

Lemma VisionTransformer_init_rejects_witness :
  VisionTransformer.init identity_ffn_args = Raise NotImplementedError.
Proof.
  apply (proj2 (VisionTransformer_init_rejects identity_ffn_args
                  (PatchEmbed.mk (224, 224) (16, 16) (14, 14) 196 3 768 true false)
                  eq_refl ltac:(simpl; lia) ltac:(simpl; lia))); [simpl; lia|done..].
Defined.

Lemma Attention_init_too_many_heads_witness :
  Attention.init 4 8 0 0 = Raise ZeroDivisionError.
Proof. apply Attention_init_too_many_heads. right. lia. Defined.

Lemma Attention_heads_must_divide_witness :
  ∃ self,
    Attention.init 10 4 0 0 = Ok self ∧
    Attention.forward self false (tokens 1 3 10) = Raise RuntimeError.
Proof.
  destruct (Attention_heads_must_divide 10 4 0 0 false (tokens 1 3 10) 1 3
              ltac:(lia) eq_refl ltac:(lia) ltac:(lia)) as (self & Hinit & _ & Hfail).
  exists self. split; [exact Hinit|]. apply Hfail. done.
Defined.

(** ** Nested tensors without xFormers *)

Section NestedWithoutXformers.
Context {T G : Type} `{Batch T} `{Nestable T} `{Generator G}.
Implicit Types (st : cache_state) (x_list : list T) (g : G).

Lemma get_attn_bias_and_cat_unavailable st x_list branges :
  (get_attn_bias_and_cat false st x_list branges).1 = st ∧
  (attn_bias_cache st = ∅ →
   ∃ e, (get_attn_bias_and_cat false st x_list branges).2 = Raise e).
Proof.
  unfold get_attn_bias_and_cat.
  destruct (all_shapes_of x_list branges) as [[batch_sizes key]|e].
  - destruct (attn_bias_cache st !! key) as [m|] eqn:Hkey.
    + split; [done|]. intros Hempty. by rewrite Hempty, lookup_empty in Hkey.
    + split; [done|]. intros _. by eexists.
  - split; [done|]. intros _. by eexists.
Qed.

Lemma drop_add_list_unavailable st x_list
    (residual_func : T → option BlockDiagonalMask → result T)
    (r : float) (scaling_vector : option string) g :
  let run := drop_add_residual_stochastic_depth_list false st x_list residual_func
               r scaling_vector g in
  run.1 = st ∧ (attn_bias_cache st = ∅ → ∃ e, run.2 = Raise e).
Proof.
  cbv zeta. unfold drop_add_residual_stochastic_depth_list.
  destruct (mapM (M := M G) _ x_list g) as [[branges_scales g']|e].
  - destruct (get_attn_bias_and_cat_unavailable st x_list (Some branges_scales.*1))
      as [Hst Hraise].
    destruct (get_attn_bias_and_cat false st x_list _) as [st' res].
    cbn [fst snd] in *. split; [done|]. intros Hempty.
    destruct (Hraise Hempty) as [e ->]. by eexists.
  - split; [done|]. intros _. by eexists.
Qed.

(** X16.  Without xFormers nested tensors are out of reach:
    [NestedTensorBlock.forward] raises [AssertionError] on every list and
    leaves the attention-bias cache alone; [forward_nested], called directly,
    never changes the cache either, which therefore stays empty, and on an
    empty cache it raises on every list, in either mode. *)
Theorem nested_tensors_need_xformers (self : NestedTensorBlock T) (training : bool)
    st x_list g :
  NestedTensorBlock_forward false self training st (AList x_list) g
  = (st, Raise AssertionError) ∧
  (forward_nested false self training st x_list g).1 = st ∧
  (attn_bias_cache st = ∅ →
   ∃ e, (forward_nested false self training st x_list g).2 = Raise e).
Proof.
  split; [done|]. unfold forward_nested.
  destruct (negb (nt_attn_is_mem_eff self)).
  { split; [done|]. intros _. by eexists. }
  destruct (training && _).
  - match goal with
    | |- context [drop_add_residual_stochastic_depth_list false st x_list ?f ?r ?s g] =>
        destruct (drop_add_list_unavailable st x_list f r s g) as [Hst Hraise];
        destruct (drop_add_residual_stochastic_depth_list false st x_list f r s g)
          as [st1 [[x_list1 g1]|e]]
    end; cbn [fst snd] in *; subst st1.
    + split.
      * apply drop_add_list_unavailable.
      * intros Hempty. by destruct (Hraise Hempty).
    + split; [done|]. intros _. by eexists.
  - destruct (get_attn_bias_and_cat_unavailable st x_list None) as [Hst Hraise].
    destruct (get_attn_bias_and_cat false st x_list None) as [st' res].
    cbn [fst snd] in *. split; [done|]. intros Hempty.
    destruct (Hraise Hempty) as [e ->]. by eexists.
Qed.

End NestedWithoutXformers.

(** ** The cache under [forward_nested] *)

Section NestedCacheFacts.
Context {T G : Type} `{Batch T} `{Nestable T} `{GeneratorLaws G}.
Implicit Types (st : cache_state) (x_list ys : list T) (g : G)
  (branges : list (list nat)).

Lemma get_branges_scales_length (x : T) (r : float) g brange scale g' :
  get_branges_scales x r g = Ok ((brange, scale), g') →
  ∃ b k, batch_size x = Ok b ∧ sample_subset_size b r = Ok k ∧
         length brange = (Z.to_nat k `min` Z.to_nat b)%nat.
Proof.
  unfold get_branges_scales.
  intros (b & g0 & Hb & (k & g1 & Hk & (perm & g2 & Hp & Hret)%M_bind_Ok)%M_bind_Ok)%M_bind_Ok.
  unfold lift in Hb, Hk.
  destruct (batch_size x) as [b'|e] eqn:Hbx; [|done]. injection Hb as -> <-.
  destruct (sample_subset_size b r) as [k'|e] eqn:Hkx; [|done]. injection Hk as -> <-.
  pose proof (randperm_perm b g) as Hperm.
  unfold draw in Hp. injection Hp as Hp.
  rewrite Hp in Hperm. cbn [fst] in Hperm.
  unfold mret, M_ret in Hret. injection Hret as <- _ _.
  exists b, k. split_and!; [done..|].
  by rewrite length_take, Hperm, length_seq.
Qed.

Lemma mapM_get_branges_scales (r : float) x_list g bss g' :
  mapM (M := M G) (λ x, get_branges_scales x r) x_list g = Ok (bss, g') →
  Forall2 (λ x bs, ∃ b k, batch_size x = Ok b ∧ sample_subset_size b r = Ok k ∧
                          length bs.1 = (Z.to_nat k `min` Z.to_nat b)%nat)
          x_list bss.
Proof.
  revert g bss. induction x_list as [|x x_list IH]; intros g bss.
  - cbn [mapM]. unfold mret, M_ret. intros [= <- _]. constructor.
  - cbn [mapM].
    intros ([brange scale] & g1 & Hx & (k & g2 & Hk & Hret)%M_bind_Ok)%M_bind_Ok.
    unfold mret, M_ret in Hret. injection Hret as <- <-.
    constructor; [|by eapply IH].
    by eapply get_branges_scales_length.
Qed.

(** The subsets drawn for two lists of tensors with the same batch sizes
    have the same sizes. *)
Lemma branges_lengths (r : float) x_list ys g1 g2 bss1 bss2 g1' g2' :
  Forall2 same_nested_shape x_list ys →
  mapM (M := M G) (λ x, get_branges_scales x r) x_list g1 = Ok (bss1, g1') →
  mapM (M := M G) (λ x, get_branges_scales x r) ys g2 = Ok (bss2, g2') →
  length <$> bss1.*1 = length <$> bss2.*1.
Proof.
  intros Hsame Hm1%mapM_get_branges_scales Hm2%mapM_get_branges_scales.
  revert bss1 bss2 Hm1 Hm2.
  induction Hsame as [|x y x_list ys [Hb _] _ IH]; intros bss1 bss2 Hm1 Hm2.
  { apply Forall2_nil_inv_l in Hm1 as ->. by apply Forall2_nil_inv_l in Hm2 as ->. }
  apply Forall2_cons_inv_l in Hm1 as (bs1 & bss1' & (b1 & k1 & Hb1 & Hk1 & Hl1) & Hm1 & ->).
  apply Forall2_cons_inv_l in Hm2 as (bs2 & bss2' & (b2 & k2 & Hb2 & Hk2 & Hl2) & Hm2 & ->).
  rewrite !fmap_cons. f_equal; [|by apply IH].
  rewrite Hb, Hb1 in Hb2. injection Hb2 as <-.
  rewrite Hk1 in Hk2. injection Hk2 as <-. congruence.
Qed.

Lemma fst_zip_pairs {A} (bs : list Z) (l : list A) (key : shape_signature) :
  (length bs ≤ length l)%nat →
  Forall2 (λ '(b, x) k, k.1 = b) (zip bs l) key → key.*1 = bs.
Proof.
  revert l key. induction bs as [|b bs IH]; intros [|x l] key Hlen; cbn [zip zip_with].
  - by intros ->%Forall2_nil_inv_l.
  - by intros ->%Forall2_nil_inv_l.
  - simpl in Hlen. lia.
  - intros (k & key' & Hk & Hkey & ->)%Forall2_cons_inv_l.
    rewrite fmap_cons. f_equal; [done|]. apply (IH l); [simpl in Hlen; lia|done].
Qed.

(** The signature of a call lists the batch sizes, one per tensor. *)
Lemma all_shapes_of_key x_list (branges : option (list (list nat))) bs
    (key : shape_signature) :
  (∀ b, branges = Some b → length b = length x_list) →
  all_shapes_of x_list branges = Ok (bs, key) →
  key.*1 = bs ∧ length key = length x_list.
Proof.
  intros Hlen. unfold all_shapes_of.
  destruct (batch_sizes_of x_list branges) as [bs'|e] eqn:Hbs; [|done].
  assert (length bs' = length x_list) as Hbs'.
  { destruct branges as [b|]; cbn [batch_sizes_of] in Hbs.
    - injection Hbs as <-. rewrite length_fmap. by apply Hlen.
    - apply mapM_result_Forall2 in Hbs. symmetry. by eapply Forall2_length. }
  cbn [mbind result_bind].
  destruct (mapM _ (zip bs' x_list)) as [key'|e] eqn:Hkey; [|done].
  cbn [mbind result_bind mret result_ret]. intros [= <- <-].
  apply mapM_result_Forall2 in Hkey. split.
  - apply (fst_zip_pairs _ x_list); [lia|].
    eapply Forall2_impl; [apply Hkey|]. intros [b x] k. cbn beta iota.
    destruct (nshape1 x) as [n|e]; [|done]. cbn [mbind result_bind mret result_ret].
    by intros [= <-].
  - apply Forall2_length in Hkey. rewrite <- Hkey, length_zip. lia.
Qed.

(** The signature depends on the sizes of the subsets and on the sequence
    lengths only. *)
Lemma all_shapes_of_same x_list ys branges1 branges2 :
  Forall2 same_nested_shape x_list ys →
  length <$> branges1 = length <$> branges2 →
  all_shapes_of ys (Some branges2) = all_shapes_of x_list (Some branges1).
Proof.
  intros Hsame Hlen. unfold all_shapes_of. cbn [batch_sizes_of mbind result_bind].
  assert ((λ b : list nat, Z.of_nat (length b)) <$> branges2
          = (λ b : list nat, Z.of_nat (length b)) <$> branges1) as ->.
  { change (λ b : list nat, Z.of_nat (length b)) with (Z.of_nat ∘ (length (A := nat))).
    by rewrite !list_fmap_compose, Hlen. }
  generalize ((λ b : list nat, Z.of_nat (length b)) <$> branges1). intros bs.
  assert (mapM (M := result) (λ '(b, x), n ← nshape1 x; mret (b, n)) (zip bs ys)
          = mapM (M := result) (λ '(b, x), n ← nshape1 x; mret (b, n)) (zip bs x_list)) as ->;
    [|done].
  revert bs. induction Hsame as [|x y x_list ys [_ Hn] _ IH]; intros [|b bs]; try done.
  cbn [zip zip_with mapM]. by rewrite Hn, IH.
Qed.

Lemma get_attn_bias_and_cat_ok (XFORMERS_AVAILABLE : bool) st x_list
    (branges : option (list (list nat))) :
  cache_ok st →
  (∀ b, branges = Some b → length b = length x_list) →
  cache_ok (get_attn_bias_and_cat XFORMERS_AVAILABLE st x_list branges).1.
Proof.
  intros Hst Hlen. unfold get_attn_bias_and_cat.
  destruct (all_shapes_of x_list branges) as [[bs key]|e] eqn:Hshapes; [|done].
  destruct (attn_bias_cache st !! key) as [m|] eqn:Hm; [done|].
  destruct XFORMERS_AVAILABLE; [|done].
  cbn [fst]. intros key' m'. cbn [attn_bias_cache].
  intros [[<- <-]|[_ Hkey]]%lookup_insert_Some; [|by apply Hst].
  cbn [seqlens _batch_sizes]. split; [done|].
  symmetry. by eapply all_shapes_of_key.
Qed.

(** One call grows the cache by at most one entry. *)
Lemma get_attn_bias_and_cat_grows (XFORMERS_AVAILABLE : bool) st x_list
    (branges : option (list (list nat))) :
  let st' := (get_attn_bias_and_cat XFORMERS_AVAILABLE st x_list branges).1 in
  attn_bias_cache st ⊆ attn_bias_cache st' ∧
  (base.size (attn_bias_cache st') ≤ S (base.size (attn_bias_cache st)))%nat.
Proof.
  destruct (get_attn_bias_and_cat_cache XFORMERS_AVAILABLE st x_list branges)
    as [->|(bs & key & _ & Hnone & ->)]; [split; [done|lia]|].
  cbn [attn_bias_cache]. split.
  - by apply insert_subseteq.
  - by rewrite map_size_insert_None.
Qed.

Section Residuals.
Context (index_add_shape : ∀ (x : T) brange residual alpha y,
           index_add x brange residual alpha = Ok y → same_nested_shape x y).
Context (scaled_index_add_shape : ∀ (x : T) brange residual gamma alpha y,
           scaled_index_add x brange residual gamma alpha = Ok y →
           same_nested_shape x y).
Context (split_length : ∀ attn_bias (x : T) ys,
           split attn_bias x = Ok ys → length ys = length (_batch_sizes attn_bias)).

Lemma add_residual_shape (x : T) brange residual alpha scaling_vector y :
  add_residual x brange residual alpha scaling_vector = Ok y → same_nested_shape x y.
Proof.
  unfold add_residual. destruct scaling_vector.
  - apply scaled_index_add_shape.
  - apply index_add_shape.
Qed.

Lemma mapM_add_residual scaling_vector x_list (rest : list (list nat * (T * float))) ys :
  (length x_list ≤ length rest)%nat →
  mapM (M := result)
       (λ '(x, (brange, (residual, residual_scale_factor))),
          add_residual x brange residual residual_scale_factor scaling_vector)
       (zip x_list rest) = Ok ys →
  Forall2 same_nested_shape x_list ys.
Proof.
  revert rest ys. induction x_list as [|x x_list IH]; intros rest ys Hlen.
  { cbn [zip zip_with mapM]. intros [= <-]. constructor. }
  destruct rest as [|[brange [residual alpha]] rest]; [simpl in Hlen; lia|].
  cbn [zip zip_with mapM].
  intros (y & Hy & Hys)%result_bind_Ok_inv.
  apply result_bind_Ok_inv in Hys as (ys' & Hys' & [= <-]).
  constructor; [by eapply add_residual_shape|].
  apply (IH rest); [simpl in Hlen; lia|done].
Qed.

(** A call of [drop_add_residual_stochastic_depth_list] that returns leaves
    the mask of its signature in the cache, and its outputs have the shapes
    of its inputs. *)
Lemma drop_add_list_returns (XFORMERS_AVAILABLE : bool) st x_list
    (residual_func : T → option BlockDiagonalMask → result T)
    (r : float) (scaling_vector : option string) g st1 ys g1 :
  cache_ok st →
  drop_add_residual_stochastic_depth_list XFORMERS_AVAILABLE st x_list residual_func
    r scaling_vector g = (st1, Ok (ys, g1)) →
  Forall2 same_nested_shape x_list ys ∧
  ∃ bss g' sig,
    mapM (M := M G) (λ x, get_branges_scales x r) x_list g = Ok (bss, g') ∧
    all_shapes_of x_list (Some bss.*1) = Ok sig ∧
    is_Some (attn_bias_cache st1 !! sig.2).
Proof.
  intros Hst. unfold drop_add_residual_stochastic_depth_list.
  destruct (mapM (M := M G) _ x_list g) as [[bss g']|e] eqn:Hm; [|by intros [= _ ?]].
  pose proof (mapM_get_branges_scales _ _ _ _ _ Hm) as Hbss.
  apply Forall2_length in Hbss.
  pose proof (get_attn_bias_and_cat_ok XFORMERS_AVAILABLE st x_list (Some bss.*1) Hst) as Hok.
  destruct (get_attn_bias_and_cat _ st x_list _) as [st' res] eqn:Hget.
  intros [= -> Hres]. cbn [fst] in Hok.
  apply result_bind_Ok_inv in Hres as ([attn_bias x_cat] & -> & Hres).
  apply result_bind_Ok_inv in Hres as (residual & _ & Hres).
  apply result_bind_Ok_inv in Hres as (residual_list & Hsplit & Hres).
  apply result_bind_Ok_inv in Hres as (outputs & Hout & [= <- <-]).
  destruct (get_attn_bias_and_cat_returns _ _ _ _ _ _ _ Hget)
    as (bs & key & Hsig & Hnew & _).
  assert (length bss.*1 = length x_list) as Hbl by by rewrite length_fmap.
  assert (∀ b, Some bss.*1 = Some b → length b = length x_list) as Hsome
    by by intros b [= <-].
  destruct (all_shapes_of_key x_list (Some bss.*1) bs key Hsome Hsig) as [Hkey Hkl].
  destruct (Hok Hsome _ _ Hnew) as [_ Hbatch].
  split.
  - apply (mapM_add_residual scaling_vector x_list
             (zip bss.*1 (zip residual_list bss.*2)) outputs); [|done].
    rewrite !length_zip, !length_fmap, (split_length _ _ _ Hsplit), Hbatch, length_fmap.
    lia.
  - exists bss, g', (bs, key). by split_and!.
Qed.

(** X17.  A call of [forward_nested] never removes or replaces an entry of
    the attention-bias cache and adds at most one, in either mode: in
    training mode the two residual branches draw subsets of the same sizes
    from tensors of the same shapes, so the second branch finds the mask that
    the first one built.  The block is one that [Block.__init__] builds
    ([ls1] and [ls2] are both a [LayerScale] or both the identity), the
    residuals are added into tensors of the shape of [x] ([view_as(x)]),
    [attn_bias.split] returns one tensor per batch size, and the cache
    holds the masks of its signatures, as the empty cache does. *)
Theorem forward_nested_one_mask (XFORMERS_AVAILABLE : bool) (self : NestedTensorBlock T)
    (training : bool) st x_list g :
  (is_Some (nt_ls1 self) ↔ is_Some (nt_ls2 self)) →
  cache_ok st →
  let st' := (forward_nested XFORMERS_AVAILABLE self training st x_list g).1 in
  attn_bias_cache st ⊆ attn_bias_cache st' ∧
  (base.size (attn_bias_cache st') ≤ S (base.size (attn_bias_cache st)))%nat ∧
  cache_ok st'.
Proof.
  intros _ Hst. cbv zeta. unfold forward_nested.
  destruct (negb (nt_attn_is_mem_eff self)); [split_and!; [done|cbn; lia|done]|].
  destruct (training && _).
  - match goal with
    | |- context [drop_add_residual_stochastic_depth_list _ st x_list ?f ?r ?s g] =>
        pose proof (drop_add_list_returns XFORMERS_AVAILABLE st x_list f r s g) as Hret;
        assert (let st1 := (drop_add_residual_stochastic_depth_list
                              XFORMERS_AVAILABLE st x_list f r s g).1 in
                attn_bias_cache st ⊆ attn_bias_cache st1 ∧
                (base.size (attn_bias_cache st1) ≤ S (base.size (attn_bias_cache st)))%nat ∧
                cache_ok st1) as Hfirst;
        [|destruct (drop_add_residual_stochastic_depth_list _ st x_list f r s g)
            as [st1 [[ys g1]|e]]]
    end.
    { cbv zeta. unfold drop_add_residual_stochastic_depth_list.
      destruct (mapM (M := M G) _ x_list g) as [[bss g']|e] eqn:Hm;
        [|split_and!; [done|cbn; lia|done]].
      pose proof (mapM_get_branges_scales _ _ _ _ _ Hm) as Hbss.
      apply Forall2_length in Hbss.
      pose proof (get_attn_bias_and_cat_grows XFORMERS_AVAILABLE st x_list (Some bss.*1))
        as [Hsub Hsize].
      pose proof (get_attn_bias_and_cat_ok XFORMERS_AVAILABLE st x_list (Some bss.*1) Hst)
        as Hok.
      destruct (get_attn_bias_and_cat _ st x_list _) as [st' res]. cbn [fst] in *.
      split_and!; [done..|]. apply Hok. intros b [= <-]. by rewrite length_fmap. }
    + (* the second branch: the same signature *)
      cbn [fst] in Hfirst. destruct Hfirst as (Hsub & Hsize & Hok1).
      destruct (Hret st1 ys g1 Hst eq_refl) as (Hsame & bss & g' & sig & Hm & Hsig & Hin).
      match goal with
      | |- context [drop_add_residual_stochastic_depth_list _ st1 ys ?f ?r ?s g1] =>
          assert ((drop_add_residual_stochastic_depth_list
                     XFORMERS_AVAILABLE st1 ys f r s g1).1 = st1) as ->; [|done]
      end.
      unfold drop_add_residual_stochastic_depth_list.
      destruct (mapM (M := M G) _ ys g1) as [[bss2 g2]|e] eqn:Hm2; [|done].
      pose proof (branges_lengths _ _ _ _ _ _ _ _ _ Hsame Hm Hm2) as Hlen.
      pose proof (all_shapes_of_same _ _ _ _ Hsame Hlen) as Hsig2.
      rewrite Hsig in Hsig2.
      assert ((get_attn_bias_and_cat XFORMERS_AVAILABLE st1 ys (Some bss2.*1)).1 = st1)
        as Hkeep.
      { unfold get_attn_bias_and_cat. rewrite Hsig2. destruct sig as [bs key].
        cbn [snd] in Hin. by destruct Hin as [m ->]. }
      by destruct (get_attn_bias_and_cat _ st1 ys _) as [st2 res].
    + done.
  - pose proof (get_attn_bias_and_cat_grows XFORMERS_AVAILABLE st x_list None)
      as [Hsub Hsize].
    pose proof (get_attn_bias_and_cat_ok XFORMERS_AVAILABLE st x_list None Hst ltac:(done))
      as Hok.
    by destruct (get_attn_bias_and_cat _ st x_list None) as [st' res].
Qed.

End Residuals.
End NestedCacheFacts.

(** *** Tensors of tokens keep their shape *)

Section TokenShapes.
Context {Tok : Type} `{TokOps Tok}.
Implicit Types (x y residual : TokTensor Tok).

Lemma length_rows_index_add_loop (rows : list (list Tok)) brange
    (residual : list (list Tok)) alpha :
  length (rows_index_add_loop rows brange residual alpha) = length rows.
Proof.
  revert rows residual. induction brange as [|i brange IH]; intros rows residual; [done|].
  destruct residual as [|r residual]; [done|].
  cbn [rows_index_add_loop]. by rewrite IH, length_alter.
Qed.

Lemma token_index_add_shape x brange residual alpha y :
  index_add x brange residual alpha = Ok y → same_nested_shape x y.
Proof.
  cbn [index_add token_batch].
  intros (_ & _ & (s & Hs & [= <-])%result_bind_Ok_inv)%result_bind_Ok_inv.
  unfold rows_index_add in Hs.
  destruct (decide _); [|done]. destruct (forallb _ _); [|done].
  injection Hs as <-. split; [|done].
  cbn [batch_size token_batch samples]. by rewrite length_rows_index_add_loop.
Qed.

Lemma token_scaled_index_add_shape x brange residual gamma alpha y :
  scaled_index_add x brange residual gamma alpha = Ok y → same_nested_shape x y.
Proof. cbn [scaled_index_add token_nestable]. apply token_index_add_shape. Qed.

Lemma length_split_chunks (seqlens batch_sizes : list Z) chunks :
  split_chunks seqlens batch_sizes = Ok chunks → length chunks = length batch_sizes.
Proof.
  revert seqlens chunks.
  induction batch_sizes as [|bs batch_sizes IH]; intros seqlens chunks; cbn [split_chunks].
  { by intros [= <-]. }
  destruct (decide _); [|done].
  intros (rest & Hrest & [= <-])%result_bind_Ok_inv.
  cbn [length]. f_equal. by eapply IH.
Qed.

Lemma token_split_length attn_bias x ys :
  split attn_bias x = Ok ys → length ys = length (_batch_sizes attn_bias).
Proof.
  cbn [split token_nestable]. unfold tok_split.
  destruct (samples x) as [|toks [|]]; [done| |done].
  destruct (decide _); [|done].
  intros (chunks & Hchunks%length_split_chunks & Hys)%result_bind_Ok_inv.
  destruct (decide _); [|done].
  apply mapM_result_Forall2, Forall2_length in Hys.
  rewrite <- Hys, length_zip, length_reshape. lia.
Qed.

End TokenShapes.

Lemma forward_nested_one_mask_witness :
  let st' := (forward_nested true (token_nested_block dropping_block) true empty_cache
                             two_tensors tt).1 in
  attn_bias_cache empty_cache ⊆ attn_bias_cache st' ∧
  (base.size (attn_bias_cache st') ≤ S (base.size (attn_bias_cache empty_cache)))%nat ∧
  cache_ok st'.
Proof.
  apply (forward_nested_one_mask (T := TokTensor float) (G := unit)).
  - apply token_index_add_shape.
  - apply token_scaled_index_add_shape.
  - apply token_split_length.
  - by split.
  - apply cache_ok_empty.
Defined.

(** The run above, evaluated: both branches leave the second sequence of
    the first tensor out, and the cache holds the one mask they share. *)
Example forward_nested_training_run :
  let run := forward_nested true (token_nested_block dropping_block) true empty_cache
                            two_tensors tt in
  base.size (attn_bias_cache run.1) = 1%nat ∧
  run.2 = Ok ([mkTok 2 [[12; 15]; [3; 4]]; mkTok 3 [[28; 30; 32]]]%float, tt).
Proof. vm_compute. split; reflexivity. Qed.

(** ** Stochastic depth on tensors *)

Lemma returns_from_bind {G} (m : M G Tensor) (f : Tensor → M G Tensor) (g g1 g2 : G) s s' :
  returns_from m g g1 s → (∀ y, shape y = s → returns_from (f y) g1 g2 s') →
  returns_from (m ≫= f) g g2 s'.
Proof.
  intros (y & Hm & Hy) Hf. unfold returns_from, mbind, M_bind. rewrite Hm. by apply Hf.
Qed.

Lemma returns_from_lift {G} (r : result Tensor) (g : G) s :
  returns r s → returns_from (lift r) g g s.
Proof. intros (y & -> & Hy). by exists y. Qed.

Lemma forallb_below (b : Z) (brange : list nat) :
  Forall (λ i, Z.of_nat i < b) brange → forallb (λ i, Z.of_nat i <? b) brange = true.
Proof.
  intros Hin. apply forallb_forall. intros i Hi. apply Z.ltb_lt.
  rewrite Forall_forall in Hin. apply Hin. by apply list_elem_of_In.
Qed.

Lemma tensor_index_select_returns (brange : list nat) (x : Tensor) (b : Z) rest :
  shape x = b :: rest → Forall (λ i, Z.of_nat i < b) brange →
  returns (tensor_index_select brange x) (Z.of_nat (length brange) :: rest).
Proof.
  intros Hx Hin. unfold tensor_index_select. rewrite Hx, forallb_below by done.
  by eexists.
Qed.

Lemma tensor_index_add_returns (x residual : Tensor) (brange : list nat) alpha (b n c : Z) :
  shape x = [b; n; c] → shape residual = [Z.of_nat (length brange); n; c] →
  Forall (λ i, Z.of_nat i < b) brange →
  returns (tensor_index_add x brange residual alpha) [b; n; c].
Proof.
  intros Hx Hr Hin. unfold tensor_index_add, flatten. rewrite Hx, Hr.
  rewrite !decide_True by (cbn; lia).
  cbn [mbind result_bind shape take drop app numel foldr].
  rewrite !Z.eqb_refl, forallb_below by done. cbn [andb]. by eexists.
Qed.

Section TensorStochasticDepth.
Context {G : Type} `{HL : GeneratorLaws G}.

(** [drop_add_residual_stochastic_depth] on a tensor [b, n, c], with a
    residual branch that keeps the shape of what it is given. *)
Lemma drop_add_residual_tensor (f : Tensor → result Tensor) (r : float) (x : Tensor)
    (b n c k : Z) (g : G) :
  0 ≤ b → shape x = [b; n; c] → sample_subset_size b r = Ok k →
  (∀ x' b', 0 ≤ b' → shape x' = [b'; n; c] → returns (f x') [b'; n; c]) →
  returns_from (drop_add_residual_stochastic_depth x (λ x, lift (f x)) r) g
               (randperm b g).2 [b; n; c].
Proof.
  intros Hb Hx Hk Hf.
  destruct (brange_facts (Z.to_nat b) (Z.to_nat k) g) as (_ & _ & Hin).
  rewrite Z2Nat.id in Hin by done.
  unfold returns_from, drop_add_residual_stochastic_depth.
  unfold mbind at 1, M_bind at 1, lift at 1.
  cbn [batch_size tensor_batch]. unfold unpack3. rewrite Hx.
  cbn [mbind result_bind mret result_ret].
  unfold mbind at 1, M_bind at 1, lift at 1. rewrite Hk.
  unfold mbind at 1, M_bind at 1, draw.
  destruct (randperm b g) as [perm g1]. cbn [fst snd] in *.
  assert (Forall (λ i, Z.of_nat i < b) (take (Z.to_nat k) perm)) as Hin'.
  { eapply Forall_impl; [apply Hin|]. intros i Hi. simpl in Hi. lia. }
  destruct (tensor_index_select_returns _ x b [n; c] Hx Hin') as (x_subset & Hsel & Hxs).
  unfold mbind at 1, M_bind at 1, lift at 1.
  cbn [index_select tensor_batch]. rewrite Hsel.
  destruct (Hf x_subset (Z.of_nat (length (take (Z.to_nat k) perm))) ltac:(lia) Hxs)
    as (residual & Hres & Hrs).
  unfold mbind at 1, M_bind at 1, lift at 1. rewrite Hres.
  destruct (tensor_index_add_returns x residual (take (Z.to_nat k) perm)
              (float_of_int b / float_of_int k) b n c Hx Hrs Hin') as (y & Hy & Hys).
  unfold lift. cbn [index_add tensor_batch]. rewrite Hy. by exists y.
Qed.

(** [drop_path_impl] on a tensor in training mode. *)
Lemma drop_path_impl_tensor (x : Tensor) (r : float) (b : Z) rest (g : G) :
  shape x = b :: rest → 0 ≤ b →
  (0 <? r)%float = true → (0 <=? 1 - r)%float = true → (1 - r <=? 1)%float = true →
  returns_from (drop_path_impl x r true) g (bernoulli (1 - r) (Z.to_nat b) g).2 (b :: rest).
Proof.
  intros Hx Hb Hr Hk0 Hk1. unfold returns_from, drop_path_impl.
  rewrite (float_pos_nonzero _ Hr). cbn [orb negb].
  unfold mbind at 1, M_bind at 1, lift at 1.
  cbn [shape0 tensor_batch]. rewrite Hx. cbn [size lookup list_lookup].
  unfold mbind at 1, M_bind at 1, lift at 1. rewrite Hk0, Hk1. cbn [andb].
  unfold mbind at 1, M_bind at 1, draw.
  pose proof (bernoulli_length (1 - r)%float (Z.to_nat b) g) as Hlen.
  destruct (bernoulli (1 - r) (Z.to_nat b) g) as [coins g1]. cbn [fst snd] in *.
  unfold lift. cbn [scale_samples tensor_batch]. unfold tensor_scale_samples. rewrite Hx.
  match goal with
  | |- context [b =? Z.of_nat (length ?l)] =>
      assert ((b =? Z.of_nat (length l)) = true) as ->
  end.
  { apply Z.eqb_eq. destruct (0 <? 1 - r)%float; rewrite !length_fmap, Hlen; lia. }
  by eexists.
Qed.

(** [Block.forward] in training mode, under either kind of stochastic
    depth. *)
Lemma Block_forward_training_step (XFORMERS_AVAILABLE : bool) (blk : Block.t)
    (hd : Z) (x : Tensor) (b n : Z) (g : G) :
  built_block blk hd → 0 ≤ b → 0 ≤ n →
  shape x = [b; n; Block.dim blk] →
  usable_rate (Block.sample_drop_ratio blk) b →
  returns_from (Block.forward XFORMERS_AVAILABLE blk true x) g
               (after_block (Block.sample_drop_ratio blk) b g) [b; n; Block.dim blk].
Proof.
  intros Hblk Hb Hn Hx Hrate.
  assert (∀ x' b', 0 ≤ b' → shape x' = [b'; n; Block.dim blk] →
            returns (Block.attn_residual_func XFORMERS_AVAILABLE blk true x')
                    [b'; n; Block.dim blk]) as Hattn.
  { intros x' b' Hb' Hx'. by apply (Block_attn_residual_built _ _ hd). }
  assert (∀ x' b', 0 ≤ b' → shape x' = [b'; n; Block.dim blk] →
            returns (Block.ffn_residual_func blk true x') [b'; n; Block.dim blk]) as Hffn.
  { intros x' b' Hb' Hx'. by apply (Block_ffn_residual_built _ hd). }
  unfold Block.forward, Block_forward_with, after_block, usable_rate in *.
  cbn [andb].
  destruct (0.1 <? Block.sample_drop_ratio blk)%float eqn:Hr1.
  - destruct Hrate as [k Hk].
    eapply returns_from_bind; [by apply (drop_add_residual_tensor _ _ _ b n (Block.dim blk) k)|].
    intros x1 Hx1. by apply (drop_add_residual_tensor _ _ _ b n (Block.dim blk) k).
  - destruct (0 <? Block.sample_drop_ratio blk)%float eqn:Hr0.
    + destruct Hrate as [Hk0 Hk1]. unfold DropPath_init. rewrite Hr0.
      cbn [DropPath_forward].
      eapply returns_from_bind; [apply returns_from_lift; by apply (Hattn x b)|].
      intros r1 Hr1s.
      eapply returns_from_bind; [by apply (drop_path_impl_tensor _ _ b [n; Block.dim blk])|].
      intros d1 Hd1.
      eapply returns_from_bind.
      { apply returns_from_lift. cbn [tadd tensor_batch]. by apply add_returns_same. }
      intros x1 Hx1.
      eapply returns_from_bind; [apply returns_from_lift; by apply (Hffn x1 b)|].
      intros r2 Hr2s.
      eapply returns_from_bind; [by apply (drop_path_impl_tensor _ _ b [n; Block.dim blk])|].
      intros d2 Hd2.
      apply returns_from_lift. cbn [tadd tensor_batch]. by apply add_returns_same.
    + eapply returns_from_bind; [apply returns_from_lift; by apply (Hattn x b)|].
      intros r1 Hr1s.
      eapply returns_from_bind.
      { apply returns_from_lift. cbn [tadd tensor_batch]. by apply add_returns_same. }
      intros x1 Hx1.
      eapply returns_from_bind; [apply returns_from_lift; by apply (Hffn x1 b)|].
      intros r2 Hr2s.
      apply returns_from_lift. cbn [tadd tensor_batch]. by apply add_returns_same.
Qed.

(** X18.  [Block.forward] in training mode keeps the shape of the tokens
    under either kind of stochastic depth, on a batch of any size (an empty
    one too): above a rate of 0.1 each residual branch draws one arrangement
    of the batch, up to 0.1 it draws one coin per sample, and at 0 the
    generator is left alone.  The rate must be one [Block.forward] can work
    with: the size of the subset is an int, the keep probability lies
    between 0 and 1. *)
Theorem Block_forward_training_tokens (XFORMERS_AVAILABLE : bool) (blk : Block.t)
    (hd : Z) (x : Tensor) (b n : Z) (g : G) :
  built_block blk hd → 0 ≤ b → 0 ≤ n →
  shape x = [b; n; Block.dim blk] →
  usable_rate (Block.sample_drop_ratio blk) b →
  ∃ y, Block.forward XFORMERS_AVAILABLE blk true x g
       = Ok (y, after_block (Block.sample_drop_ratio blk) b g) ∧
       shape y = [b; n; Block.dim blk].
Proof.
  intros Hblk Hb Hn Hx Hrate.
  by apply (Block_forward_training_step XFORMERS_AVAILABLE blk hd x b n g).
Qed.

End TensorStochasticDepth.

Lemma Block_forward_training_tokens_witness :
  ∃ y, Block.forward false half_dropping_block true (tokens 4 5 8) tt
       = Ok (y, after_block 0.5 4 tt) ∧
       shape y = [4; 5; 8].
Proof.
  apply (Block_forward_training_tokens false half_dropping_block 4 (tokens 4 5 8) 4 5 tt).
  - unfold built_block. cbn. lia.
  - lia.
  - lia.
  - reflexivity.
  - exists 2. reflexivity.
Defined.

(** ** The forward pass in training mode *)

Section TrainingForward.
Context {G : Type} `{HL : GeneratorLaws G}.

Lemma forward_flat_training xformers hd (r : float) (bs : list Block.t)
    (x : Tensor) (b n c : Z) (g : G) :
  Forall (λ blk, built_block blk hd ∧ Block.dim blk = c ∧
                 Block.sample_drop_ratio blk = r) bs →
  0 ≤ b → 0 ≤ n → usable_rate r b →
  shape x = [b; n; c] →
  returns_from (forward_flat (λ blk, Block.forward xformers blk true) bs x) g
               (after_blocks r b (length bs) g) [b; n; c].
Proof.
  intros Hbs Hb Hn Hrate. revert x g.
  induction Hbs as [|blk bs (Hblk & <- & <-) _ IH]; intros x g Hx.
  { by exists x. }
  cbn [forward_flat length]. unfold after_blocks. rewrite Nat.iter_succ_r.
  eapply returns_from_bind.
  { by apply (Block_forward_training_step xformers blk hd x b n g). }
  intros y Hy. by apply IH.
Qed.

Lemma forward_blocks_training xformers hd (r : float) (depth : nat)
    (block_chunks : Z) (bs : list Block.t) (blocks : blocks Block.t)
    (x : Tensor) (b n c : Z) (g : G) :
  length bs = depth →
  chunk_blocks depth block_chunks bs = Ok blocks →
  Forall (λ blk, built_block blk hd ∧ Block.dim blk = c ∧
                 Block.sample_drop_ratio blk = r) bs →
  0 ≤ b → 0 ≤ n → usable_rate r b →
  shape x = [b; n; c] →
  returns_from (forward_blocks (λ blk, Block.forward xformers blk true) blocks x) g
               (after_blocks r b depth g) [b; n; c].
Proof.
  intros Hlen Hchunks Hbs Hb Hn Hrate Hx. subst depth.
  destruct blocks as [chunks|bs'].
  - apply chunk_blocks_inv in Hchunks as (Hbc & Hcs & ->).
    cbn [forward_blocks]. unfold returns_from.
    rewrite (forward_chunks_from _ bs _ (length bs) 0) by lia.
    by apply (forward_flat_training xformers hd).
  - unfold chunk_blocks in Hchunks. destruct (0 <? block_chunks).
    + apply result_bind_Ok_inv in Hchunks as (? & _ & Hchunks).
      by apply result_bind_Ok_inv in Hchunks as (? & _ & Hchunks).
    + injection Hchunks as <-. by apply (forward_flat_training xformers hd).
Qed.

End TrainingForward.

(** With [drop_path_uniform] every block has the drop rate of the model. *)
Lemma VisionTransformer_init_blocks_uniform
    (a : VisionTransformer.args) (m : VisionTransformer.t) (hd : Z) :
  VisionTransformer.init a = Ok m →
  0 < VisionTransformer.embed_dim a →
  VisionTransformer.embed_dim a = VisionTransformer.num_heads a * hd →
  0 < VisionTransformer.num_heads a → 0 ≤ hd →
  (VisionTransformer.ffn_layer a ≠ "mlp" →
   ∃ hid width,
     int_of_float (float_of_int (VisionTransformer.embed_dim a)
                   * VisionTransformer.mlp_ratio a) = Ok hid ∧
     SwiGLUFFNFused.hidden_features (VisionTransformer.embed_dim a) (Some hid) = Ok width ∧
     0 ≤ width) →
  VisionTransformer.drop_path_uniform a = true →
  ∃ blocks_list,
    length blocks_list = VisionTransformer.depth a ∧
    chunk_blocks (VisionTransformer.depth a) (VisionTransformer.block_chunks a) blocks_list
    = Ok (VisionTransformer.self_blocks m) ∧
    Forall (λ blk, built_block blk hd ∧ Block.dim blk = VisionTransformer.embed_dim a ∧
                   Block.sample_drop_ratio blk = VisionTransformer.drop_path_rate a)
           blocks_list.
Proof.
  intros Hinit HD Hdim Hheads Hhd Hswiglu Huniform.
  destruct (VisionTransformer_init_parts _ _ Hinit)
    as (_ & _ & _ & _ & _ & _ & _ & _ & ffn_layer & blocks_list & Hffn & Hbl & Hchunks).
  exists blocks_list. apply mapM_result_Forall2 in Hbl. rewrite Huniform in Hbl.
  split_and!.
  - by rewrite <- (Forall2_length _ _ _ Hbl), length_replicate.
  - done.
  - clear Hchunks. revert blocks_list Hbl.
    induction (VisionTransformer.depth a) as [|depth IH]; intros blocks_list Hbl;
      cbn [replicate] in Hbl.
    { apply Forall2_nil_inv_l in Hbl as ->. constructor. }
    apply Forall2_cons_inv_l in Hbl as (blk & bl & Hblk & Hbl & ->).
    constructor; [|by apply IH].
    eapply Block_init_built in Hblk as (Hbuilt & HdimB & Hratio); try done.
    intros ->. apply Hswiglu. intros Hmlp. rewrite Hmlp in Hffn. done.
Qed.


Lemma dropping_init : VisionTransformer.init dropping_args = Ok dropping_model.
Proof. vm_compute. reflexivity. Qed.


(** ** [get_intermediate_layers] *)

Section ChunkedLayers.
Context {T B G : Type} (run : B → T → M G T).

(** The chunked loop of a model is the loop over its blocks. *)
Lemma chunked_layers_flat (depth : nat) (block_chunks : Z) (bs : list B) chunks x n g :
  length bs = depth →
  chunk_blocks depth block_chunks bs = Ok (ChunkedBlocks chunks) →
  _get_intermediate_layers_chunked run chunks x n g
  = _get_intermediate_layers_not_chunked run bs x n g.
Proof.
  intros Hdepth Hinit. subst depth.
  apply chunk_blocks_inv in Hinit as (Hbc & Hcs & ->).
  set (chunksize := Z.of_nat (length bs) / block_chunks) in *.
  assert (0 < length bs)%nat as Hd.
  { destruct bs; [|simpl; lia]. by vm_compute in Hcs. }
  unfold _get_intermediate_layers_chunked, _get_intermediate_layers_not_chunked.
  pose proof (last_chunk_length bs chunksize (length bs) 0 Hcs
                ltac:(lia) ltac:(lia)) as Hlast.
  destruct (last _) as [c|]; simpl in Hlast; [|done].
  injection Hlast as Hc.
  unfold mbind at 1, M_bind at 1. simpl. rewrite Hc.
  destruct (blocks_to_take (Z.of_nat (length bs)) n) as [take_ len].
  unfold mbind, M_bind.
  by rewrite (chunks_loop_from run take_ bs chunksize (length bs) 0) by lia.
Qed.

End ChunkedLayers.

Lemma activations_built `{Generator G} xformers hd training (bs : list Block.t)
    (x : Tensor) (b n c : Z) (g : G) :
  Forall (λ blk, built_block blk hd ∧ Block.dim blk = c ∧
                 (training = false ∨ (0 <? Block.sample_drop_ratio blk)%float = false)) bs →
  0 ≤ b → 0 ≤ n →
  shape x = [b; n; c] →
  ∃ acts, activations (λ blk, Block.forward xformers blk training) bs x g = Ok (acts, g) ∧
          Forall (λ y, shape y = [b; n; c]) acts.
Proof.
  intros Hbs Hb Hn. revert x. induction Hbs as [|blk bs (Hblk & <- & Hmode) _ IH]; intros x Hx.
  { exists []. by split. }
  cbn [activations].
  destruct (Block_forward_built xformers blk hd training x b n g Hblk Hb Hn Hmode Hx)
    as (x1 & Hrun & Hx1).
  destruct (IH x1 Hx1) as (acts & Hacts & Hshapes).
  exists (x1 :: acts). split; [|by constructor].
  unfold mbind, M_bind. by rewrite Hrun, Hacts.
Qed.

Lemma mapM_returns (f : Tensor → result Tensor) (l : list Tensor) s s' :
  (∀ x, shape x = s → returns (f x) s') →
  Forall (λ x, shape x = s) l →
  ∃ l', mapM (M := result) f l = Ok l' ∧ length l' = length l ∧
        Forall (λ y, shape y = s') l'.
Proof.
  intros Hf. induction 1 as [|x l Hx _ (l' & IH & Hlen & Hl')].
  { exists []. by split_and!. }
  destruct (Hf x Hx) as (y & Hy & Hys).
  exists (y :: l'). cbn [mapM]. rewrite Hy, IH. split_and!; [done|simpl; lia|by constructor].
Qed.

Lemma select1_returns (i : Z) (x : Tensor) (b n : Z) rest :
  shape x = b :: n :: rest → - n ≤ i < n → returns (select1 i x) (b :: rest).
Proof.
  intros Hs Hi. unfold select1. rewrite Hs.
  assert ((- n <=? i) && (i <? n) = true) as ->.
  { apply andb_true_intro. split; [apply Z.leb_le|apply Z.ltb_lt]; lia. }
  by eexists.
Qed.

(** [out.reshape(batch_size, h0, w0, -1)] on the patch tokens. *)
Lemma reshape_grid_returns (x : Tensor) (b h0 w0 d : Z) :
  shape x = [b; h0 * w0; d] → 0 < b → 0 < h0 → 0 < w0 →
  returns (reshape [b; h0; w0; -1] x) [b; h0; w0; d].
Proof.
  intros Hs Hb Hh Hw. unfold reshape, infer_shape. rewrite Hs.
  rewrite bool_decide_eq_false_2; cycle 1.
  { rewrite !Exists_cons, Exists_nil. lia. }
  assert (filter (λ d0, d0 = -1) [b; h0; w0; -1] = [-1]) as ->.
  { rewrite !filter_cons, filter_nil.
    rewrite !(decide_False (P := _ = -1)) by lia. by rewrite decide_True by lia. }
  assert (filter (λ d0, d0 ≠ -1) [b; h0; w0; -1] = [b; h0; w0]) as ->.
  { rewrite !filter_cons, filter_nil.
    rewrite !(decide_True (P := _ ≠ -1)) by lia. by rewrite decide_False by lia. }
  cbn [length numel foldr].
  assert (b * (h0 * w0 * (d * 1)) = d * (b * (h0 * (w0 * 1)))) as -> by lia.
  assert (0 < b * (h0 * (w0 * 1))) as Hk by nia.
  rewrite Z.mod_mul, Z.div_mul by lia.
  assert ((b * (h0 * (w0 * 1)) =? 0) = false) as -> by (apply Z.eqb_neq; lia).
  cbn [orb negb Z.eqb mbind result_bind mret result_ret fmap list_fmap].
  assert ((b =? -1) = false) as -> by (apply Z.eqb_neq; lia).
  assert ((h0 =? -1) = false) as -> by (apply Z.eqb_neq; lia).
  assert ((w0 =? -1) = false) as -> by (apply Z.eqb_neq; lia).
  by eexists.
Qed.



(** ** PatchEmbed without flattening *)

(** [x.reshape(-1, h, w, d)] on the tokens of a grid. *)
Lemma reshape_unflatten_returns (x : Tensor) (b h w d : Z) :
  shape x = [b; h * w; d] → 0 ≤ b → 0 < h → 0 < w → 0 < d →
  returns (reshape [-1; h; w; d] x) [b; h; w; d].
Proof.
  intros Hs Hb Hh Hw Hd. unfold reshape, infer_shape. rewrite Hs.
  rewrite bool_decide_eq_false_2; cycle 1.
  { rewrite !Exists_cons, Exists_nil. lia. }
  assert (filter (λ d0, d0 = -1) [-1; h; w; d] = [-1]) as ->.
  { rewrite !filter_cons, filter_nil.
    rewrite decide_True by lia. by rewrite !(decide_False (P := _ = -1)) by lia. }
  assert (filter (λ d0, d0 ≠ -1) [-1; h; w; d] = [h; w; d]) as ->.
  { rewrite !filter_cons, filter_nil.
    rewrite decide_False by lia. by rewrite !(decide_True (P := _ ≠ -1)) by lia. }
  cbn [length numel foldr].
  assert (b * (h * w * (d * 1)) = b * (h * (w * (d * 1)))) as -> by lia.
  assert (0 < h * (w * (d * 1))) as Hk by nia.
  rewrite Z.mod_mul, Z.div_mul by lia.
  assert ((h * (w * (d * 1)) =? 0) = false) as -> by (apply Z.eqb_neq; lia).
  cbn [orb negb Z.eqb mbind result_bind mret result_ret fmap list_fmap].
  assert ((h =? -1) = false) as -> by (apply Z.eqb_neq; lia).
  assert ((w =? -1) = false) as -> by (apply Z.eqb_neq; lia).
  assert ((d =? -1) = false) as -> by (apply Z.eqb_neq; lia).
  by eexists.
Qed.

(** X21.  Without [flatten_embedding], [PatchEmbed.forward] returns the
    tokens on their grid: a batch [b, C, H, W] whose height and width are
    positive multiples of the patch size gives [b, H / patch, W / patch,
    embed_dim], whatever [img_size] the layer was built with, with or
    without a norm layer and also for an empty batch. *)
Theorem PatchEmbed_forward_grid (self : PatchEmbed.t) (x : Tensor) (b H W : Z) :
  0 < (PatchEmbed.patch_size self).1 →
  0 < (PatchEmbed.patch_size self).2 →
  0 < PatchEmbed.embed_dim self →
  PatchEmbed.flatten_embedding self = false →
  shape x = [b; PatchEmbed.in_chans self; H; W] →
  0 ≤ b → 0 < H → 0 < W →
  H mod (PatchEmbed.patch_size self).1 = 0 →
  W mod (PatchEmbed.patch_size self).2 = 0 →
  ∃ y, PatchEmbed.forward self x = Ok y ∧
       shape y = [b; H / (PatchEmbed.patch_size self).1;
                  W / (PatchEmbed.patch_size self).2; PatchEmbed.embed_dim self].
Proof.
  intros Hph Hpw HD Hflat Hshape Hb HH HW Hh Hw.
  unfold PatchEmbed.forward. rewrite Hshape, Hflat. simpl.
  destruct (PatchEmbed.patch_size self) as [ph pw] eqn:Hps. simpl in *.
  unfold pymod.
  assert ((ph =? 0) = false) as -> by (apply Z.eqb_neq; lia).
  assert ((pw =? 0) = false) as -> by (apply Z.eqb_neq; lia).
  simpl. rewrite Hh, Hw. simpl.
  assert (ph ≤ H).
  { destruct (Z.le_gt_cases ph H) as [|Hlt]; [done|].
    rewrite Z.mod_small in Hh by lia. lia. }
  assert (pw ≤ W).
  { destruct (Z.le_gt_cases pw W) as [|Hlt]; [done|].
    rewrite Z.mod_small in Hw by lia. lia. }
  unfold conv2d. rewrite Hshape. rewrite Z.eqb_refl.
  assert ((ph <=? 0) = false) as -> by (apply Z.leb_gt; lia).
  assert ((pw <=? 0) = false) as -> by (apply Z.leb_gt; lia).
  assert ((H <? ph) = false) as -> by (apply Z.ltb_ge; lia).
  assert ((W <? pw) = false) as -> by (apply Z.ltb_ge; lia).
  simpl.
  assert ((H - ph) / ph + 1 = H / ph) as ->.
  { rewrite <- Z.div_add by lia. f_equal. lia. }
  assert ((W - pw) / pw + 1 = W / pw) as ->.
  { rewrite <- Z.div_add by lia. f_equal. lia. }
  assert (0 < H / ph) by (apply Z.div_str_pos; lia).
  assert (0 < W / pw) by (apply Z.div_str_pos; lia).
  destruct (PatchEmbed.norm self); simpl.
  - unfold layer_norm. simpl. rewrite Z.eqb_refl. simpl.
    apply reshape_unflatten_returns; try done. simpl. do 2 f_equal. lia.
  - apply reshape_unflatten_returns; try done. simpl. do 2 f_equal. lia.
Qed.

Lemma PatchEmbed_forward_grid_witness :
  ∃ y, PatchEmbed.forward (PatchEmbed.mk (28, 28) (14, 14) (2, 2) 4 3 8 false true)
                          (images 2 42 28) = Ok y ∧
       shape y = [2; 42 / 14; 28 / 14; 8].
Proof.
  apply (PatchEmbed_forward_grid (PatchEmbed.mk (28, 28) (14, 14) (2, 2) 4 3 8 false true)
           (images 2 42 28) 2 42 28); simpl; try lia; reflexivity.
Defined.
